(** * alpha-var-code: wavelength conversions, transitions, pairs, echelle orders

    A shallow embedding of the numerical core of the repository:

    - [varconlib/conversions/conversions.py]: the Edlen 1953 and Morton 2000
      air/vacuum conversions;
    - [varconlib/miscellaneous/miscellaneous.py]: [wavelength2index] and
      [wavelength2velocity];
    - [utils/transition_line.py] and [varconlib/transition_pair]: the
      [Transition] and [TransitionPair] classes;
    - [utils/obs2d.py]: [getWavelengthArray] and [findWavelength].

    Python floats are modelled by exact rationals ([Q]): every arithmetic
    expression keeps the source's shape and order of operations, rounding is
    not modelled.  Exceptions are values of an error monad; quantities with
    units follow [unyt]: a numerical value and a unit, a unit being its
    dimensions and its factor to the SI base units.  A division by zero has
    the value 0 in [Q], where numpy gives [inf] or [nan] with a warning: at
    wavelength 0 the refraction indices of the model are not those of the
    code, and neither is the velocity between two wavelengths of sum 0.

    [convert_to_units] changes the object it is called on.  Where the code
    passes an attribute of an object to a function that converts its
    argument ([shift_wavelength], [air2vacESO]), the method of the model
    returns the object with the attribute as the call leaves it. *)

From Stdlib Require Import QArith Qabs Qround ZArith Lia Lqa Psatz List String Ascii Bool.
From stdpp Require Import base option list strings gmap pretty.

Local Open Scope Q_scope.

(** ** Python exceptions and the error monad *)

Inductive exn_class : Set :=
  | AttributeError | ValueError | KeyError | TypeError | AssertionError
  | IndexError | RuntimeError | UnitConversionError | SameWavelengthsError
  | OutOfFuel.

#[global] Instance exn_class_eq_dec : EqDecision exn_class.
Proof. solve_decision. Defined.

Record exn : Set := mk_exn { exn_cls : exn_class; exn_msg : string }.

Inductive result (A : Type) : Type :=
  | Return (a : A)
  | Raise (e : exn).
Arguments Return {A} a.
Arguments Raise {A} e.

#[global] Instance result_ret : MRet result := fun A a => Return a.

#[global] Instance result_bind : MBind result := fun A B k r =>
  match r with
  | Return a => k a
  | Raise e => Raise e
  end.

Definition raise {A : Type} (c : exn_class) (msg : string) : result A :=
  Raise (mk_exn c msg).

(** [try: r except c: handler] catches class [c] only. *)
Definition try_except {A : Type} (r : result A) (c : exn_class)
    (handler : exn -> result A) : result A :=
  match r with
  | Return a => Return a
  | Raise e => if decide (exn_cls e = c) then handler e else Raise e
  end.

Definition is_Return {A : Type} (r : result A) : Prop :=
  match r with Return _ => True | Raise _ => False end.

Definition raises {A : Type} (r : result A) (c : exn_class) : Prop :=
  match r with Return _ => False | Raise e => exn_cls e = c end.

(** ** Quantities with units ([unyt]) *)

(** Dimensions as exponents of length and time, the two that occur here. *)
Record dimensions : Set := mk_dim { dim_length : Z; dim_time : Z }.

#[global] Instance dimensions_eq_dec : EqDecision dimensions.
Proof. solve_decision. Defined.

(** A unit: its factor to the SI base units and its dimensions. *)
Record Unit : Set := mk_unit { base_value : Q; unit_dims : dimensions }.

Module u.
Definition length : dimensions := mk_dim 1 0.
Definition time : dimensions := mk_dim 0 1.
Definition velocity : dimensions := mk_dim 1 (-1).
Definition dimensionless_dims : dimensions := mk_dim 0 0.

Definition m : Unit := mk_unit 1 length.
Definition km : Unit := mk_unit 1e3 length.
Definition cm : Unit := mk_unit 1e-2 length.
Definition nm : Unit := mk_unit 1e-9 length.
Definition angstrom : Unit := mk_unit 1e-10 length.
Definition s : Unit := mk_unit 1 time.
Definition dimensionless : Unit := mk_unit 1 dimensionless_dims.
Definition m_per_s : Unit := mk_unit 1 velocity.
Definition km_per_s : Unit := mk_unit 1e3 velocity.
(** [unyt.c], the speed of light, in m/s. *)
Definition c_value : Q := 299792458.
End u.

Record unyt_quantity : Set := mk_quantity { value : Q; units : Unit }.

(** [unyt]'s conversion factor between two units of the same dimensions. *)
Definition get_conversion_factor (old new : Unit) : result Q :=
  if decide (unit_dims old = unit_dims new)
  then Return (base_value old / base_value new)
  else raise UnitConversionError "cannot convert between units".

(** [q.to(new)] *)
Definition quantity_to (q : unyt_quantity) (new : Unit) : result unyt_quantity :=
  f ← get_conversion_factor (units q) new;
  Return (mk_quantity (value q * f) new).


(** ** Arrays ([numpy.ndarray], [unyt.unyt_array])

    An array is its shape and its elements in row-major order. *)
Record ndarray : Set := mk_ndarray { shape : list nat; flat : list Q }.

Definition prod_shape (sh : list nat) : nat := fold_right Nat.mul 1%nat sh.

Definition ndarray_wf (a : ndarray) : Prop :=
  length (flat a) = prod_shape (shape a).

Definition ndim (a : ndarray) : nat := length (shape a).

Definition flatten (a : ndarray) : ndarray :=
  mk_ndarray [length (flat a)] (flat a).

Definition reshape (a : ndarray) (sh : list nat) : result ndarray :=
  if decide (prod_shape sh = length (flat a))
  then Return (mk_ndarray sh (flat a))
  else raise ValueError "cannot reshape array".

Definition zeros (sh : list nat) : ndarray :=
  mk_ndarray sh (replicate (prod_shape sh) 0).

Record unyt_array : Set := mk_array { arr_data : ndarray; arr_units : Unit }.

(** [a.convert_to_units(new)] and [a.to(new)] compute the same values; the
    first replaces [a], the second returns a new array. *)
Definition array_to (a : unyt_array) (new : Unit) : result unyt_array :=
  f ← get_conversion_factor (arr_units a) new;
  Return (mk_array (mk_ndarray (shape (arr_data a))
                               (map (fun x => x * f) (flat (arr_data a)))) new).

(** Comparisons of floats, as booleans. *)
Definition Qltb (x y : Q) : bool := negb (Qle_bool y x).
Definition Qleb (x y : Q) : bool := Qle_bool x y.

(** ** [varconlib/conversions/conversions.py] *)
Module conversions.

(** [air_indexEdlen53(l, t=15., p=760.)] *)
Definition air_indexEdlen53_tp (l t p : Q) : Q :=
  let n := 1e-6 * p * (1 + (1.049 - 0.0157 * t) * 1e-6 * p) / 720.883
           / (1 + 0.003661 * t)
           * (64.328 + 29498.1 / (146 - (1e4 / l) ^ 2)
              + 255.4 / (41 - (1e4 / l) ^ 2)) in
  let n := n + 1 in
  n.

Definition air_indexEdlen53 (l : Q) : Q := air_indexEdlen53_tp l 15 760.

(** The arguments the conversion functions accept: a float, a bare array,
    or either with units. *)
Inductive wl_arg : Set :=
  | WFloat (x : Q)
  | WArray (a : ndarray)
  | WQuantity (q : unyt_quantity)
  | WUnytArray (a : unyt_array).

Definition map_ndarray (f : Q -> Q) (a : ndarray) : ndarray :=
  mk_ndarray (shape a) (map f (flat a)).

(** [vac2airESO(ll)].  With units, the value is converted to Angstroms
    ([convert_to_units] works in place: the caller's object is in Angstroms
    afterwards), and the result, a number of Angstroms, is tagged with the
    original units. *)
Definition vac2airESO (ll : wl_arg) : result wl_arg :=
  match ll with
  | WQuantity q =>
      let original_units := units q in
      q' ← quantity_to q u.angstrom;
      let ll := value q' in
      let llair := ll / air_indexEdlen53 ll in
      Return (WQuantity (mk_quantity llair original_units))
  | WUnytArray a =>
      let original_units := arr_units a in
      a' ← array_to a u.angstrom;
      let ll := arr_data a' in
      let llair := map_ndarray (fun x => x / air_indexEdlen53 x) ll in
      Return (WUnytArray (mk_array llair original_units))
  | WFloat ll =>
      let original_units := 1 in
      let llair := ll / air_indexEdlen53 ll in
      Return (WFloat (llair * original_units))
  | WArray ll =>
      let original_units := 1 in
      let llair := map_ndarray (fun x => x / air_indexEdlen53 x) ll in
      Return (WArray (map_ndarray (fun x => x * original_units) llair))
  end.

Definition tolerance : Q := 2e-12.
Definition num_iter : nat := 100.

(** The variables of the [while] loop of [air2vacESO]. *)
Record loop_state : Set := mk_loop {
  new_wavelength : Q;
  old_wavelength : Q;
  iterations : nat;
  past_iterations : list Q
}.

Definition loop_init (air : Q) : loop_state := mk_loop air 0 0 [air].

(** [while abs(old_wavelength - new_wavelength) > tolerance: ...].  The
    body raises once [iterations] exceeds [num_iter], so [S num_iter]
    units of fuel are never used up (lemma [while_loop_fuel]). *)
Fixpoint while_loop (fuel : nat) (air : Q) (st : loop_state) : result loop_state :=
  if Qltb tolerance (Qabs (old_wavelength st - new_wavelength st)) then
    match fuel with
    | O => raise OutOfFuel "out of fuel"
    | S fuel' =>
        let old_wavelength := new_wavelength st in
        let n_refraction := air_indexEdlen53 (new_wavelength st) in
        let new_wavelength := air * n_refraction in
        let iterations := S (iterations st) in
        let past_iterations := past_iterations st ++ [new_wavelength] in
        if (num_iter <? iterations)%nat
        then raise RuntimeError "Max number of iterations exceeded!"
        else while_loop fuel' air
               (mk_loop new_wavelength old_wavelength iterations past_iterations)
    end
  else Return st.

(** One pass of the [for] loop: the vacuum wavelength of one element. *)
Definition air2vac_element (air : Q) : result Q :=
  st ← while_loop (S num_iter) air (loop_init air);
  Return (new_wavelength st).

(** [for i in trange(0, len(air_wavelengths_array)): ...] *)
Fixpoint for_elements (airs : list Q) (vacuum_wavelengths_list : list Q)
    : result (list Q) :=
  match airs with
  | [] => Return vacuum_wavelengths_list
  | air :: rest =>
      v ← air2vac_element air;
      for_elements rest (vacuum_wavelengths_list ++ [v])
  end.

(** [air2vacESO(air_wavelengths_array)].  The loop is written for a 1-D
    array, a 2-D one is flattened first; [len] of a 0-d array raises
    [TypeError], and with more dimensions the loop test is applied to a
    sub-array, for which numpy raises [ValueError]. *)
Definition air2vacESO (air_wavelengths_array : unyt_array) : result unyt_array :=
  let original_units := arr_units air_wavelengths_array in
  let do_reshape := (ndim (arr_data air_wavelengths_array) =? 2)%nat in
  let original_shape := shape (arr_data air_wavelengths_array) in
  let air_wavelengths_array :=
    if do_reshape
    then mk_array (flatten (arr_data air_wavelengths_array)) original_units
    else air_wavelengths_array in
  air_wavelengths_array ← array_to air_wavelengths_array u.angstrom;
  match ndim (arr_data air_wavelengths_array) with
  | O => raise TypeError "len() of unsized object"
  | S (S _) => raise ValueError "The truth value of an array is ambiguous"
  | 1%nat =>
      vacuum_wavelengths_list ←
        for_elements (flat (arr_data air_wavelengths_array)) [];
      let vacuum_array :=
        mk_array (mk_ndarray [length vacuum_wavelengths_list]
                             vacuum_wavelengths_list) u.angstrom in
      if do_reshape then
        r ← reshape (arr_data vacuum_array) original_shape;
        array_to (mk_array r u.angstrom) original_units
      else array_to vacuum_array original_units
  end.

(** [air2vacESO] together with its argument as the call leaves it:
    [flatten] makes a copy of a 2-D array, any other array is converted to
    Angstroms in place, on the caller's object. *)
Definition air2vacESO_inplace (air_wavelengths_array : unyt_array)
    : unyt_array * result unyt_array :=
  (if (ndim (arr_data air_wavelengths_array) =? 2)%nat
   then air_wavelengths_array
   else match array_to air_wavelengths_array u.angstrom with
        | Return converted => converted
        | Raise _ => air_wavelengths_array
        end,
   air2vacESO air_wavelengths_array).

(** [vac2airMorton00(wl_vac)] *)
Definition vac2airMorton00 (wl_vac : Q) : Q :=
  let s := 1e4 / wl_vac in
  let n := 1 + 0.0000834254 + (0.02406147 / (130 - s ^ 2))
           + (0.00015998 / (38.9 - s ^ 2)) in
  wl_vac / n.

(** [air2vacMortonIAU(wl_air)] *)
Definition air2vacMortonIAU (wl_air : Q) : Q :=
  let s := 1e4 / wl_air in
  let n := 1 + 0.00008336624212083
           + (0.02408926869968 / (130.1065924522 - s ^ 2))
           + (0.0001599740894897 / (38.92568793293 - s ^ 2)) in
  wl_air * n.

(** *** The iteration, as a sequence

    [iterate air k] is [new_wavelength] after [k] passes of the loop body,
    [previous air k] is [old_wavelength] at that point. *)
Fixpoint iterate (air : Q) (k : nat) : Q :=
  match k with
  | O => air
  | S k' => air * air_indexEdlen53 (iterate air k')
  end.

Definition previous (air : Q) (k : nat) : Q :=
  match k with
  | O => 0
  | S k' => iterate air k'
  end.

(** The loop test after [k] passes: convergence has been reached when the
    last two iterates differ by at most the tolerance. *)
Definition converged (air : Q) (k : nat) : Prop :=
  Qabs (previous air k - iterate air k) <= tolerance.


(** *** Names used in the statements about [air2vacESO] *)

(** The loop variables after [k] passes of the body. *)
Definition state_at (air : Q) (k : nat) : loop_state :=
  mk_loop (iterate air k) (previous air k) k (map (iterate air) (seq 0 (S k))).

(** The first [j] in [k, k + n) at which the loop test fails, if any. *)
Fixpoint first_converged (air : Q) (k n : nat) : option nat :=
  match n with
  | O => None
  | S n' =>
      if Qltb tolerance (Qabs (previous air k - iterate air k))
      then first_converged air (S k) n'
      else Some k
  end.

Definition max_iter_exn : exn :=
  mk_exn RuntimeError "Max number of iterations exceeded!".

(** The conversions of [air2vacESO] to Angstroms and back. *)
Definition to_angstrom (un : Unit) (x : Q) : Q :=
  x * (base_value un / base_value u.angstrom).

Definition from_angstrom (un : Unit) (v : Q) : Q :=
  v * (base_value u.angstrom / base_value un).

(** What [air2vacESO] returns for one element [x] of the input: [r], in the
    original units, is the first iterate [v] that is within the tolerance
    of the iterate [v_prev] before it. *)
Definition element_result (un : Unit) (x r : Q) : Prop :=
  let air := to_angstrom un x in
  exists j, (j <= num_iter)%nat /\
    r = from_angstrom un (iterate air j) /\
    converged air j /\
    (forall i, (i < j)%nat -> ~ converged air i) /\
    (tolerance < Qabs air -> iterate air j = air * air_indexEdlen53 (previous air j)) /\
    (Qabs air <= tolerance -> j = 0%nat).

(** The Edlen index is [1 + K_edlen * G_edlen s2], with [s2] the squared
    wavenumber [(1e4 / l) ^ 2]. *)
Definition K_edlen : Q :=
  1e-6 * 760 * (1 + (1.049 - 0.0157 * 15) * 1e-6 * 760) / 720.883
  / (1 + 0.003661 * 15).

Definition G_edlen (s2 : Q) : Q :=
  64.328 + 29498.1 / (146 - s2) + 255.4 / (41 - s2).


(** *** Names used in the statements about the round trips *)

(** The optical range of HARPS, 378 nm to 691 nm, in Angstroms. *)
Definition harps_min : Q := 3780.
Definition harps_max : Q := 6910.

(** The indices of [vac2airMorton00] and [air2vacMortonIAU], as functions
    of the squared wavenumber [s ** 2]. *)
Definition morton_index_vac (s2 : Q) : Q :=
  1 + 0.0000834254 + (0.02406147 / (130 - s2)) + (0.00015998 / (38.9 - s2)).

Definition morton_index_air (s2 : Q) : Q :=
  1 + 0.00008336624212083 + (0.02408926869968 / (130.1065924522 - s2))
  + (0.0001599740894897 / (38.92568793293 - s2)).

End conversions.

(** ** [utils/air_vac_conversions.py], the earlier version of the conversions *)
Module air_vac_conversions.

(** [air_indexEdlen53(l, t=15., p=760.)] *)
Definition air_indexEdlen53_tp (l t p : Q) : Q :=
  let n := 1e-6 * p * (1 + (1.049 - 0.0157 * t) * 1e-6 * p) / 720.883
           / (1 + 0.003661 * t)
           * (64.328 + 29498.1 / (146 - (1e4 / l) ^ 2)
              + 255.4 / (41 - (1e4 / l) ^ 2)) in
  let n := n + 1 in
  n.

Definition air_indexEdlen53 (l : Q) : Q := air_indexEdlen53_tp l 15 760.

(** [vac2airESO(ll)] *)
Definition vac2airESO (ll : Q) : Q :=
  let llair := ll / air_indexEdlen53 ll in
  llair.

Definition tolerance : Q := 1e-12.

(** [while abs(oldwl - newwl) > tolerance: ...].  The loop has no bound of
    its own; [None] is a model that ran out of [fuel]. *)
Fixpoint while_loop (fuel : nat) (air newwl oldwl : Q) : option Q :=
  if Qltb tolerance (Qabs (oldwl - newwl)) then
    match fuel with
    | O => None
    | S fuel' =>
        let oldwl := newwl in
        let n := air_indexEdlen53 newwl in
        let newwl := air * n in
        while_loop fuel' air newwl oldwl
    end
  else Some newwl.

(** Rounding to the nearest integer, a half to the even one, as numpy and
    Python round. *)
Definition round_half_even (y : Q) : Z :=
  let f := Qfloor y in
  let d := y - inject_Z f in
  if Qltb d (1 # 2) then f
  else if Qltb (1 # 2) d then (f + 1)%Z
  else if Z.even f then f else (f + 1)%Z.

(** [round(x, 2)] *)
Definition round2 (x : Q) : Q := inject_Z (round_half_even (x * 100)) / 100.

(** The loop over the elements of [air2vacESO]. *)
Fixpoint for_elements (fuel : nat) (air_arr : list Q) (vac : list Q) : option (list Q) :=
  match air_arr with
  | [] => Some vac
  | air :: rest =>
      newwl ← while_loop fuel air air 0;
      for_elements fuel rest (vac ++ [round2 newwl])
  end.

(** [air2vacESO(air_arr)], for a sequence of floats. *)
Definition air2vacESO (fuel : nat) (air_arr : list Q) : option (list Q) :=
  for_elements fuel air_arr [].

End air_vac_conversions.

(** ** Arithmetic and comparisons of quantities

    As in [unyt]: in [a - b], [a + b] and [a < b] the right operand is
    converted to the units of the left one; products and quotients
    combine the units. *)
Definition unit_mul (a b : Unit) : Unit :=
  mk_unit (base_value a * base_value b)
          (mk_dim (dim_length (unit_dims a) + dim_length (unit_dims b))
                  (dim_time (unit_dims a) + dim_time (unit_dims b))).

Definition unit_div (a b : Unit) : Unit :=
  mk_unit (base_value a / base_value b)
          (mk_dim (dim_length (unit_dims a) - dim_length (unit_dims b))
                  (dim_time (unit_dims a) - dim_time (unit_dims b))).

Definition q_sub (a b : unyt_quantity) : result unyt_quantity :=
  b' ← quantity_to b (units a);
  Return (mk_quantity (value a - value b') (units a)).

Definition q_add (a b : unyt_quantity) : result unyt_quantity :=
  b' ← quantity_to b (units a);
  Return (mk_quantity (value a + value b') (units a)).

Definition q_mul (a b : unyt_quantity) : unyt_quantity :=
  mk_quantity (value a * value b) (unit_mul (units a) (units b)).

Definition q_div (a b : unyt_quantity) : unyt_quantity :=
  mk_quantity (value a / value b) (unit_div (units a) (units b)).

Definition q_div_scalar (a : unyt_quantity) (x : Q) : unyt_quantity :=
  mk_quantity (value a / x) (units a).

Definition q_abs (a : unyt_quantity) : unyt_quantity :=
  mk_quantity (Qabs (value a)) (units a).

Definition q_lt (a b : unyt_quantity) : result bool :=
  b' ← quantity_to b (units a);
  Return (Qltb (value a) (value b')).

Definition q_le (a b : unyt_quantity) : result bool :=
  b' ← quantity_to b (units a);
  Return (Qleb (value a) (value b')).

Definition q_gt (a b : unyt_quantity) : result bool := q_lt b a.
Definition q_ge (a b : unyt_quantity) : result bool := q_le b a.

(** [1 / a]: the value and the units are inverted. *)
Definition q_inv (a : unyt_quantity) : unyt_quantity :=
  mk_quantity (1 / value a) (unit_div u.dimensionless (units a)).

(** [un ** n] *)
Definition unit_pow (un : Unit) (n : Z) : Unit :=
  mk_unit (base_value un ^ n)
          (mk_dim (dim_length (unit_dims un) * n) (dim_time (unit_dims un) * n)).

(** [a == b] on units: the same factor to the base units and the same
    dimensions. *)
Definition unit_eqb (a b : Unit) : bool :=
  Qeq_bool (base_value a) (base_value b) && bool_decide (unit_dims a = unit_dims b).

(** ** Python sequences: indexing with negative indices, [range] loops *)

Definition py_index {A : Type} (l : list A) (i : Z) : result A :=
  let n := Z.of_nat (length l) in
  let j := if (i <? 0)%Z then (i + n)%Z else i in
  if (j <? 0)%Z then raise IndexError "index out of range"
  else match l !! Z.to_nat j with
       | Some x => Return x
       | None => raise IndexError "index out of range"
       end.

(** [for i in range(start, start + n): s = body(i, s)] *)
Fixpoint for_range {S : Type} (start n : nat) (body : nat -> S -> result S)
    (s : S) : result S :=
  match n with
  | O => Return s
  | Datatypes.S n' => s' ← body start s; for_range (Datatypes.S start) n' body s'
  end.

(** One element of a 1-D array with units, as a quantity. *)
Definition array_item (a : unyt_array) (i : Z) : result unyt_quantity :=
  x ← py_index (flat (arr_data a)) i;
  Return (mk_quantity x (arr_units a)).

(** ** [varconlib/miscellaneous/miscellaneous.py] *)
Module miscellaneous.

(** What a caller may pass for a wavelength. *)
Inductive wavelength_arg : Set :=
  | Float (x : Q)
  | Quantity (q : unyt_quantity).

(** The search loop of [wavelength2index]: [Return None] when it falls
    off the end of the array. *)
Fixpoint index_loop (wavelength : unyt_quantity) (wavelength_array : unyt_array)
    (i n : nat) : result (option Z) :=
  match n with
  | O => Return None
  | S n' =>
      a_i ← array_item wavelength_array (Z.of_nat i);
      found ← q_ge a_i wavelength;
      if (found : bool) then
        a_prev ← array_item wavelength_array (Z.of_nat i - 1);
        d_right ← q_sub a_i wavelength;
        d_left ← q_sub wavelength a_prev;
        closer_left ← q_gt (q_abs d_right) (q_abs d_left);
        if (closer_left : bool) then Return (Some (Z.of_nat i - 1)%Z)
        else Return (Some (Z.of_nat i))
      else index_loop wavelength wavelength_array (S i) n'
  end.

(** The body of [wavelength2index] on a sequence of elements: the test of
    the limits and the search loop. *)
Definition wavelength2index_elements (wavelength : unyt_quantity)
    (wavelength_array : unyt_array) : result (option Z) :=
  first ← array_item wavelength_array 0;
  above_first ← q_lt first wavelength;
  inside ←
    (if (above_first : bool) then
       last ← array_item wavelength_array (-1);
       q_lt wavelength last
     else Return false);
  if negb inside
  then raise RuntimeError "Couldn't find the given wavelength"
  else index_loop wavelength wavelength_array 0
         (length (flat (arr_data wavelength_array))).

(** [wavelength2index(wavelength, wavelength_array, reverse=False)], for a
    [unyt_array].  An array has no method [reverse], so [reverse=True]
    raises [AttributeError].  [wavelength_array[0]] is an element only in
    a 1-D array: a 0-d array cannot be indexed, and in an array of more
    dimensions it is a sub-array, whose comparison with the wavelength is
    an array of booleans; that has a truth value only when it has one
    element, in which case the sub-arrays behave as the elements do. *)
Definition wavelength2index (wavelength : wavelength_arg)
    (wavelength_array : unyt_array) (reverse : bool) : result (option Z) :=
  match wavelength with
  | Float _ => raise AssertionError "Given wavelength is not a unyt_quantity."
  | Quantity wavelength =>
      if reverse
      then raise AttributeError "'unyt_array' object has no attribute 'reverse'"
      else
        match shape (arr_data wavelength_array) with
        | [] => raise IndexError "too many indices for array"
        | [_] => wavelength2index_elements wavelength wavelength_array
        | r :: rest =>
            if (r =? 0)%nat
            then raise IndexError "index 0 is out of bounds for axis 0 with size 0"
            else if (prod_shape rest =? 1)%nat
            then wavelength2index_elements wavelength wavelength_array
            else
              _ ← get_conversion_factor (units wavelength) (arr_units wavelength_array);
              raise ValueError "The truth value of an array is ambiguous"
        end
  end.

(** [shift_wavelength(wavelength, shift_velocity)] *)
Definition shift_wavelength (wavelength : unyt_array)
    (shift_velocity : unyt_quantity) : result unyt_array :=
  let original_units := arr_units wavelength in
  wavelength ← array_to wavelength u.m;
  shift_velocity ← quantity_to shift_velocity u.m_per_s;
  if negb (Qltb (Qabs (value shift_velocity)) u.c_value)
  then raise AssertionError "Given velocity exceeds speed of light!"
  else
    let result :=
      mk_array (conversions.map_ndarray
                  (fun w => (value shift_velocity / u.c_value) * w + w)
                  (arr_data wavelength)) u.m in
    array_to result original_units.

(** [wavelength2velocity(wavelength1, wavelength2)] *)
Definition wavelength2velocity (wavelength1 wavelength2 : unyt_quantity)
    : result unyt_quantity :=
  diff ← q_sub wavelength2 wavelength1;
  total ← q_add wavelength1 wavelength2;
  let result :=
    q_div (q_mul diff (mk_quantity u.c_value u.m_per_s))
          (q_div_scalar total 2) in
  quantity_to result u.m_per_s.


(** [shift_wavelength] together with its two arguments as the call leaves
    them: [convert_to_units] works in place, on the caller's objects. *)
Definition shift_wavelength_inplace (wavelength : unyt_array)
    (shift_velocity : unyt_quantity)
    : unyt_array * unyt_quantity * result unyt_array :=
  let original_units := arr_units wavelength in
  match array_to wavelength u.m with
  | Raise e => (wavelength, shift_velocity, Raise e)
  | Return wavelength =>
      match quantity_to shift_velocity u.m_per_s with
      | Raise e => (wavelength, shift_velocity, Raise e)
      | Return shift_velocity =>
          (wavelength, shift_velocity,
           if negb (Qltb (Qabs (value shift_velocity)) u.c_value)
           then raise AssertionError "Given velocity exceeds speed of light!"
           else
             let result :=
               mk_array (conversions.map_ndarray
                           (fun w => (value shift_velocity / u.c_value) * w + w)
                           (arr_data wavelength)) u.m in
             array_to result original_units)
      end
  end.

(** [velocity2wavelength(velocity_offset, wavelength, unit=None)] *)
Definition velocity2wavelength (velocity_offset wavelength : unyt_quantity)
    (unit : option Unit) : result unyt_quantity :=
  let original_units := units wavelength in
  let result :=
    q_div (q_mul velocity_offset wavelength) (mk_quantity u.c_value u.m_per_s) in
  match unit with
  | None => quantity_to result original_units
  | Some unit => quantity_to result unit
  end.

(** A [datetime.datetime] without time zone; such values are compared
    field by field, the year first. *)
Record datetime : Set := mk_datetime {
  year : Z; month : Z; day : Z;
  hour : Z; minute : Z; second : Z; microsecond : Z
}.

Definition datetime_fields (d : datetime) : list Z :=
  [year d; month d; day d; hour d; minute d; second d; microsecond d].

Fixpoint lex_compare (a b : list Z) : comparison :=
  match a, b with
  | [], [] => Eq
  | [], _ :: _ => Lt
  | _ :: _, [] => Gt
  | x :: a', y :: b' =>
      match (x ?= y)%Z with
      | Eq => lex_compare a' b'
      | c => c
      end
  end.

Definition datetime_compare (a b : datetime) : comparison :=
  lex_compare (datetime_fields a) (datetime_fields b).

Definition datetime_ltb (a b : datetime) : bool :=
  match datetime_compare a b with Lt => true | _ => false end.

Definition datetime_leb (a b : datetime) : bool :=
  match datetime_compare a b with Gt => false | _ => true end.

(** What a caller may pass for a date: a [datetime], a [date], or
    something else. *)
Inductive date_arg : Set :=
  | ADatetime (d : datetime)
  | ADate (year month day : Z)
  | AOther.

(** The search loop of [date2index]: [Return None] when it falls off the
    end of the list. *)
Fixpoint date_loop (date_to_find : datetime) (date_list : list datetime)
    (i n : nat) : result (option nat) :=
  match n with
  | O => Return None
  | S n' =>
      d ← py_index date_list (Z.of_nat i);
      if datetime_ltb date_to_find d then Return (Some i)
      else date_loop date_to_find date_list (S i) n'
  end.

(** [date2index(given_date, date_list)] *)
Definition date2index (given_date : date_arg) (date_list : list datetime)
    : result (option nat) :=
  date_to_find ←
    match given_date with
    | ADatetime d => Return d
    | ADate y m d => Return (mk_datetime y m d 0 0 0 0)
    | AOther => raise RuntimeError "given_date not date or datetime!"
    end;
  first ← py_index date_list 0;
  if datetime_leb date_to_find first then Return (Some 0%nat)
  else
    last ← py_index date_list (-1);
    if datetime_leb last date_to_find then Return None
    else date_loop date_to_find date_list 0 (length date_list).

(** *** Names used in the statements about [wavelength2index] *)

(** A sequence in increasing order. *)
Definition increasing (l : list Q) : Prop :=
  forall i j x y, (i <= j)%nat -> l !! i = Some x -> l !! j = Some y -> x <= y.

(** [idx] is the index of an element of [l] that is closest to [w]. *)
Definition closest_index (l : list Q) (w : Q) (idx : nat) : Prop :=
  exists x, l !! idx = Some x /\
            forall j y, l !! j = Some y -> Qabs (x - w) <= Qabs (y - w).

(** [k] is the index of the first element of [l] not less than [w]. *)
Definition first_not_less (l : list Q) (w : Q) (k : nat) : Prop :=
  (exists x, l !! k = Some x /\ w <= x) /\
  forall j y, (j < k)%nat -> l !! j = Some y -> y < w.

End miscellaneous.

(** ** Python values and the built-ins [int], [len], [str.capitalize] *)

Inductive py_obj : Set :=
  | PNone
  | PInt (z : Z)
  | PFloat (x : Q)
  | PStr (s : string)
  | PQuantity (q : unyt_quantity).

Definition is_space (c : ascii) : bool :=
  let n := nat_of_ascii c in
  (n =? 32)%nat || ((9 <=? n)%nat && (n <=? 13)%nat)
  || ((28 <=? n)%nat && (n <=? 31)%nat).

Definition is_digit (c : ascii) : bool :=
  let n := nat_of_ascii c in (48 <=? n)%nat && (n <=? 57)%nat.

Definition digit_value (c : ascii) : Z := Z.of_nat (nat_of_ascii c - 48).

Fixpoint lstrip (l : list ascii) : list ascii :=
  match l with
  | c :: rest => if is_space c then lstrip rest else l
  | [] => []
  end.

Definition strip (l : list ascii) : list ascii := rev (lstrip (rev (lstrip l))).

(** Decimal digits, single underscores allowed between digits. *)
Fixpoint parse_digits (after_digit : bool) (acc : Z) (l : list ascii) : option Z :=
  match l with
  | [] => if after_digit then Some acc else None
  | c :: rest =>
      if is_digit c then parse_digits true (10 * acc + digit_value c)%Z rest
      else if Ascii.eqb c "_"%char
           then (if after_digit then parse_digits false acc rest else None)
           else None
  end.

(** [int(s)] for a string, base 10. *)
Definition int_of_string (s : string) : option Z :=
  match strip (list_ascii_of_string s) with
  | c :: rest =>
      if Ascii.eqb c "-"%char then Z.opp <$> parse_digits false 0%Z rest
      else if Ascii.eqb c "+"%char then parse_digits false 0%Z rest
      else parse_digits false 0%Z (c :: rest)
  | [] => None
  end.

(** [int(x)] truncates a float toward zero. *)
Definition Qtruncate (x : Q) : Z :=
  if Qle_bool 0 x then Qfloor x else Qceiling x.

Definition py_int (x : py_obj) : result Z :=
  match x with
  | PInt z => Return z
  | PFloat x => Return (Qtruncate x)
  | PQuantity q => Return (Qtruncate (value q))
  | PStr s =>
      match int_of_string s with
      | Some z => Return z
      | None => raise ValueError "invalid literal for int() with base 10"
      end
  | PNone => raise TypeError "int() argument must be a string or a number"
  end.

Definition to_upper (c : ascii) : ascii :=
  let n := nat_of_ascii c in
  if (97 <=? n)%nat && (n <=? 122)%nat then ascii_of_nat (n - 32) else c.

Definition to_lower (c : ascii) : ascii :=
  let n := nat_of_ascii c in
  if (65 <=? n)%nat && (n <=? 90)%nat then ascii_of_nat (n + 32) else c.

Definition capitalize (s : string) : string :=
  match s with
  | EmptyString => EmptyString
  | String c rest =>
      String (to_upper c) (string_of_list_ascii (map to_lower (list_ascii_of_string rest)))
  end.

(** [d[key]] on a dict: [KeyError] when the key is missing. *)
Definition dict_get `{Countable K} {V : Type} (d : gmap K V) (key : K) : result V :=
  match d !! key with
  | Some v => Return v
  | None => raise KeyError "key not found"
  end.

(** ** [utils/transition_line.py] *)
Module transition_line.

Definition elements_items : list (Z * string) :=
  [(1, "H"); (2, "He"); (3, "Li"); (4, "Be"); (5, "B"); (6, "C"); (7, "N");
   (8, "O"); (9, "F"); (10, "Ne"); (11, "Na"); (12, "Mg"); (13, "Al");
   (14, "Si"); (15, "P"); (16, "S"); (17, "Cl"); (18, "Ar"); (19, "K");
   (20, "Ca"); (21, "Sc"); (22, "Ti"); (23, "V"); (24, "Cr"); (25, "Mn");
   (26, "Fe"); (27, "Co"); (28, "Ni"); (29, "Cu"); (30, "Zn"); (31, "Ga");
   (32, "Ge"); (33, "As"); (34, "Se"); (35, "Br"); (36, "Kr"); (37, "Rb");
   (38, "Sr"); (39, "Y"); (40, "Zr"); (41, "Nb"); (42, "Mo"); (43, "Tc");
   (44, "Ru"); (45, "Rh"); (46, "Pd"); (47, "Ag"); (48, "Cd"); (49, "In");
   (50, "Sn"); (51, "Sb"); (52, "Te"); (53, "I"); (54, "Xe"); (55, "Cs");
   (56, "Ba"); (57, "La"); (58, "Ce"); (59, "Pr"); (60, "Nd"); (61, "Pm");
   (62, "Sm"); (63, "Eu"); (64, "Gd"); (65, "Tb"); (66, "Dy"); (67, "Ho");
   (68, "Er"); (69, "Tm"); (70, "Yb"); (71, "Lu"); (72, "Hf"); (73, "Ta");
   (74, "W"); (75, "Re"); (76, "Os"); (77, "Ir"); (78, "Pt"); (79, "Au");
   (80, "Hg"); (81, "Tl"); (82, "Pb"); (83, "Bi"); (84, "Po"); (85, "At");
   (86, "Rn"); (87, "Fr"); (88, "Ra"); (89, "Ac"); (90, "Th"); (91, "Pa");
   (92, "U")]%Z.

Definition roman_numerals_items : list (Z * string) :=
  [(1, "I"); (2, "II"); (3, "III"); (4, "IV"); (5, "V");
   (6, "VI"); (7, "VII"); (8, "VIII"); (9, "IX"); (10, "X")]%Z.

Definition inverse_items (items : list (Z * string)) : list (string * Z) :=
  map (fun kv => (snd kv, fst kv)) items.

(** The two bidicts and their inverses. *)
Definition elements : gmap Z string := list_to_map elements_items.
Definition elements_inv : gmap string Z := list_to_map (inverse_items elements_items).
Definition roman_numerals : gmap Z string := list_to_map roman_numerals_items.
Definition roman_numerals_inv : gmap string Z :=
  list_to_map (inverse_items roman_numerals_items).

(** A [Transition] object.  The class defines no [__eq__], so [==] on
    transitions is object identity: [obj_id] stands for [id(self)].
    [atomicSymbol] is not set on every path of [__init__]. *)
Record Transition : Set := mk_Transition {
  obj_id : nat;
  wavelength : unyt_quantity;
  atomicNumber : Z;
  atomicSymbol : option string;
  ionizationState : Z;
  lowerEnergy : option Q;
  lowerJ : option Q;
  lowerOrbital : option string;
  higherEnergy : option Q;
  higherJ : option Q;
  higherOrbital : option string
}.

(** [wavelength.to(u.nm)]: only a quantity has the method [to]. *)
Definition wavelength_to_nm (wavelength : py_obj) : result unyt_quantity :=
  match wavelength with
  | PQuantity q => quantity_to q u.nm
  | _ => raise AttributeError "object has no attribute 'to'"
  end.

(** The part of [__init__] that sets [atomicNumber] and [atomicSymbol]. *)
Definition init_element (element : py_obj) : result (Z * option string) :=
  match element with
  | PStr s =>
      if (String.length s <? 3)%nat then
        try_except
          (atomicNumber ← py_int element;
           atomicSymbol ← dict_get elements atomicNumber;
           Return (atomicNumber, Some atomicSymbol))
          ValueError
          (fun _ =>
             let cap_string := capitalize s in
             atomicNumber ←
               try_except (dict_get elements_inv cap_string) KeyError
                 (fun e => Raise e);
             Return (atomicNumber, Some cap_string))
      else
        atomicNumber ←
          try_except (py_int element) ValueError
            (fun _ => raise TypeError
               "'element' parameter must be a valid integer atomic number or atomic symbol (e.g., 'Fe').");
        Return (atomicNumber, None)
  | PInt z =>
      if negb ((0 <? z)%Z && (z <? 119)%Z)
      then raise AssertionError "Element number not in range [1, 118]!"
      else
        atomicSymbol ← dict_get elements z;
        Return (z, Some atomicSymbol)
  | _ =>
      atomicNumber ←
        try_except (py_int element) ValueError
          (fun _ => raise TypeError
             "'element' parameter must be a valid integer atomic number or atomic symbol (e.g., 'Fe').");
      Return (atomicNumber, None)
  end.

(** The part of [__init__] that sets [ionizationState]. *)
Definition init_ionizationState (ionizationState : py_obj) : result Z :=
  try_except (py_int ionizationState) ValueError
    (fun _ =>
       match ionizationState with
       | PStr s =>
           try_except (dict_get roman_numerals_inv s) KeyError
             (fun _ => raise ValueError "Ionization state invalid!")
       | _ => raise ValueError "Ionization state invalid!"
       end).

(** [Transition.__init__(self, wavelength, element, ionizationState)];
    [self_id] is the identity of the new object. *)
Definition Transition_init (self_id : nat)
    (wavelength element ionizationState : py_obj) : result Transition :=
  wavelength ← try_except (wavelength_to_nm wavelength) AttributeError
                 (fun e => Raise e);
  '(atomicNumber, atomicSymbol) ← init_element element;
  ionizationState ← init_ionizationState ionizationState;
  Return (mk_Transition self_id wavelength atomicNumber atomicSymbol
            ionizationState None None None None None None).

(** [Transition.__lt__] and [Transition.__gt__] compare the values. *)
Definition Transition_lt (self other : Transition) : bool :=
  if Qltb (value (wavelength self)) (value (wavelength other)) then true else false.

Definition Transition_gt (self other : Transition) : bool :=
  if Qltb (value (wavelength other)) (value (wavelength self)) then true else false.

(** The default [==] of Python objects. *)
Definition Transition_eq (self other : Transition) : bool :=
  (obj_id self =? obj_id other)%nat.

(** The property [atomicSpecies]: the f-string reads [self.atomicSymbol]
    first, then [roman_numerals[self.ionizationState]]. *)
Definition atomicSpecies (self : Transition) : result string :=
  match atomicSymbol self with
  | None => raise AttributeError "'Transition' object has no attribute 'atomicSymbol'"
  | Some atomicSymbol =>
      numeral ← dict_get roman_numerals (ionizationState self);
      Return (atomicSymbol +:+ " " +:+ numeral)
  end.

(** The property [wavenumber] *)
Definition wavenumber (self : Transition) : result unyt_quantity :=
  w ← quantity_to (wavelength self) u.cm;
  Return (q_inv w).

(** What the setter of [wavenumber] is given: a [unyt_quantity], or a
    plain number (a float or an int). *)
Inductive wavenumber_arg : Set :=
  | WnQuantity (q : unyt_quantity)
  | WnNumber (x : Q).

(** [self.wavelength = w] *)
Definition set_wavelength (self : Transition) (w : unyt_quantity) : Transition :=
  mk_Transition (obj_id self) w (atomicNumber self) (atomicSymbol self)
    (ionizationState self) (lowerEnergy self) (lowerJ self) (lowerOrbital self)
    (higherEnergy self) (higherJ self) (higherOrbital self).

(** The setter of [wavenumber] *)
Definition wavenumber_setter (self : Transition) (new_wavenumber : wavenumber_arg)
    : result Transition :=
  match new_wavenumber with
  | WnQuantity q =>
      if unit_eqb (units q) (unit_pow u.cm (-1))
      then Return (set_wavelength self (q_inv q))
      else raise ValueError "Units for given wavenumber are {}!"
  | WnNumber x =>
      Return (set_wavelength self (q_inv (mk_quantity x (unit_pow u.cm (-1)))))
  end.

(** *** Names used in the statements about the tables *)

Definition is_letter (c : ascii) : bool :=
  let n := nat_of_ascii c in
  ((65 <=? n)%nat && (n <=? 90)%nat) || ((97 <=? n)%nat && (n <=? 122)%nat).

(** What holds of each entry of [elements]: the number is in 1..92, the
    symbol is one or two characters, capitalized, starting with a letter,
    and the number written in decimal is read back by [int]. *)
Definition element_entry_ok (kv : Z * string) : bool :=
  (1 <=? fst kv)%Z && (fst kv <=? 92)%Z
  && (0 <? String.length (snd kv))%nat && (String.length (snd kv) <? 3)%nat
  && bool_decide (capitalize (snd kv) = snd kv)
  && match snd kv with
     | String c _ => is_letter c
     | EmptyString => false
     end
  && bool_decide (int_of_string (pretty (fst kv)) = Some (fst kv))
  && (String.length (pretty (fst kv)) <? 3)%nat.

End transition_line.

(** ** [varconlib/transition_pair/transition_pair.py] *)
Module transition_pair.
Import transition_line.

Record TransitionPair : Set := mk_TransitionPair {
  _lowerEnergyTransition : Transition;
  _higherEnergyTransition : Transition;
  ordersToMeasureIn : option (list Z)
}.

(** [TransitionPair.__init__(self, transition1, transition2)] *)
Definition TransitionPair_init (transition1 transition2 : Transition)
    : result TransitionPair :=
  if Transition_gt transition1 transition2 then
    Return (mk_TransitionPair transition1 transition2 None)
  else if Transition_lt transition1 transition2 then
    Return (mk_TransitionPair transition2 transition1 None)
  else
    raise SameWavelengthsError
      "Tried to make pair with two transitions of same wavelength!".

(** The property [velocitySeparation]; its value is computed at the first
    access and kept. *)
Definition velocitySeparation (self : TransitionPair) : result unyt_quantity :=
  miscellaneous.wavelength2velocity
    (wavelength (_higherEnergyTransition self))
    (wavelength (_lowerEnergyTransition self)).

(** [TransitionPair.__eq__] *)
Definition TransitionPair_eq (self other : TransitionPair) : bool :=
  if Transition_eq (_lowerEnergyTransition self) (_lowerEnergyTransition other)
     && Transition_eq (_higherEnergyTransition self) (_higherEnergyTransition other)
  then true else false.

(** [TransitionPair.__gt__] *)
Definition TransitionPair_gt (self other : TransitionPair) : bool :=
  if TransitionPair_eq self other then false
  else if Transition_gt (_higherEnergyTransition self) (_higherEnergyTransition other)
  then true
  else if Transition_eq (_higherEnergyTransition self) (_higherEnergyTransition other)
  then
    if Transition_gt (_lowerEnergyTransition self) (_lowerEnergyTransition other)
    then true else false
  else false.

(** [TransitionPair.__lt__] *)
Definition TransitionPair_lt (self other : TransitionPair) : bool :=
  if TransitionPair_eq self other then false
  else if Transition_lt (_higherEnergyTransition self) (_higherEnergyTransition other)
  then true
  else if Transition_eq (_higherEnergyTransition self) (_higherEnergyTransition other)
  then
    if Transition_lt (_lowerEnergyTransition self) (_lowerEnergyTransition other)
    then true else false
  else false.

(** *** Names used in the statements about the order of pairs *)

(** Python objects: one identity, one object. *)
Definition objects_distinct (ts : list Transition) : Prop :=
  forall a b, a ∈ ts -> b ∈ ts -> obj_id a = obj_id b -> a = b.

Definition members (p : TransitionPair) : list Transition :=
  [_higherEnergyTransition p; _lowerEnergyTransition p].

End transition_pair.

(** ** 2-D indexing of arrays *)

(** [a[i, j] += x].  With more than two dimensions the update is broadcast
    over the sub-array [a[i, j]]. *)
Definition add_at (a : ndarray) (i j : nat) (x : Q) : result ndarray :=
  match shape a with
  | r :: c :: rest =>
      if (i <? r)%nat && (j <? c)%nat then
        let m := prod_shape rest in
        let start := ((i * c + j) * m)%nat in
        Return (mk_ndarray (shape a)
                  (imap (fun k v => if (start <=? k)%nat && (k <? start + m)%nat
                                    then v + x else v) (flat a)))
      else raise IndexError "index is out of bounds"
  | _ => raise IndexError "too many indices for array"
  end.

(** [a[i, j]] for a 2-D array with units; [j] may be negative.  With more
    dimensions the item is an array, which the comparisons below reject. *)
Definition array_item2 (a : unyt_array) (i : nat) (j : Z) : result unyt_quantity :=
  match shape (arr_data a) with
  | [r; c] =>
      let j' := if (j <? 0)%Z then (j + Z.of_nat c)%Z else j in
      if (i <? r)%nat && (0 <=? j')%Z && (j' <? Z.of_nat c)%Z then
        x ← py_index (flat (arr_data a)) (Z.of_nat (i * c) + j');
        Return (mk_quantity x (arr_units a))
      else raise IndexError "index is out of bounds"
  | _ :: _ :: _ => raise ValueError "The truth value of an array is ambiguous"
  | _ => raise IndexError "too many indices for array"
  end.

(** [a[i]] for a 2-D array with units: row [i], a 1-D array. *)
Definition array_row (a : unyt_array) (i : nat) : result unyt_array :=
  match shape (arr_data a) with
  | [r; c] =>
      if (i <? r)%nat then
        Return (mk_array (mk_ndarray [c] (take c (drop (i * c) (flat (arr_data a)))))
                         (arr_units a))
      else raise IndexError "index is out of bounds"
  | _ => raise IndexError "index is out of bounds"
  end.

(** ** [utils/obs2d.py] *)
Module obs2d.

(** The attributes of a [HARPSFile2DScience] object used here; the header
    holds the numerical cards. *)
Record HARPSFile2DScience : Type := mk_obs {
  _header : gmap string Q;
  _rawFluxArray : ndarray;
  _wavelengthArray : option unyt_array;
  _vacuumArray : option unyt_array;
  _barycentricArray : option unyt_array;
  _BERV : unyt_quantity
}.

Definition set_wavelengthArray (self : HARPSFile2DScience) (a : unyt_array) :=
  mk_obs (_header self) (_rawFluxArray self) (Some a) (_vacuumArray self)
         (_barycentricArray self) (_BERV self).

Definition set_vacuumArray (self : HARPSFile2DScience) (a : unyt_array) :=
  mk_obs (_header self) (_rawFluxArray self) (_wavelengthArray self) (Some a)
         (_barycentricArray self) (_BERV self).

Definition set_barycentricArray (self : HARPSFile2DScience) (a : unyt_array) :=
  mk_obs (_header self) (_rawFluxArray self) (_wavelengthArray self)
         (_vacuumArray self) (Some a) (_BERV self).

Definition set_BERV (self : HARPSFile2DScience) (v : unyt_quantity) :=
  mk_obs (_header self) (_rawFluxArray self) (_wavelengthArray self)
         (_vacuumArray self) (_barycentricArray self) v.

(** ['ESO DRS CAL TH COEFF LL{0}'.format(k)] *)
Definition coeff_key (k : nat) : string :=
  "ESO DRS CAL TH COEFF LL" +:+ pretty k.

(** [getWavelengthArray], for [n_orders] orders of [n_pixels] pixels. *)
Definition getWavelengthArray_dims (n_orders n_pixels : nat)
    (self : HARPSFile2DScience) : result unyt_array :=
  let source_array := _rawFluxArray self in
  let wavelength_array := zeros (shape source_array) in
  wavelength_array ←
    for_range 0 n_orders (fun order wavelength_array =>
      for_range 0 4 (fun i wavelength_array =>
        let coeff := coeff_key (4 * order + i) in
        coeff_val ← dict_get (_header self) coeff;
        for_range 0 n_pixels (fun pixel wavelength_array =>
          add_at wavelength_array order pixel
            (coeff_val * inject_Z (Z.of_nat pixel ^ Z.of_nat i)))
          wavelength_array)
        wavelength_array)
      wavelength_array;
  Return (mk_array wavelength_array u.angstrom).

(** [getWavelengthArray(self)]: 72 orders of 4096 pixels. *)
Definition getWavelengthArray (self : HARPSFile2DScience) : result unyt_array :=
  getWavelengthArray_dims 72 4096 self.

(** Methods that assign attributes return the object with their result. *)
Definition method (A : Type) : Type :=
  HARPSFile2DScience -> HARPSFile2DScience * result A.

Definition m_ret {A : Type} (a : A) : method A := fun self => (self, Return a).

Definition m_bind {A B : Type} (c : method A) (k : A -> method B) : method B :=
  fun self =>
    match c self with
    | (self', Return a) => k a self'
    | (self', Raise e) => (self', Raise e)
    end.

Definition m_lift {A : Type} (r : result A) : method A := fun self => (self, r).

(** [getVacuumArray(self)].  [air2vacESO] is given the object's own
    wavelength array, and may convert it in place. *)
Definition getVacuumArray : method unyt_array :=
  m_bind
    (fun self =>
       match _wavelengthArray self with
       | None =>
           match getWavelengthArray self with
           | Return w => (set_wavelengthArray self w, Return w)
           | Raise e => (self, Raise e)
           end
       | Some w => (self, Return w)
       end)
    (fun w => fun self =>
       let '(w', vacuumArray) := conversions.air2vacESO_inplace w in
       (set_wavelengthArray self w', vacuumArray)).

(** [getBarycentricArray(self)].  [shiftWavelengthArray] passes the
    object's own vacuum array and BERV to [shift_wavelength], which
    converts both in place. *)
Definition getBarycentricArray : method unyt_array :=
  m_bind
    (fun self =>
       match _vacuumArray self with
       | None =>
           match getVacuumArray self with
           | (self', Return v) => (set_vacuumArray self' v, Return v)
           | (self', Raise e) => (self', Raise e)
           end
       | Some v => (self, Return v)
       end)
    (fun v => fun self =>
       let '(v', shift_velocity, barycentricArray) :=
         miscellaneous.shift_wavelength_inplace v (_BERV self) in
       (set_BERV (set_vacuumArray self v') shift_velocity, barycentricArray)).

(** What [findWavelength] returns: an int, a tuple of ints, or [None]. *)
Inductive find_result : Set :=
  | FInt (z : Z)
  | FTuple (orders : list nat)
  | FNone.

(** [order_min <= wavelength_to_find <= order_max] *)
Definition between (lo w hi : unyt_quantity) : result bool :=
  b ← q_le lo w;
  if (b : bool) then q_le w hi else Return false.

(** The loop over the orders of [findWavelength]. *)
Definition find_orders (wavelengthArray : option unyt_array)
    (wavelength_to_find : unyt_quantity) : result (list nat) :=
  for_range 0 72 (fun order orders_wavelength_found_in =>
    match wavelengthArray with
    | None => raise TypeError "'NoneType' object is not subscriptable"
    | Some wl =>
        order_min ← array_item2 wl order 0;
        order_max ← array_item2 wl order (-1);
        found ← between order_min wavelength_to_find order_max;
        if (found : bool)
        then Return (orders_wavelength_found_in ++ [order])
        else Return orders_wavelength_found_in
    end) [].

(** [orders_wavelength_found_in == 2]: a list is never equal to an int. *)
Definition list_eq_int (l : list nat) (n : Z) : bool := false.

(** [len(b)] for a bool [b]. *)
Definition len_of_bool (b : bool) : result nat :=
  raise TypeError "object of type 'bool' has no len()".

(** [abs(index - 2047.5)] *)
Definition distance_to_center (index : option Z) : result Q :=
  match index with
  | Some i => Return (Qabs (inject_Z i - 2047.5))
  | None => raise TypeError "unsupported operand type(s) for -: 'NoneType' and 'float'"
  end.

(** The branch [elif len(orders_wavelength_found_in == 2):] of
    [findWavelength]. *)
Definition closest_of_two (barycentricArray : unyt_array)
    (wavelength_to_find : unyt_quantity)
    (orders_wavelength_found_in : list nat) : result find_result :=
  n ← len_of_bool (list_eq_int orders_wavelength_found_in 2);
  if (0 <? n)%nat then
    match orders_wavelength_found_in with
    | [order1; order2] =>
        row1 ← array_row barycentricArray order1;
        index1 ← miscellaneous.wavelength2index
                   (miscellaneous.Quantity wavelength_to_find) row1 false;
        row2 ← array_row barycentricArray order2;
        index2 ← miscellaneous.wavelength2index
                   (miscellaneous.Quantity wavelength_to_find) row2 false;
        d1 ← distance_to_center index1;
        d2 ← distance_to_center index2;
        if Qltb d2 d1
        then Return (match index1 with Some i => FInt i | None => FNone end)
        else Return (match index2 with Some i => FInt i | None => FNone end)
    | _ => raise ValueError "not enough values to unpack"
    end
  else Return FNone.

(** [if self._barycentricArray is None:
       self._barycentricArray = self.getBarycentricArray()] *)
Definition cached_barycentricArray : method unyt_array :=
  fun self =>
    match _barycentricArray self with
    | None =>
        match getBarycentricArray self with
        | (self', Return b) => (set_barycentricArray self' b, Return b)
        | (self', Raise e) => (self', Raise e)
        end
    | Some b => (self, Return b)
    end.

(** The body of [findWavelength] once the barycentric array is there. *)
Definition findWavelength_search (barycentricArray : unyt_array)
    (wavelengthArray : option unyt_array) (wavelength_to_find : unyt_quantity)
    (closest_only : bool) : result find_result :=
  array_min ← array_item2 barycentricArray 0 0;
  array_max ← array_item2 barycentricArray 71 (-1);
  inside ← between array_min wavelength_to_find array_max;
  if negb inside
  then raise AssertionError "Given wavelength not found within array limits!"
  else
    orders_wavelength_found_in ← find_orders wavelengthArray wavelength_to_find;
    if negb (length orders_wavelength_found_in <? 3)%nat
    then raise AssertionError "Wavelength found in more than two orders!"
    else if closest_only then
      match orders_wavelength_found_in with
      | [order] => Return (FInt (Z.of_nat order))
      | _ => closest_of_two barycentricArray wavelength_to_find
               orders_wavelength_found_in
      end
    else Return (FTuple orders_wavelength_found_in).

(** [findWavelength(self, wavelength, closest_only=True)] *)
Definition findWavelength (wavelength : py_obj) (closest_only : bool)
    : method find_result :=
  m_bind (m_lift (match wavelength with
                  | PQuantity q => quantity_to q u.angstrom
                  | _ => raise AttributeError "object has no attribute 'to'"
                  end))
    (fun wavelength_to_find =>
  m_bind cached_barycentricArray
    (fun barycentricArray => fun self =>
       (self, findWavelength_search barycentricArray (_wavelengthArray self)
                wavelength_to_find closest_only))).

(** *** Names used in the statements about [findWavelength] *)

(** Order [order] of the wavelength array contains [w], by the test of the
    loop over the orders. *)
Definition order_contains (wl : unyt_array) (w : unyt_quantity) (order : nat)
    : Prop :=
  exists order_min order_max,
    array_item2 wl order 0 = Return order_min /\
    array_item2 wl order (-1) = Return order_max /\
    between order_min w order_max = Return true.

(** *** Names used in the statements about [getWavelengthArray] *)

(** The polynomial of an order, up to the term of degree [terms - 1], in
    the order in which the loop adds the terms up. *)
Definition wavelength_poly (coeff : nat -> Q) (order pixel terms : nat) : Q :=
  fold_left (fun acc i => acc + coeff (4 * order + i)%nat
                                * inject_Z (Z.of_nat pixel ^ Z.of_nat i))
            (seq 0 terms) 0.

(** A 2-D array of [r] rows and [c] columns with the entries [f]. *)
Definition has_entries (a : ndarray) (r c : nat) (f : nat -> nat -> Q) : Prop :=
  shape a = [r; c] /\ length (flat a) = (r * c)%nat /\
  forall o p, (o < r)%nat -> (p < c)%nat -> flat a !! (o * c + p)%nat = Some (f o p).

(** The entries while the loops run: the orders below [od] are complete,
    order [od] holds the terms below [id], and the term [id] for the pixels
    below [pd]. *)
Definition entries_at (coeff : nat -> Q) (n_pixels od id pd : nat)
    (o p : nat) : Q :=
  if (p <? n_pixels)%nat then
    if (o <? od)%nat then wavelength_poly coeff o p 4
    else if (o =? od)%nat then
      if (p <? pd)%nat then wavelength_poly coeff o p (S id)
      else wavelength_poly coeff o p id
    else 0
  else 0.


(** *** A small observation for examples

    72 orders of 4 pixels; order [o] runs from [4000 + 40 o] to
    [4060 + 40 o] Angstroms, so that neighbouring orders overlap by 20
    Angstroms.  The barycentric array is there already, as after an
    earlier call. *)
Definition example_wavelengths : unyt_array :=
  mk_array
    (mk_ndarray [72; 4]%nat
       (flat_map (fun o => let start := 4000 + 40 * inject_Z (Z.of_nat o) in
                           [start; start + 20; start + 40; start + 60])
                 (seq 0 72)))
    u.angstrom.

Definition example_observation : HARPSFile2DScience :=
  mk_obs ∅ (zeros [72; 4]%nat) (Some example_wavelengths) None
         (Some example_wavelengths) (mk_quantity 0 u.km_per_s).

End obs2d.


(** ** Polynomials, for the bound on the Morton round trip *)

(** Polynomials with integer coefficients, lowest degree first. *)
Fixpoint zpeval (p : list Z) (x : Q) : Q :=
  match p with
  | [] => 0
  | c :: p' => inject_Z c + x * zpeval p' x
  end.

Fixpoint zpadd (p q : list Z) : list Z :=
  match p, q with
  | [], _ => q
  | _, [] => p
  | a :: p', b :: q' => (a + b)%Z :: zpadd p' q'
  end.

Definition zpscale (c : Z) (p : list Z) : list Z := map (Z.mul c) p.

Fixpoint zpmul (p q : list Z) : list Z :=
  match p with
  | [] => []
  | a :: p' => zpadd (zpscale a q) (0%Z :: zpmul p' q)
  end.

Definition zpsub (p q : list Z) : list Z := zpadd p (zpscale (-1) q).

Fixpoint zppow (p : list Z) (n : nat) : list Z :=
  match n with
  | O => [1%Z]
  | S n' => zpmul p (zppow p n')
  end.

Fixpoint qpow (x : Q) (n : nat) : Q :=
  match n with
  | O => 1
  | S n' => x * qpow x n'
  end.

(** The sum of [c_j X^j Y^(d-j)] over the coefficients [c_j] of [p], of degree [d]. *)
Fixpoint zhom (p X Y : list Z) : list Z :=
  match p with
  | [] => []
  | c :: p' => zpadd (zpscale c (zppow Y (length p'))) (zpmul X (zhom p' X Y))
  end.

Definition positive_coefficients (p : list Z) : bool :=
  match p with
  | [] => false
  | c :: p' => (0 <? c)%Z && forallb (Z.leb 0) p'
  end.

(** Sufficient for [p] to be positive on the interval from [a / d] to [b / d],
    the upper end excluded. *)
Definition positive_on (p : list Z) (a b d : Z) : bool :=
  positive_coefficients (zhom p [a; b] [d; d]).


(** [130 - u] and [10 * (38.9 - u)], for the squared wavenumber [u]. *)
Definition morton_d1 : list Z := [130; -1]%Z.
Definition morton_d2 : list Z := [389; -10]%Z.
(** [10 * D1], [D1] the product of the two. *)
Definition morton_D1 : list Z := zpmul morton_d1 morton_d2.
(** [10^11 * N1], where the index of [vac2airMorton00] is [N1 / D1]. *)
Definition morton_N1 : list Z :=
  zpadd (zpadd (zpscale 10000834254 morton_D1) (zpscale 240614700 morton_d2)) (zpscale 15998000 morton_d1).
(** [10^22 * (p * D1^2 - u * N1^2)] for the two poles [p] of
    [air2vacMortonIAU]: the pole minus the squared wavenumber in air, times
    [D1^2]. *)
Definition morton_F1 : list Z :=
  zpsub (zpscale (1301065924522 * 10 ^ 10) (zpmul morton_D1 morton_D1)) (zpmul [0; 1]%Z (zpmul morton_N1 morton_N1)).
Definition morton_F2 : list Z :=
  zpsub (zpscale (3892568793293 * 10 ^ 9) (zpmul morton_D1 morton_D1)) (zpmul [0; 1]%Z (zpmul morton_N1 morton_N1)).
(** [10^61 * N2], where the index of [air2vacMortonIAU] at the air
    wavelength is [N2 / (F1 * F2)]. *)
Definition morton_N2 : list Z :=
  zpadd (zpadd (zpscale 100008336624212083 (zpmul morton_F1 morton_F2))
               (zpscale (2408926869968 * 10 ^ 23) (zpmul (zpmul morton_D1 morton_D1) morton_F2)))
        (zpscale (1599740894897 * 10 ^ 21) (zpmul (zpmul morton_D1 morton_D1) morton_F1)).
(** The round trip changes the wavelength [x] by [x * Num / Den]; these are
    [10^62 * Num] and [10^55 * Den]. *)
Definition morton_Num : list Z :=
  zpsub (zpmul morton_N2 morton_D1) (zpscale (10 ^ 7) (zpmul morton_N1 (zpmul morton_F1 morton_F2))).
Definition morton_Den : list Z := zpmul (zpmul morton_F1 morton_F2) morton_N1.
(** [e * 10^-9 * Den - xmax * Num] and [e * 10^-9 * Den + xmax * Num], times
    [10^64]: both positive when [xmax * |Num / Den|] is below [e * 10^-9]. *)
Definition morton_above (e xmax : Z) : list Z := zpsub (zpscale e morton_Den) (zpscale (100 * xmax) morton_Num).
Definition morton_below (e xmax : Z) : list Z := zpadd (zpscale e morton_Den) (zpscale (100 * xmax) morton_Num).

(** * Properties *)

(** ** Comparisons and the error monad *)

Lemma Qltb_true (x y : Q) : Qltb x y = true <-> x < y.
Proof.
  unfold Qltb. rewrite negb_true_iff.
  split; intros H.
  - apply Qnot_le_lt. intros Hle. apply Qle_bool_iff in Hle. congruence.
  - destruct (Qle_bool y x) eqn:E; [|reflexivity].
    apply Qle_bool_iff in E. exfalso. apply (Qlt_not_le _ _ H E).
Qed.

Lemma Qltb_false (x y : Q) : Qltb x y = false <-> y <= x.
Proof.
  unfold Qltb. rewrite negb_false_iff. apply Qle_bool_iff.
Qed.

Lemma Qleb_true (x y : Q) : Qleb x y = true <-> x <= y.
Proof. apply Qle_bool_iff. Qed.

Lemma Qleb_false (x y : Q) : Qleb x y = false <-> y < x.
Proof.
  unfold Qleb. split; intros H.
  - apply Qnot_le_lt. intros Hle. apply Qle_bool_iff in Hle. congruence.
  - destruct (Qle_bool x y) eqn:E; [|reflexivity].
    apply Qle_bool_iff in E. exfalso. apply (Qlt_not_le _ _ H E).
Qed.

Lemma bind_Return {A B : Type} (r : result A) (k : A -> result B) (b : B) :
  (r ≫= k) = Return b <-> exists a, r = Return a /\ k a = Return b.
Proof.
  destruct r as [a|e]; simpl; split.
  - intros H. exists a. split; [reflexivity | exact H].
  - intros (a' & Ha & Hk). injection Ha as ->. exact Hk.
  - intros H. discriminate H.
  - intros (a' & Ha & _). discriminate Ha.
Qed.

Lemma try_except_caught {A : Type} (c : exn_class) (msg : string)
    (handler : exn -> result A) :
  try_except (raise c msg) c handler = handler (mk_exn c msg).
Proof.
  unfold try_except, raise. cbn [exn_cls].
  destruct (decide (c = c)) as [_|Hne]; [reflexivity | contradiction].
Qed.

Lemma try_except_Return {A : Type} (a : A) (c : exn_class)
    (handler : exn -> result A) :
  try_except (Return a) c handler = Return a.
Proof. reflexivity. Qed.

(** ** The loop of [air2vacESO] *)
Section Air2vacLoop.
Import conversions.

Variable air : Q.

Lemma loop_init_state : loop_init air = state_at air 0.
Proof. reflexivity. Qed.

Lemma state_at_S (k : nat) :
  mk_loop (air * air_indexEdlen53 (new_wavelength (state_at air k)))
          (new_wavelength (state_at air k)) (S (iterations (state_at air k)))
          (past_iterations (state_at air k)
             ++ [air * air_indexEdlen53 (new_wavelength (state_at air k))])
  = state_at air (S k).
Proof.
  unfold state_at; cbn [new_wavelength iterations past_iterations].
  f_equal. rewrite (seq_S (S k) 0), map_app. reflexivity.
Qed.

Lemma first_converged_S (k n : nat) :
  first_converged air k (S n) =
    if Qltb tolerance (Qabs (previous air k - iterate air k))
    then first_converged air (S k) n
    else Some k.
Proof. reflexivity. Qed.

(** One pass of the loop from [state_at air k]. *)
Lemma while_loop_S (fuel k : nat) :
  while_loop (S fuel) air (state_at air k) =
    if Qltb tolerance (Qabs (previous air k - iterate air k)) then
      if (num_iter <? S k)%nat
      then raise RuntimeError "Max number of iterations exceeded!"
      else while_loop fuel air (state_at air (S k))
    else Return (state_at air k).
Proof.
  cbn [while_loop].
  change (old_wavelength (state_at air k)) with (previous air k).
  change (new_wavelength (state_at air k)) with (iterate air k).
  destruct (Qltb tolerance _); [|reflexivity].
  change (iterations (state_at air k)) with k.
  destruct (num_iter <? S k)%nat; [reflexivity|].
  f_equal. apply state_at_S.
Qed.

(** Started in [state_at air k] with just enough fuel to reach the cap, the
    loop stops at the first converged index, or raises when there is none
    up to [num_iter]. *)
Lemma while_loop_from (f k : nat) :
  (f + k = num_iter)%nat ->
  while_loop (S f) air (state_at air k) =
    match first_converged air k (S f) with
    | Some j => Return (state_at air j)
    | None => raise RuntimeError "Max number of iterations exceeded!"
    end.
Proof.
  revert k. induction f as [|f IH]; intros k Hk.
  - rewrite while_loop_S, first_converged_S.
    destruct (Qltb tolerance (Qabs (previous air k - iterate air k))); [|reflexivity].
    replace (num_iter <? S k)%nat with true; [reflexivity|].
    symmetry. apply Nat.ltb_lt. lia.
  - rewrite while_loop_S, first_converged_S.
    destruct (Qltb tolerance (Qabs (previous air k - iterate air k))); [|reflexivity].
    replace (num_iter <? S k)%nat with false.
    + apply IH. lia.
    + symmetry. apply Nat.ltb_ge. lia.
Qed.

Lemma while_loop_spec :
  while_loop (S num_iter) air (loop_init air) =
    match first_converged air 0 (S num_iter) with
    | Some j => Return (state_at air j)
    | None => raise RuntimeError "Max number of iterations exceeded!"
    end.
Proof. rewrite loop_init_state. apply while_loop_from. lia. Qed.

Lemma first_converged_Some (k n j : nat) :
  first_converged air k n = Some j ->
  (k <= j < k + n)%nat /\ converged air j /\
  forall i, (k <= i < j)%nat -> ~ converged air i.
Proof.
  revert k. induction n as [|n IH]; intros k H; [discriminate|].
  cbn [first_converged] in H.
  destruct (Qltb tolerance (Qabs (previous air k - iterate air k))) eqn:E.
  - apply IH in H as (Hj & Hc & Hn).
    split; [lia|]. split; [exact Hc|].
    intros i Hi. destruct (decide (i = k)) as [->|Hne].
    + apply Qltb_true in E. unfold converged. apply Qlt_not_le, E.
    + apply Hn. lia.
  - injection H as <-. split; [lia|]. split.
    + apply Qltb_false in E. exact E.
    + intros i Hi. lia.
Qed.

Lemma first_converged_None (k n : nat) :
  first_converged air k n = None <->
  forall i, (k <= i < k + n)%nat -> ~ converged air i.
Proof.
  revert k. induction n as [|n IH]; intros k; cbn [first_converged].
  - split; [intros _ i Hi; lia | reflexivity].
  - destruct (Qltb tolerance (Qabs (previous air k - iterate air k))) eqn:E.
    + rewrite IH. split; intros H i Hi.
      * destruct (decide (i = k)) as [->|Hne].
        -- apply Qltb_true in E. unfold converged. apply Qlt_not_le, E.
        -- apply H. lia.
      * apply H. lia.
    + split; [discriminate|]. intros H. exfalso.
      apply (H k); [lia|]. apply Qltb_false in E. exact E.
Qed.

(** The fuel is never used up: more of it changes nothing. *)
Lemma while_loop_fuel (extra : nat) :
  while_loop (S num_iter + extra) air (loop_init air)
  = while_loop (S num_iter) air (loop_init air).
Proof.
  rewrite loop_init_state.
  assert (G : forall f k, (f + k = num_iter)%nat ->
            while_loop (S f + extra) air (state_at air k)
            = while_loop (S f) air (state_at air k)).
  { induction f as [|f IH]; intros k Hk.
    - change (S 0 + extra)%nat with (S extra).
      rewrite (while_loop_S extra), (while_loop_S 0).
      destruct (Qltb tolerance _); [|reflexivity].
      replace (num_iter <? S k)%nat with true; [reflexivity|].
      symmetry. apply Nat.ltb_lt. lia.
    - change (S (S f) + extra)%nat with (S (S f + extra)).
      rewrite (while_loop_S (S f + extra)), (while_loop_S (S f)).
      destruct (Qltb tolerance _); [|reflexivity].
      destruct (num_iter <? S k)%nat; [reflexivity|].
      apply (IH (S k)). lia. }
  apply (G num_iter 0%nat). lia.
Qed.

End Air2vacLoop.

(** ** [air2vacESO] on one element and on arrays *)
Section Air2vacArray.
Import conversions.

Lemma air2vac_element_spec (air : Q) :
  air2vac_element air =
    match first_converged air 0 (S num_iter) with
    | Some j => Return (iterate air j)
    | None => Raise max_iter_exn
    end.
Proof.
  unfold air2vac_element. rewrite while_loop_spec.
  destruct (first_converged air 0 (S num_iter)); reflexivity.
Qed.

(** An element is returned exactly when its iteration converges within
    [num_iter] passes; the value is the first converged iterate. *)
Lemma air2vac_element_Return (air v : Q) :
  air2vac_element air = Return v <->
  exists j, (j <= num_iter)%nat /\ converged air j /\
            (forall i, (i < j)%nat -> ~ converged air i) /\ v = iterate air j.
Proof.
  rewrite air2vac_element_spec. split.
  - destruct (first_converged air 0 (S num_iter)) as [j|] eqn:E; [|discriminate].
    intros [= <-]. apply first_converged_Some in E as (Hj & Hc & Hn).
    exists j. split; [lia|]. split; [exact Hc|]. split; [|reflexivity].
    intros i Hi. apply Hn. lia.
  - intros (j & Hj & Hc & Hn & ->).
    destruct (first_converged air 0 (S num_iter)) as [j'|] eqn:E.
    + apply first_converged_Some in E as (Hj' & Hc' & Hn').
      destruct (Nat.lt_trichotomy j j') as [Hlt|[->|Hgt]]; [|reflexivity|].
      * exfalso. apply (Hn' j); [lia | exact Hc].
      * exfalso. apply (Hn j'); [lia | exact Hc'].
    + exfalso. rewrite first_converged_None in E. apply (E j); [lia | exact Hc].
Qed.

Lemma air2vac_element_Raise (air : Q) (e : exn) :
  air2vac_element air = Raise e <->
  e = max_iter_exn /\ forall k, (k <= num_iter)%nat -> ~ converged air k.
Proof.
  rewrite air2vac_element_spec.
  destruct (first_converged air 0 (S num_iter)) as [j|] eqn:E.
  - split; [discriminate|]. intros (_ & Hn). exfalso.
    apply first_converged_Some in E as (Hj & Hc & _). apply (Hn j); [lia | exact Hc].
  - rewrite first_converged_None in E. split.
    + intros [= <-]. split; [reflexivity|]. intros k Hk. apply E. lia.
    + intros [-> _]. reflexivity.
Qed.

Lemma air2vac_element_total (air : Q) :
  (exists v, air2vac_element air = Return v) \/ air2vac_element air = Raise max_iter_exn.
Proof.
  rewrite air2vac_element_spec.
  destruct (first_converged air 0 (S num_iter)) as [j|]; [left; eauto | right; reflexivity].
Qed.

(** The [for] loop returns the elements' results in order, appended to the
    list so far. *)
Lemma for_elements_Return (airs acc r : list Q) :
  for_elements airs acc = Return r <->
  exists vs, r = acc ++ vs /\
             Forall2 (fun air v => air2vac_element air = Return v) airs vs.
Proof.
  revert acc. induction airs as [|air airs IH]; intros acc; cbn [for_elements].
  - split.
    + intros [= <-]. exists []. split; [symmetry; apply app_nil_r | constructor].
    + intros (vs & -> & HF). inversion HF. rewrite app_nil_r. reflexivity.
  - rewrite bind_Return. split.
    + intros (v & Hv & Hrest). apply IH in Hrest as (vs & -> & HF).
      exists (v :: vs). split; [rewrite <- app_assoc; reflexivity|].
      constructor; assumption.
    + intros (vs & -> & HF). inversion HF as [|? v ? vs' Hv HF']; subst.
      exists v. split; [exact Hv|]. apply IH. exists vs'.
      split; [rewrite <- app_assoc; reflexivity | exact HF'].
Qed.

(** It raises exactly when some element does. *)
Lemma for_elements_Raise (airs acc : list Q) (e : exn) :
  for_elements airs acc = Raise e <->
  e = max_iter_exn /\
  Exists (fun air => forall k, (k <= num_iter)%nat -> ~ converged air k) airs.
Proof.
  revert acc. induction airs as [|air airs IH]; intros acc; cbn [for_elements].
  - split; [discriminate|]. intros [_ H]. inversion H.
  - destruct (air2vac_element air) as [v|e'] eqn:E; cbn.
    + rewrite IH. split; intros [He Hex]; (split; [exact He|]).
      * apply Exists_cons_tl. exact Hex.
      * inversion Hex as [? ? Hh|? ? Ht]; subst; [|exact Ht].
        exfalso. apply air2vac_element_Return in E as (j & Hj & Hc & _).
        apply (Hh j Hj Hc).
    + apply air2vac_element_Raise in E as [-> Hn]. split.
      * intros [= <-]. split; [reflexivity|]. apply Exists_cons_hd. exact Hn.
      * intros [-> _]. reflexivity.
Qed.

End Air2vacArray.

Section Air2vacESO.
Import conversions.

Lemma array_to_same_dims (a : unyt_array) (new : Unit) :
  unit_dims (arr_units a) = unit_dims new ->
  array_to a new =
    Return (mk_array
              (mk_ndarray (shape (arr_data a))
                 (map (fun x => x * (base_value (arr_units a) / base_value new))
                      (flat (arr_data a)))) new).
Proof.
  intros H. unfold array_to, get_conversion_factor.
  destruct (decide (unit_dims (arr_units a) = unit_dims new)) as [_|Hne];
    [reflexivity | contradiction].
Qed.

Lemma array_to_other_dims (a : unyt_array) (new : Unit) :
  unit_dims (arr_units a) <> unit_dims new ->
  raises (array_to a new) UnitConversionError.
Proof.
  intros H. unfold array_to, get_conversion_factor.
  destruct (decide (unit_dims (arr_units a) = unit_dims new)) as [Heq|_];
    [contradiction | reflexivity].
Qed.

(** [air2vacESO] on a well-formed 1-D or 2-D array of lengths: the elements
    are converted to Angstroms, each goes through the loop, and the results
    are converted back and put in the original shape. *)
Lemma air2vacESO_eq (a : unyt_array) :
  (ndim (arr_data a) = 1 \/ ndim (arr_data a) = 2)%nat ->
  ndarray_wf (arr_data a) ->
  unit_dims (arr_units a) = u.length ->
  air2vacESO a =
    match for_elements (map (to_angstrom (arr_units a)) (flat (arr_data a))) [] with
    | Return vs =>
        Return (mk_array (mk_ndarray (shape (arr_data a))
                                     (map (from_angstrom (arr_units a)) vs))
                         (arr_units a))
    | Raise e => Raise e
    end.
Proof.
  destruct a as [[sh fl] un]. unfold ndim, ndarray_wf. cbn [arr_data arr_units shape flat].
  intros Hnd Hwf Hdim.
  assert (Hlen : forall vs, for_elements (map (to_angstrom un) fl) [] = Return vs ->
                            length vs = length fl).
  { intros vs H. apply for_elements_Return in H as (vs' & -> & HF).
    apply Forall2_length in HF. rewrite length_map in HF. simpl. lia. }
  unfold air2vacESO, ndim. cbn [arr_data arr_units shape flat flatten].
  destruct Hnd as [Hnd|Hnd].
  - destruct sh as [|n [|? ?]]; try discriminate Hnd.
    cbn [length Nat.eqb].
    rewrite array_to_same_dims by exact Hdim.
    unfold flatten.
    cbn [mbind result_bind arr_data arr_units shape flat length].
    fold (to_angstrom un).
    destruct (for_elements (map (to_angstrom un) fl) []) as [vs|e] eqn:E; [|reflexivity].
    cbn [mbind result_bind]. pose proof (Hlen vs eq_refl) as Hl.
    rewrite array_to_same_dims by (symmetry; exact Hdim).
    cbn [arr_data arr_units shape flat]. fold (from_angstrom un).
    unfold prod_shape in Hwf. cbn [fold_right] in Hwf.
    replace (length vs) with n by lia. reflexivity.
  - destruct sh as [|r [|c [|? ?]]]; try discriminate Hnd.
    cbn [length Nat.eqb].
    rewrite array_to_same_dims by exact Hdim.
    unfold flatten.
    cbn [mbind result_bind arr_data arr_units shape flat length].
    fold (to_angstrom un).
    destruct (for_elements (map (to_angstrom un) fl) []) as [vs|e] eqn:E; [|reflexivity].
    cbn [mbind result_bind]. pose proof (Hlen vs eq_refl) as Hl.
    unfold reshape. cbn [flat arr_data].
    destruct (decide (prod_shape [r; c] = length vs)) as [_|Hne];
      [|exfalso; apply Hne; congruence].
    cbn [mbind result_bind].
    rewrite array_to_same_dims by (symmetry; exact Hdim).
    cbn [arr_data arr_units shape flat]. fold (from_angstrom un). reflexivity.
Qed.

End Air2vacESO.

Section Air2vacESO_claims.
Import conversions.

(** A wavelength array whose units are not lengths is rejected by the
    conversion to Angstroms. *)
Lemma air2vacESO_other_dims (a : unyt_array) :
  unit_dims (arr_units a) <> u.length ->
  raises (air2vacESO a) UnitConversionError.
Proof.
  intros H. unfold air2vacESO.
  set (a1 := if (ndim (arr_data a) =? 2)%nat then _ else _).
  assert (Hu : arr_units a1 = arr_units a) by (subst a1; destruct (_ =? _)%nat; reflexivity).
  pose proof (array_to_other_dims a1 u.angstrom) as Hr.
  rewrite Hu in Hr. specialize (Hr H).
  destruct (array_to a1 u.angstrom); [contradiction | exact Hr].
Qed.

Lemma iterate_previous (air : Q) (j : nat) :
  (0 < j)%nat -> iterate air j = air * air_indexEdlen53 (previous air j).
Proof. destruct j; [lia | reflexivity]. Qed.

Lemma not_converged_0 (air : Q) : tolerance < Qabs air -> ~ converged air 0.
Proof.
  intros H Hc. unfold converged in Hc. cbn [previous iterate] in Hc.
  assert (E : Qabs (0 - air) == Qabs air).
  { rewrite <- (Qabs_opp air). apply Qabs_wd. ring. }
  rewrite E in Hc. apply (Qlt_not_le _ _ H Hc).
Qed.

Lemma converged_0 (air : Q) : Qabs air <= tolerance -> converged air 0.
Proof.
  intros H. unfold converged. cbn [previous iterate].
  assert (E : Qabs (0 - air) == Qabs air).
  { rewrite <- (Qabs_opp air). apply Qabs_wd. ring. }
  rewrite E. exact H.
Qed.

Lemma air2vacESO_Return (a res : unyt_array) :
  (ndim (arr_data a) = 1 \/ ndim (arr_data a) = 2)%nat ->
  ndarray_wf (arr_data a) ->
  air2vacESO a = Return res ->
  shape (arr_data res) = shape (arr_data a) /\
  arr_units res = arr_units a /\
  Forall2 (element_result (arr_units a)) (flat (arr_data a)) (flat (arr_data res)).
Proof.
  intros Hnd Hwf Hres.
  destruct (decide (unit_dims (arr_units a) = u.length)) as [Hdim|Hdim].
  2:{ apply air2vacESO_other_dims in Hdim. rewrite Hres in Hdim. contradiction. }
  rewrite (air2vacESO_eq a Hnd Hwf Hdim) in Hres.
  destruct (for_elements _ []) as [vs|e] eqn:E; [|discriminate].
  injection Hres as <-. cbn [arr_data arr_units shape flat].
  split; [reflexivity|]. split; [reflexivity|].
  apply for_elements_Return in E as (vs' & -> & HF). cbn [app].
  apply Forall2_fmap_l in HF. apply Forall2_fmap_r.
  eapply Forall2_impl; [exact HF|].
  intros x v Hv. cbn beta in Hv.
  apply air2vac_element_Return in Hv as (j & Hj & Hc & Hn & ->).
  exists j. split; [exact Hj|]. split; [reflexivity|]. split; [exact Hc|].
  split; [exact Hn|]. split.
  - intros Htol. apply iterate_previous.
    destruct j; [|lia]. exfalso. apply (not_converged_0 _ Htol Hc).
  - intros Htol. destruct j; [reflexivity|]. exfalso.
    apply (Hn 0%nat); [lia|]. apply converged_0, Htol.
Qed.

End Air2vacESO_claims.

(** ** The Edlen index as a function of the squared wavenumber *)
Section Edlen.
Import conversions.

Lemma lit_1e4 : 1e4 == 10000.
Proof. reflexivity. Qed.

Lemma tolerance_value : tolerance == 0.000000000002.
Proof. reflexivity. Qed.

Lemma air_index_KG (l : Q) :
  air_indexEdlen53 l = K_edlen * G_edlen ((1e4 / l) ^ 2) + 1.
Proof. reflexivity. Qed.

Lemma K_edlen_pos : 0 < K_edlen.
Proof. reflexivity. Qed.

#[global] Instance G_edlen_wd : Proper (Qeq ==> Qeq) G_edlen.
Proof. intros x y H. unfold G_edlen. rewrite H. reflexivity. Qed.

#[global] Instance air_index_wd : Proper (Qeq ==> Qeq) air_indexEdlen53.
Proof. intros x y H. rewrite !air_index_KG. rewrite H. reflexivity. Qed.

Lemma frac_le_1 (A m : Q) : 0 <= A -> A <= m -> 0 < m -> A / m <= 1.
Proof.
  intros HA Hm Hpos. apply Qle_shift_div_r; [exact Hpos|]. lra.
Qed.

(** Far beyond the two poles the dispersion terms are negligible. *)
Lemma G_edlen_large (s2 : Q) :
  1000000000000000000000000000000 <= s2 -> 62 <= G_edlen s2.
Proof.
  intros H. unfold G_edlen.
  assert (E1 : 29498.1 / (146 - s2) == - (29498.1 / (s2 - 146))) by (field; lra).
  assert (E2 : 255.4 / (41 - s2) == - (255.4 / (s2 - 41))) by (field; lra).
  rewrite E1, E2.
  assert (29498.1 / (s2 - 146) <= 1) by (apply frac_le_1; lra).
  assert (255.4 / (s2 - 41) <= 1) by (apply frac_le_1; lra).
  lra.
Qed.

(** Within a few tolerances of zero the index is not 1. *)
Lemma air_index_near_zero (vp : Q) :
  Qabs vp <= 0.000000000003 -> ~ air_indexEdlen53 vp == 1.
Proof.
  intros Hvp Hn. rewrite air_index_KG in Hn.
  assert (HG : G_edlen ((1e4 / vp) ^ 2) == 0).
  { pose proof K_edlen_pos as HK.
    assert (H0 : K_edlen * G_edlen ((1e4 / vp) ^ 2) == 0) by lra.
    apply Qmult_integral in H0. destruct H0; [lra | assumption]. }
  destruct (Qeq_dec vp 0) as [Hz|Hnz].
  - rewrite Hz in HG. vm_compute in HG. discriminate.
  - assert (Hs : 1000000000000000000000000000000 <= (1e4 / vp) ^ 2).
    { apply Qabs_Qle_condition in Hvp.
      set (w := 1e4 / vp).
      assert (Hw : w * vp == 10000) by (unfold w; rewrite lit_1e4; field; exact Hnz).
      change (w ^ 2) with (w * w). nra. }
    apply G_edlen_large in Hs. lra.
Qed.

End Edlen.

(** ** Quantities: conversions between units *)
Section Quantities.

Lemma quantity_to_same_dims (q : unyt_quantity) (new : Unit) :
  unit_dims (units q) = unit_dims new ->
  quantity_to q new =
    Return (mk_quantity (value q * (base_value (units q) / base_value new)) new).
Proof.
  intros H. unfold quantity_to, get_conversion_factor.
  destruct (decide (unit_dims (units q) = unit_dims new)) as [_|Hne];
    [reflexivity | contradiction].
Qed.

Lemma quantity_to_other_dims (q : unyt_quantity) (new : Unit) :
  unit_dims (units q) <> unit_dims new ->
  quantity_to q new = raise UnitConversionError "cannot convert between units".
Proof.
  intros H. unfold quantity_to, get_conversion_factor.
  destruct (decide (unit_dims (units q) = unit_dims new)) as [Heq|_];
    [contradiction | reflexivity].
Qed.

Lemma quantity_to_units (q q' : unyt_quantity) (new : Unit) :
  quantity_to q new = Return q' -> units q' = new.
Proof.
  unfold quantity_to. destruct (get_conversion_factor _ _); [|discriminate].
  intros [= <-]. reflexivity.
Qed.

(** Converting to the unit a value already has changes nothing, up to the
    equality of rationals. *)
Lemma same_unit_factor (x b : Q) : ~ b == 0 -> x * (b / b) == x.
Proof. intros Hb. field. exact Hb. Qed.

Lemma Qltb_wd (x x' y y' : Q) : x == x' -> y == y' -> Qltb x y = Qltb x' y'.
Proof.
  intros Hx Hy. destruct (Qltb x' y') eqn:E.
  - apply Qltb_true. apply Qltb_true in E. rewrite Hx, Hy. exact E.
  - apply Qltb_false. apply Qltb_false in E. rewrite Hx, Hy. exact E.
Qed.

Lemma Qleb_wd (x x' y y' : Q) : x == x' -> y == y' -> Qleb x y = Qleb x' y'.
Proof.
  intros Hx Hy. destruct (Qleb x' y') eqn:E.
  - apply Qleb_true. apply Qleb_true in E. rewrite Hx, Hy. exact E.
  - apply Qleb_false. apply Qleb_false in E. rewrite Hx, Hy. exact E.
Qed.

End Quantities.

(** ** [Transition] and [TransitionPair] *)
Section Transitions.
Import transition_line transition_pair.

(** The three steps of [Transition.__init__]. *)
Lemma Transition_init_Return (self_id : nat) (w e s : py_obj) (t : Transition) :
  Transition_init self_id w e s = Return t <->
  exists q an sym ion,
    wavelength_to_nm w = Return q /\
    init_element e = Return (an, sym) /\
    init_ionizationState s = Return ion /\
    t = mk_Transition self_id q an sym ion None None None None None None.
Proof.
  unfold Transition_init. split.
  - destruct (wavelength_to_nm w) as [q|ex] eqn:Ew; cbn.
    2:{ destruct (decide _); discriminate. }
    destruct (init_element e) as [[an sym]|ex] eqn:Ee; cbn; [|discriminate].
    destruct (init_ionizationState s) as [ion|ex] eqn:Es; cbn; [|discriminate].
    intros [= <-]. exists q, an, sym, ion. repeat split; reflexivity.
  - intros (q & an & sym & ion & -> & -> & -> & ->). reflexivity.
Qed.

(** Only a quantity has the method [to]. *)
Lemma wavelength_to_nm_no_units (w : py_obj) :
  (forall q, w <> PQuantity q) ->
  wavelength_to_nm w = raise AttributeError "object has no attribute 'to'".
Proof. intros H. destruct w; try reflexivity. exfalso. apply (H q). reflexivity. Qed.

Lemma Transition_init_no_units (self_id : nat) (w e s : py_obj) :
  (forall q, w <> PQuantity q) ->
  Transition_init self_id w e s = raise AttributeError "object has no attribute 'to'".
Proof.
  intros H. unfold Transition_init. rewrite (wavelength_to_nm_no_units w H). reflexivity.
Qed.

(** The keys of the inverse Roman-numeral dict are the numbers 1 to 10. *)
Lemma roman_numerals_inv_range (s : string) (z : Z) :
  roman_numerals_inv !! s = Some z -> (1 <= z <= 10)%Z.
Proof.
  unfold roman_numerals_inv. intros H.
  apply elem_of_list_to_map_2 in H.
  cbn in H. repeat (apply elem_of_cons in H as [[= _ ->]|H]; [lia|]).
  apply elem_of_nil in H. contradiction.
Qed.

(** [init_ionizationState] keeps an integer as it is, and maps a string
    that is not a decimal integer to its Roman-numeral value. *)
Lemma init_ionizationState_int (z : Z) :
  init_ionizationState (PInt z) = Return z.
Proof. reflexivity. Qed.

Lemma init_ionizationState_roman (s : string) (z : Z) :
  int_of_string s = None ->
  init_ionizationState (PStr s) = Return z ->
  (1 <= z <= 10)%Z.
Proof.
  intros Hs. unfold init_ionizationState, py_int. rewrite Hs.
  rewrite try_except_caught.
  unfold dict_get. destruct (roman_numerals_inv !! s) as [z'|] eqn:E.
  - rewrite try_except_Return. intros [= ->]. apply (roman_numerals_inv_range s z E).
  - rewrite try_except_caught. discriminate.
Qed.

(** Comparing transitions compares the values of their wavelengths. *)
Lemma Transition_gt_true (t1 t2 : Transition) :
  Transition_gt t1 t2 = true <-> value (wavelength t2) < value (wavelength t1).
Proof.
  unfold Transition_gt. destruct (Qltb _ _) eqn:E.
  - apply Qltb_true in E. tauto.
  - apply Qltb_false in E. split; [discriminate|]. intros H.
    exfalso. apply (Qlt_not_le _ _ H E).
Qed.

Lemma Transition_lt_true (t1 t2 : Transition) :
  Transition_lt t1 t2 = true <-> value (wavelength t1) < value (wavelength t2).
Proof.
  unfold Transition_lt. destruct (Qltb _ _) eqn:E.
  - apply Qltb_true in E. tauto.
  - apply Qltb_false in E. split; [discriminate|]. intros H.
    exfalso. apply (Qlt_not_le _ _ H E).
Qed.

Lemma TransitionPair_init_Return (t1 t2 : Transition) (p : TransitionPair) :
  TransitionPair_init t1 t2 = Return p <->
  (value (wavelength t2) < value (wavelength t1) /\ p = mk_TransitionPair t1 t2 None) \/
  (value (wavelength t1) < value (wavelength t2) /\ p = mk_TransitionPair t2 t1 None).
Proof.
  unfold TransitionPair_init.
  destruct (Transition_gt t1 t2) eqn:Eg.
  - apply Transition_gt_true in Eg. split.
    + intros [= <-]. left. split; [exact Eg | reflexivity].
    + intros [[_ ->]|[Hlt _]]; [reflexivity|].
      exfalso. apply (Qlt_irrefl (value (wavelength t1))). eapply Qlt_trans; eassumption.
  - assert (Hng : ~ value (wavelength t2) < value (wavelength t1)).
    { intros H. apply Transition_gt_true in H. congruence. }
    destruct (Transition_lt t1 t2) eqn:El.
    + apply Transition_lt_true in El. split.
      * intros [= <-]. right. split; [exact El | reflexivity].
      * intros [[H _]|[_ ->]]; [contradiction | reflexivity].
    + assert (Hnl : ~ value (wavelength t1) < value (wavelength t2)).
      { intros H. apply Transition_lt_true in H. congruence. }
      split; [discriminate|]. intros [[H _]|[H _]]; contradiction.
Qed.

Lemma TransitionPair_eq_refl (p : TransitionPair) : TransitionPair_eq p p = true.
Proof.
  unfold TransitionPair_eq, Transition_eq. rewrite !Nat.eqb_refl. reflexivity.
Qed.

End Transitions.

(** ** [wavelength2velocity] *)
Section Velocity.
Import miscellaneous.

(** The wavelength units cancel in the quotient, whatever they are. *)
Lemma velocity_dims (un : Unit) :
  unit_dims (unit_div (unit_mul un u.m_per_s) un) = unit_dims u.m_per_s.
Proof.
  unfold unit_div, unit_mul. cbn [unit_dims dim_length dim_time u.m_per_s u.velocity].
  f_equal; lia.
Qed.

Lemma wavelength2velocity_same_units (w1 w2 : unyt_quantity) :
  units w1 = units w2 ->
  exists v,
    wavelength2velocity w1 w2 = Return v /\
    units v = u.m_per_s /\
    (~ base_value (units w1) == 0 -> ~ value w1 + value w2 == 0 ->
     value v == (value w2 - value w1) * u.c_value / ((value w1 + value w2) / 2)).
Proof.
  intros Hun. unfold wavelength2velocity, q_sub, q_add.
  rewrite (quantity_to_same_dims w1 (units w2)) by (rewrite Hun; reflexivity).
  cbn [mbind result_bind value units].
  rewrite (quantity_to_same_dims w2 (units w1)) by (rewrite Hun; reflexivity).
  cbn [mbind result_bind value units].
  unfold q_div, q_mul, q_div_scalar. cbn [value units].
  rewrite quantity_to_same_dims by (cbn [units]; rewrite Hun; apply velocity_dims).
  cbn [value units].
  eexists. split; [reflexivity|]. split; [reflexivity|].
  intros Hb Hs. cbn [value]. rewrite Hun in *.
  unfold unit_div, unit_mul, u.m_per_s. cbn [base_value].
  field. repeat split; try assumption; try discriminate. 
Qed.

End Velocity.

(** ** Comparing and subtracting quantities in the same unit *)
Section SameUnit.

Variable un : Unit.
Hypothesis un_nonzero : ~ base_value un == 0.

Lemma q_lt_same (a b : unyt_quantity) :
  units a = un -> units b = un ->
  q_lt a b = Return (Qltb (value a) (value b)).
Proof.
  intros Ha Hb. unfold q_lt.
  rewrite quantity_to_same_dims by (rewrite Ha, Hb; reflexivity).
  cbn [mbind result_bind value]. f_equal. apply Qltb_wd; [reflexivity|].
  rewrite Ha, Hb. apply same_unit_factor, un_nonzero.
Qed.

Lemma q_le_same (a b : unyt_quantity) :
  units a = un -> units b = un ->
  q_le a b = Return (Qleb (value a) (value b)).
Proof.
  intros Ha Hb. unfold q_le.
  rewrite quantity_to_same_dims by (rewrite Ha, Hb; reflexivity).
  cbn [mbind result_bind value]. f_equal. apply Qleb_wd; [reflexivity|].
  rewrite Ha, Hb. apply same_unit_factor, un_nonzero.
Qed.

Lemma q_sub_same (a b : unyt_quantity) :
  units a = un -> units b = un ->
  exists d, q_sub a b = Return d /\ units d = un /\ value d == value a - value b.
Proof.
  intros Ha Hb. unfold q_sub.
  rewrite quantity_to_same_dims by (rewrite Ha, Hb; reflexivity).
  cbn [mbind result_bind value]. eexists. split; [reflexivity|].
  split; [exact Ha|]. cbn [value]. rewrite Ha, Hb.
  rewrite same_unit_factor by exact un_nonzero. reflexivity.
Qed.

End SameUnit.

(** ** Sequences *)
Section Sequences.

Lemma py_index_nat {A : Type} (l : list A) (i : nat) (x : A) :
  l !! i = Some x -> py_index l (Z.of_nat i) = Return x.
Proof.
  intros H. unfold py_index. cbv zeta.
  assert (E : (Z.of_nat i <? 0)%Z = false) by (apply Z.ltb_ge; lia).
  rewrite E. cbv iota. rewrite E, Nat2Z.id, H. reflexivity.
Qed.

Lemma py_index_last {A : Type} (l : list A) (x : A) :
  last l = Some x -> py_index l (-1) = Return x.
Proof.
  intros H. unfold py_index. cbv zeta. cbn [Z.ltb Z.compare].
  assert (Hlen : (0 < length l)%nat).
  { destruct l; [discriminate | cbn; lia]. }
  assert (E : (-1 + Z.of_nat (length l) <? 0)%Z = false) by (apply Z.ltb_ge; lia).
  rewrite E. rewrite last_lookup in H.
  replace (Z.to_nat (-1 + Z.of_nat (length l))) with (pred (length l)) by lia.
  rewrite H. reflexivity.
Qed.

End Sequences.

(** ** [wavelength2index] *)
Section Wavelength2index.
Import miscellaneous.

Variable wavelength : unyt_quantity.
Variable wavelength_array : unyt_array.
Hypothesis same_units : units wavelength = arr_units wavelength_array.
Hypothesis units_nonzero : ~ base_value (arr_units wavelength_array) == 0.

Let l := flat (arr_data wavelength_array).
Let w := value wavelength.

Lemma array_item_nat (i : nat) (x : Q) :
  l !! i = Some x ->
  array_item wavelength_array (Z.of_nat i)
    = Return (mk_quantity x (arr_units wavelength_array)).
Proof.
  intros H. unfold array_item. fold l. rewrite (py_index_nat l i x H). reflexivity.
Qed.

(** The loop moves on over an element less than the wavelength. *)
Lemma index_loop_less (i n : nat) (x : Q) :
  l !! i = Some x -> x < w ->
  index_loop wavelength wavelength_array i (S n)
    = index_loop wavelength wavelength_array (S i) n.
Proof.
  intros Hi Hlt. cbn [index_loop]. rewrite (array_item_nat i x Hi).
  cbn [mbind result_bind]. unfold q_ge.
  rewrite (q_le_same _ units_nonzero) by (assumption || reflexivity).
  cbn [mbind result_bind value].
  replace (Qleb (value wavelength) x) with false; [reflexivity|].
  symmetry. apply Qleb_false. exact Hlt.
Qed.

(** It stops at the first element not less than the wavelength, and
    returns its index or the one before, whichever element is closer. *)
Lemma index_loop_found (i n : nat) (x xp : Q) :
  l !! S i = Some x -> l !! i = Some xp -> w <= x ->
  index_loop wavelength wavelength_array (S i) (S n)
    = Return (Some (if Qltb (Qabs (w - xp)) (Qabs (x - w))
                    then Z.of_nat i else Z.of_nat (S i))).
Proof.
  intros Hi Hp Hle. cbn [index_loop]. rewrite (array_item_nat (S i) x Hi).
  cbn [mbind result_bind]. unfold q_ge.
  rewrite (q_le_same _ units_nonzero) by (assumption || reflexivity).
  cbn [mbind result_bind value].
  replace (Qleb (value wavelength) x) with true
    by (symmetry; apply Qleb_true; exact Hle).
  replace (Z.of_nat (S i) - 1)%Z with (Z.of_nat i) by lia.
  rewrite (array_item_nat i xp Hp). cbn [mbind result_bind].
  destruct (q_sub_same _ units_nonzero
              (mk_quantity x (arr_units wavelength_array)) wavelength
              eq_refl same_units) as (dr & -> & Hur & Hvr).
  cbn [mbind result_bind].
  destruct (q_sub_same _ units_nonzero
              wavelength (mk_quantity xp (arr_units wavelength_array))
              same_units eq_refl) as (dl & -> & Hul & Hvl).
  cbn [mbind result_bind]. unfold q_gt.
  rewrite (q_lt_same _ units_nonzero) by assumption.
  cbn [mbind result_bind q_abs value].
  replace (Qltb (Qabs (value dl)) (Qabs (value dr)))
    with (Qltb (Qabs (w - xp)) (Qabs (x - w))).
  - destruct (Qltb _ _); reflexivity.
  - apply Qltb_wd; apply Qabs_wd; symmetry; assumption.
Qed.

(** From index [i] on, with [n] elements left: the loop finds the first
    element not less than the wavelength. *)
Lemma index_loop_search (n i : nat) (xp : Q) :
  (S i + n = length l)%nat ->
  l !! i = Some xp -> xp < w ->
  (forall j y, (j < i)%nat -> l !! j = Some y -> y < w) ->
  (exists j y, l !! j = Some y /\ w <= y) ->
  exists k x x', (i <= k)%nat /\ l !! S k = Some x /\ l !! k = Some x' /\
    first_not_less l w (S k) /\
    index_loop wavelength wavelength_array (S i) n
      = Return (Some (if Qltb (Qabs (w - x')) (Qabs (x - w))
                      then Z.of_nat k else Z.of_nat (S k))).
Proof.
  revert i xp. induction n as [|n IH]; intros i xp Hlen Hi Hlt Hbefore Hex.
  - exfalso. destruct Hex as (j & y & Hj & Hy).
    assert (Hjl : (j < length l)%nat) by (eapply lookup_lt_Some; exact Hj).
    destruct (decide (j = i)) as [->|Hne].
    + rewrite Hi in Hj. injection Hj as ->. apply (Qlt_not_le _ _ Hlt Hy).
    + assert (Hji : (j < i)%nat) by lia.
      apply (Qlt_not_le _ _ (Hbefore j y Hji Hj) Hy).
  - destruct (lookup_lt_is_Some_2 l (S i)) as [x Hx]; [lia|].
    destruct (Qlt_le_dec x w) as [Hxw|Hxw].
    + rewrite (index_loop_less (S i) n x Hx Hxw).
      destruct (IH (S i) x) as (k & x1 & x2 & Hk & H1 & H2 & Hf & Hr);
        [lia | exact Hx | exact Hxw | | exact Hex |].
      * intros j y Hj Hy. destruct (decide (j = i)) as [->|Hne].
        -- rewrite Hi in Hy. injection Hy as <-. exact Hlt.
        -- apply (Hbefore j y); [lia | exact Hy].
      * exists k, x1, x2. split; [lia|]. repeat (split; [assumption|]). exact Hr.
    + exists i, x, xp. split; [lia|]. split; [exact Hx|]. split; [exact Hi|]. split.
      * split; [exists x; split; assumption|].
        intros j y Hj Hy. destruct (decide (j = i)) as [->|Hne].
        -- rewrite Hi in Hy. injection Hy as <-. exact Hlt.
        -- apply (Hbefore j y); [lia | exact Hy].
      * apply (index_loop_found i n x xp Hx Hi Hxw).
Qed.

End Wavelength2index.

Section Closest.
Import miscellaneous.

(** In an increasing sequence, the closer of the first element not less
    than [w] and its predecessor is closest to [w] among all elements. *)
Lemma closest_of_neighbours (l : list Q) (w x x' : Q) (k : nat) :
  increasing l ->
  l !! S k = Some x -> l !! k = Some x' -> w <= x -> x' < w ->
  closest_index l w (if Qltb (Qabs (w - x')) (Qabs (x - w)) then k else S k).
Proof.
  intros Hinc Hx Hx' Hwx Hxw.
  assert (Ex : Qabs (x - w) == x - w) by (apply Qabs_pos; lra).
  assert (Ex' : Qabs (w - x') == w - x') by (apply Qabs_pos; lra).
  assert (Ex'' : Qabs (x' - w) == w - x').
  { rewrite Qabs_neg by lra. ring. }
  assert (Hfar : forall j y, l !! j = Some y ->
            (j <= k)%nat /\ Qabs (y - w) == w - y /\ w - x' <= w - y \/
            (S k <= j)%nat /\ Qabs (y - w) == y - w /\ x - w <= y - w).
  { intros j y Hy. destruct (le_lt_dec j k) as [Hj|Hj].
    - left. pose proof (Hinc j k y x' Hj Hy Hx') as Hle.
      split; [exact Hj|]. split; [|lra]. rewrite Qabs_neg by lra. ring.
    - right. pose proof (Hinc (S k) j x y Hj Hx Hy) as Hle.
      split; [exact Hj|]. split; [|lra]. apply Qabs_pos. lra. }
  destruct (Qltb (Qabs (w - x')) (Qabs (x - w))) eqn:E.
  - apply Qltb_true in E. rewrite Ex, Ex' in E.
    exists x'. split; [exact Hx'|]. intros j y Hy. rewrite Ex''.
    destruct (Hfar j y Hy) as [(_ & -> & H)|(_ & -> & H)]; lra.
  - apply Qltb_false in E. rewrite Ex, Ex' in E.
    exists x. split; [exact Hx|]. intros j y Hy. rewrite Ex.
    destruct (Hfar j y Hy) as [(_ & -> & H)|(_ & -> & H)]; lra.
Qed.

End Closest.

(** ** [wavelength2index] on a sequence of elements *)
Section Wavelength2indexElements.
Import miscellaneous.

(** In the units of the wavelength: the limits are tested first, then the
    loop finds the first element not less than the wavelength. *)
Lemma wavelength2index_elements_closest (wavelength : unyt_quantity)
    (wavelength_array : unyt_array) (lo hi : Q) :
  units wavelength = arr_units wavelength_array ->
  ~ base_value (arr_units wavelength_array) == 0 ->
  head (flat (arr_data wavelength_array)) = Some lo ->
  last (flat (arr_data wavelength_array)) = Some hi ->
  (lo < value wavelength /\ value wavelength < hi ->
   exists idx k,
     wavelength2index_elements wavelength wavelength_array
       = Return (Some (Z.of_nat idx)) /\
     first_not_less (flat (arr_data wavelength_array)) (value wavelength) k /\
     (idx = k \/ S idx = k) /\
     (increasing (flat (arr_data wavelength_array)) ->
      closest_index (flat (arr_data wavelength_array)) (value wavelength) idx)) /\
  (~ (lo < value wavelength /\ value wavelength < hi) ->
   wavelength2index_elements wavelength wavelength_array
     = raise RuntimeError "Couldn't find the given wavelength").
Proof.
  intros Hun Hnz Hlo Hhi.
  set (l := flat (arr_data wavelength_array)) in *.
  set (w := value wavelength) in *.
  assert (Hlo' : l !! 0%nat = Some lo) by (rewrite <- head_lookup; exact Hlo).
  assert (Hfirst : array_item wavelength_array 0
                   = Return (mk_quantity lo (arr_units wavelength_array))).
  { apply (array_item_nat wavelength_array 0 lo Hlo'). }
  assert (Hlast : array_item wavelength_array (-1)
                  = Return (mk_quantity hi (arr_units wavelength_array))).
  { unfold array_item. fold l. rewrite (py_index_last l hi Hhi). reflexivity. }
  unfold wavelength2index_elements. rewrite Hfirst. cbn [mbind result_bind].
  rewrite (q_lt_same _ Hnz) by (assumption || reflexivity).
  cbn [mbind result_bind value]. fold w.
  split.
  - intros [Hlow Hwhi].
    replace (Qltb lo w) with true by (symmetry; apply Qltb_true; exact Hlow).
    rewrite Hlast. cbn [mbind result_bind].
    rewrite (q_lt_same _ Hnz) by (assumption || reflexivity).
    cbn [mbind result_bind value]. fold w.
    replace (Qltb w hi) with true by (symmetry; apply Qltb_true; exact Hwhi).
    cbn [negb]. fold l.
    destruct (length l) as [|n] eqn:Hlen.
    { apply lookup_lt_Some in Hlo'. lia. }
    rewrite (index_loop_less wavelength wavelength_array Hun Hnz 0 n lo Hlo' Hlow).
    destruct (index_loop_search wavelength wavelength_array Hun Hnz n 0 lo)
      as (k & x & x' & _ & Hx & Hx' & Hf & Hr).
    + fold l. lia.
    + exact Hlo'.
    + exact Hlow.
    + intros j y Hj. lia.
    + rewrite last_lookup in Hhi. exists (pred (length l)), hi.
      split; [exact Hhi | apply Qlt_le_weak; exact Hwhi].
    + rewrite Hr. fold l w.
      assert (Hx'w : x' < w).
      { destruct Hf as [_ Hb]. apply (Hb k x'); [lia | exact Hx']. }
      assert (Hwx : w <= x).
      { destruct Hf as [(y & Hy & Hle) _].
        pose proof (eq_trans (eq_sym Hy) Hx) as Heq. injection Heq as ->. exact Hle. }
      exists (if Qltb (Qabs (w - x')) (Qabs (x - w)) then k else S k), (S k).
      split; [destruct (Qltb _ _); reflexivity|].
      split; [exact Hf|].
      split; [destruct (Qltb _ _); [right|left]; reflexivity|].
      intros Hinc. apply (closest_of_neighbours l w x x' k Hinc Hx Hx' Hwx Hx'w).
  - intros Hout.
    destruct (Qltb lo w) eqn:E1.
    + rewrite Hlast. cbn [mbind result_bind].
      rewrite (q_lt_same _ Hnz) by (assumption || reflexivity).
      cbn [mbind result_bind value]. fold w.
      destruct (Qltb w hi) eqn:E2; [|reflexivity].
      exfalso. apply Hout. split; apply Qltb_true; assumption.
    + reflexivity.
Qed.

End Wavelength2indexElements.

(** ** [wavelength2index] with a wavelength in other units *)
Section Wavelength2indexUnits.
Import miscellaneous.

Lemma Qltb_scale (x y k : Q) : 0 < k -> Qltb (x * k) (y * k) = Qltb x y.
Proof.
  intros Hk. destruct (Qltb x y) eqn:E.
  - apply Qltb_true in E. apply Qltb_true. nra.
  - apply Qltb_false in E. apply Qltb_false. nra.
Qed.

Lemma Qleb_scale (x y k : Q) : 0 < k -> Qleb (x * k) (y * k) = Qleb x y.
Proof.
  intros Hk. destruct (Qleb x y) eqn:E.
  - apply Qleb_true in E. apply Qleb_true. nra.
  - apply Qleb_false in E. apply Qleb_false. nra.
Qed.

Lemma Qabs_scale (x k : Q) : 0 < k -> Qabs (x * k) == Qabs x * k.
Proof. intros Hk. rewrite Qabs_Qmult. rewrite (Qabs_pos k) by lra. reflexivity. Qed.

Variable wavelength : unyt_quantity.
Variable wavelength_array : unyt_array.
Hypothesis query_units_positive : 0 < base_value (units wavelength).
Hypothesis array_units_positive : 0 < base_value (arr_units wavelength_array).
Hypothesis same_dims : unit_dims (units wavelength) = unit_dims (arr_units wavelength_array).

Let bq := base_value (units wavelength).
Let ba := base_value (arr_units wavelength_array).
Let w := value wavelength.
Let converted := mk_quantity (w * (bq / ba)) (arr_units wavelength_array).

Lemma index_loop_converted (i n : nat) :
  index_loop wavelength wavelength_array i n
  = index_loop converted wavelength_array i n.
Proof.
  revert i. induction n as [|n IH]; intros i; [reflexivity|].
  cbn [index_loop]. unfold array_item.
  destruct (py_index (flat (arr_data wavelength_array)) (Z.of_nat i)) as [x|e];
    [|reflexivity].
  cbn [mbind result_bind]. unfold q_ge, q_le.
  rewrite !quantity_to_same_dims by (cbn [units converted]; congruence).
  cbn [mbind result_bind value units converted]. fold bq ba w.
  assert (Hq : ~ bq == 0) by (unfold bq; lra).
  assert (Ha : ~ ba == 0) by (unfold ba; lra).
  assert (Hr : 0 < bq / ba) by (apply Qlt_shift_div_l; unfold ba, bq; lra).
  assert (Hr' : 0 < ba / bq) by (apply Qlt_shift_div_l; unfold ba, bq; lra).
  assert (E1 : Qleb (w * (bq / ba)) (x * (ba / ba)) = Qleb w (x * (ba / bq))).
  { rewrite <- (Qleb_scale w (x * (ba / bq)) (bq / ba) Hr).
    apply Qleb_wd; [reflexivity | field; split; assumption]. }
  rewrite E1. destruct (Qleb w (x * (ba / bq))); [|apply IH].
  destruct (py_index (flat (arr_data wavelength_array)) (Z.of_nat i - 1)) as [xp|e];
    [|reflexivity].
  cbn [mbind result_bind]. unfold q_sub, q_gt, q_lt, q_abs.
  rewrite !quantity_to_same_dims by (cbn [units converted]; congruence).
  cbn [mbind result_bind value units converted].
  rewrite !quantity_to_same_dims by (cbn [units converted]; congruence).
  cbn [mbind result_bind value units converted]. fold bq ba w.
  assert (E2 : Qltb (Qabs (w * (bq / ba) - xp * (ba / ba)))
                    (Qabs (x - w * (bq / ba) * (ba / ba)) * (ba / ba))
               = Qltb (Qabs (w - xp * (ba / bq))) (Qabs (x - w * (bq / ba)) * (ba / bq))).
  { rewrite <- (Qltb_scale (Qabs (w - xp * (ba / bq))) _ (bq / ba) Hr).
    apply Qltb_wd.
    - rewrite <- (Qabs_scale _ _ Hr). apply Qabs_wd. field. split; assumption.
    - assert (Ex : x - w * (bq / ba) * (ba / ba) == x - w * (bq / ba))
        by (field; exact Ha).
      rewrite (Qabs_wd _ _ Ex). field. split; assumption. }
  rewrite E2. reflexivity.
Qed.

Lemma wavelength2index_elements_converted :
  wavelength2index_elements wavelength wavelength_array
  = wavelength2index_elements converted wavelength_array.
Proof.
  assert (Hq : ~ bq == 0) by (unfold bq; lra).
  assert (Ha : ~ ba == 0) by (unfold ba; lra).
  assert (Hr : 0 < bq / ba) by (apply Qlt_shift_div_l; unfold ba, bq; lra).
  unfold wavelength2index_elements. unfold array_item.
  destruct (py_index (flat (arr_data wavelength_array)) 0) as [x0|e]; [|reflexivity].
  cbn [mbind result_bind]. unfold q_lt.
  rewrite !quantity_to_same_dims by (cbn [units converted]; congruence).
  cbn [mbind result_bind value units converted]. fold bq ba w.
  assert (E1 : Qltb x0 (w * (bq / ba) * (ba / ba)) = Qltb x0 (w * (bq / ba))).
  { apply Qltb_wd; [reflexivity | field; exact Ha]. }
  rewrite E1. destruct (Qltb x0 (w * (bq / ba))).
  - destruct (py_index (flat (arr_data wavelength_array)) (-1)) as [xl|e]; [|reflexivity].
    cbn [mbind result_bind].
    rewrite !quantity_to_same_dims by (cbn [units converted]; congruence).
    cbn [mbind result_bind value units converted]. fold bq ba w.
    assert (E2 : Qltb (w * (bq / ba)) (xl * (ba / ba)) = Qltb w (xl * (ba / bq))).
    { rewrite <- (Qltb_scale w (xl * (ba / bq)) (bq / ba) Hr).
      apply Qltb_wd; [reflexivity | field; split; assumption]. }
    rewrite E2. destruct (Qltb w (xl * (ba / bq))); cbn [negb]; [|reflexivity].
    apply index_loop_converted.
  - reflexivity.
Qed.

(** Whatever the shape of the array, and with [reverse] or without. *)
Lemma wavelength2index_converted (reverse : bool) :
  wavelength2index (Quantity wavelength) wavelength_array reverse
  = wavelength2index (Quantity converted) wavelength_array reverse.
Proof.
  unfold wavelength2index. destruct reverse; [reflexivity|].
  destruct (shape (arr_data wavelength_array)) as [|r [|c rest]]; [reflexivity| |].
  - apply wavelength2index_elements_converted.
  - destruct (r =? 0)%nat; [reflexivity|].
    destruct (prod_shape (c :: rest) =? 1)%nat.
    + apply wavelength2index_elements_converted.
    + unfold get_conversion_factor. cbn [units converted].
      rewrite !decide_True by congruence. reflexivity.
Qed.

End Wavelength2indexUnits.

(** ** [range] loops and 2-D arrays *)
Section Loops.

Lemma for_range_invariant {S : Type} (Inv : nat -> S -> Prop)
    (body : nat -> S -> result S) (n start : nat) (s0 : S) :
  Inv start s0 ->
  (forall i s, (start <= i < start + n)%nat -> Inv i s ->
     exists s', body i s = Return s' /\ Inv (Datatypes.S i) s') ->
  exists s', for_range start n body s0 = Return s' /\ Inv (start + n)%nat s'.
Proof.
  revert start s0. induction n as [|n IH]; intros start s0 H0 Hstep.
  - exists s0. split; [reflexivity|]. rewrite Nat.add_0_r. exact H0.
  - destruct (Hstep start s0) as (s1 & Hb & H1); [lia | exact H0 |].
    destruct (IH (Datatypes.S start) s1 H1) as (s' & Hr & Hs').
    + intros i s Hi. apply Hstep. lia.
    + exists s'. split.
      * cbn [for_range]. rewrite Hb. exact Hr.
      * replace (start + Datatypes.S n)%nat with (Datatypes.S start + n)%nat by lia.
        exact Hs'.
Qed.

End Loops.

Section Arrays2D.
Import obs2d.

Lemma has_entries_ext (a : ndarray) (r c : nat) (f g : nat -> nat -> Q) :
  (forall o p, (o < r)%nat -> (p < c)%nat -> f o p = g o p) ->
  has_entries a r c f -> has_entries a r c g.
Proof.
  intros Hfg (Hs & Hl & He). split; [exact Hs|]. split; [exact Hl|].
  intros o p Ho Hp. rewrite <- (Hfg o p Ho Hp). apply He; assumption.
Qed.

Lemma zeros_entries (r c : nat) : has_entries (zeros [r; c]) r c (fun _ _ => 0).
Proof.
  unfold zeros, has_entries. cbn [shape flat].
  assert (E : prod_shape [r; c] = (r * c)%nat) by (unfold prod_shape; cbn; lia).
  rewrite E. split; [reflexivity|]. split; [apply length_replicate|].
  intros o p Ho Hp. apply lookup_replicate_2. nia.
Qed.

Lemma row_major_inj (c o p o' p' : nat) :
  (p < c)%nat -> (p' < c)%nat -> (o' * c + p' = o * c + p)%nat -> o' = o /\ p' = p.
Proof.
  intros Hp Hp' H.
  destruct (lt_eq_lt_dec o o') as [[Hlt|Heq]|Hgt].
  - exfalso. assert ((o + 1) * c <= o' * c)%nat by (apply Nat.mul_le_mono_r; lia). lia.
  - subst o'. split; [reflexivity | lia].
  - exfalso. assert ((o' + 1) * c <= o * c)%nat by (apply Nat.mul_le_mono_r; lia). lia.
Qed.

Lemma add_at_entries (a : ndarray) (r c : nat) (f : nat -> nat -> Q)
    (o p : nat) (x : Q) :
  has_entries a r c f -> (o < r)%nat -> (p < c)%nat ->
  exists a', add_at a o p x = Return a' /\
    has_entries a' r c
      (fun o' p' => if decide (o' = o /\ p' = p) then f o' p' + x else f o' p').
Proof.
  intros (Hs & Hl & He) Ho Hp. unfold add_at. rewrite Hs.
  replace (o <? r)%nat with true by (symmetry; apply Nat.ltb_lt; exact Ho).
  replace (p <? c)%nat with true by (symmetry; apply Nat.ltb_lt; exact Hp).
  cbn [andb]. eexists. split; [reflexivity|].
  split; [reflexivity|]. cbn [flat]. split; [rewrite length_imap; exact Hl|].
  intros o' p' Ho' Hp'. rewrite list_lookup_imap, (He o' p' Ho' Hp'). cbn [fmap option_fmap option_map].
  f_equal. change (prod_shape []) with 1%nat.
  destruct (decide (o' = o /\ p' = p)) as [[-> ->]|Hne].
  - replace ((o * c + p) * 1 <=? o * c + p)%nat with true
      by (symmetry; apply Nat.leb_le; lia).
    replace (o * c + p <? (o * c + p) * 1 + 1)%nat with true
      by (symmetry; apply Nat.ltb_lt; lia).
    reflexivity.
  - destruct ((o * c + p) * 1 <=? o' * c + p')%nat eqn:E1; [|reflexivity].
    destruct (o' * c + p' <? (o * c + p) * 1 + 1)%nat eqn:E2; [|reflexivity].
    exfalso. apply Nat.leb_le in E1. apply Nat.ltb_lt in E2. apply Hne.
    apply (row_major_inj c); [exact Hp | exact Hp' | lia].
Qed.

End Arrays2D.

(** ** [getWavelengthArray] *)
Section WavelengthArray.
Import obs2d.

Variable self : HARPSFile2DScience.
Variable coeff : nat -> Q.
Variables n_orders n_pixels r c : nat.
Hypothesis raw_shape : shape (_rawFluxArray self) = [r; c].
Hypothesis orders_fit : (n_orders <= r)%nat.
Hypothesis pixels_fit : (n_pixels <= c)%nat.
Hypothesis header_coeff :
  forall k, (k < 4 * n_orders)%nat -> _header self !! coeff_key k = Some (coeff k).

Lemma wavelength_poly_S (o p k : nat) :
  wavelength_poly coeff o p (S k) =
    wavelength_poly coeff o p k
    + coeff (4 * o + k)%nat * inject_Z (Z.of_nat p ^ Z.of_nat k).
Proof.
  unfold wavelength_poly. rewrite seq_S, fold_left_app. reflexivity.
Qed.

(** The loop over the pixels adds one term to the polynomial of the
    order, for every pixel. *)
Lemma pixel_loop (od id : nat) (a : ndarray) :
  (od < n_orders)%nat ->
  has_entries a r c (entries_at coeff n_pixels od id 0) ->
  exists a',
    for_range 0 n_pixels (fun pixel wavelength_array =>
        add_at wavelength_array od pixel
          (coeff (4 * od + id)%nat * inject_Z (Z.of_nat pixel ^ Z.of_nat id))) a
      = Return a' /\
    has_entries a' r c (entries_at coeff n_pixels od (S id) 0).
Proof.
  intros Hod Ha.
  destruct (for_range_invariant
              (fun pd a => has_entries a r c (entries_at coeff n_pixels od id pd))
              (fun pixel wavelength_array =>
                 add_at wavelength_array od pixel
                   (coeff (4 * od + id)%nat * inject_Z (Z.of_nat pixel ^ Z.of_nat id)))
              n_pixels 0 a Ha) as (a' & Hr & Ha').
  - intros px s Hpx Hs.
    destruct (add_at_entries s r c _ od px
                (coeff (4 * od + id)%nat * inject_Z (Z.of_nat px ^ Z.of_nat id)) Hs)
      as (s' & Hadd & Hs'); [lia | lia |].
    exists s'. split; [exact Hadd|].
    eapply has_entries_ext; [|exact Hs'].
    intros o p Ho Hp. cbv beta. unfold entries_at.
    destruct (decide (o = od /\ p = px)) as [[-> ->]|Hne].
    + replace (px <? n_pixels)%nat with true by (symmetry; apply Nat.ltb_lt; lia).
      rewrite Nat.ltb_irrefl, Nat.eqb_refl, Nat.ltb_irrefl.
      replace (px <? S px)%nat with true by (symmetry; apply Nat.ltb_lt; lia).
      symmetry. apply wavelength_poly_S.
    + destruct (p <? n_pixels)%nat; [|reflexivity].
      destruct (o <? od)%nat; [reflexivity|].
      destruct (o =? od)%nat eqn:Eo; [|reflexivity].
      apply Nat.eqb_eq in Eo. subst o.
      assert (Hp' : p <> px) by (intros ->; apply Hne; split; reflexivity).
      destruct (p <? px)%nat eqn:E1.
      * apply Nat.ltb_lt in E1.
        replace (p <? S px)%nat with true by (symmetry; apply Nat.ltb_lt; lia).
        reflexivity.
      * apply Nat.ltb_ge in E1.
        replace (p <? S px)%nat with false by (symmetry; apply Nat.ltb_ge; lia).
        reflexivity.
  - exists a'. split; [exact Hr|].
    eapply has_entries_ext; [|exact Ha'].
    intros o p Ho Hp. unfold entries_at. cbn [Nat.add].
    destruct (p <? n_pixels)%nat eqn:Ep; [|reflexivity].
    destruct (o <? od)%nat; [reflexivity|].
    destruct (o =? od)%nat; [|reflexivity].
    reflexivity.
Qed.

(** The loop over the four coefficients completes the polynomial of the
    order. *)
Lemma coefficient_loop (od : nat) (a : ndarray) :
  (od < n_orders)%nat ->
  has_entries a r c (entries_at coeff n_pixels od 0 0) ->
  exists a',
    for_range 0 4 (fun i wavelength_array =>
        let coeff_key_i := coeff_key (4 * od + i) in
        coeff_val ← dict_get (_header self) coeff_key_i;
        for_range 0 n_pixels (fun pixel wavelength_array =>
          add_at wavelength_array od pixel
            (coeff_val * inject_Z (Z.of_nat pixel ^ Z.of_nat i)))
          wavelength_array) a
      = Return a' /\
    has_entries a' r c (entries_at coeff n_pixels (S od) 0 0).
Proof.
  intros Hod Ha.
  destruct (for_range_invariant
              (fun id a => has_entries a r c (entries_at coeff n_pixels od id 0))
              (fun i wavelength_array =>
                 let coeff_key_i := coeff_key (4 * od + i) in
                 coeff_val ← dict_get (_header self) coeff_key_i;
                 for_range 0 n_pixels (fun pixel wavelength_array =>
                   add_at wavelength_array od pixel
                     (coeff_val * inject_Z (Z.of_nat pixel ^ Z.of_nat i)))
                   wavelength_array)
              4 0 a Ha) as (a' & Hr & Ha').
  - intros i s Hi Hs. cbv zeta. unfold dict_get.
    rewrite (header_coeff (4 * od + i)) by lia.
    cbn [mbind result_bind].
    destruct (pixel_loop od i s Hod Hs) as (s' & Hl & Hs').
    exists s'. split; [exact Hl | exact Hs'].
  - exists a'. split; [exact Hr|].
    eapply has_entries_ext; [|exact Ha'].
    intros o p Ho Hp. unfold entries_at. cbn [Nat.add].
    destruct (p <? n_pixels)%nat; [|reflexivity].
    destruct (o <? od)%nat eqn:E1.
    + apply Nat.ltb_lt in E1.
      replace (o <? S od)%nat with true by (symmetry; apply Nat.ltb_lt; lia).
      reflexivity.
    + apply Nat.ltb_ge in E1. destruct (o =? od)%nat eqn:E2.
      * apply Nat.eqb_eq in E2.
        replace (o <? S od)%nat with true by (symmetry; apply Nat.ltb_lt; lia).
        reflexivity.
      * apply Nat.eqb_neq in E2.
        replace (o <? S od)%nat with false by (symmetry; apply Nat.ltb_ge; lia).
        destruct (o =? S od)%nat; reflexivity.
Qed.

Lemma getWavelengthArray_dims_entries :
  exists a,
    getWavelengthArray_dims n_orders n_pixels self = Return (mk_array a u.angstrom) /\
    has_entries a r c (entries_at coeff n_pixels n_orders 0 0).
Proof.
  unfold getWavelengthArray_dims. cbv zeta. rewrite raw_shape.
  destruct (for_range_invariant
              (fun od a => has_entries a r c (entries_at coeff n_pixels od 0 0))
              (fun order wavelength_array =>
                 for_range 0 4 (fun i wavelength_array =>
                   let coeff_key_i := coeff_key (4 * order + i) in
                   coeff_val ← dict_get (_header self) coeff_key_i;
                   for_range 0 n_pixels (fun pixel wavelength_array =>
                     add_at wavelength_array order pixel
                       (coeff_val * inject_Z (Z.of_nat pixel ^ Z.of_nat i)))
                     wavelength_array) wavelength_array)
              n_orders 0 (zeros [r; c])) as (a' & Hr & Ha').
  - eapply has_entries_ext; [|apply zeros_entries].
    intros o p Ho Hp. unfold entries_at.
    destruct (p <? n_pixels)%nat; [|reflexivity].
    destruct (o =? 0)%nat; reflexivity.
  - intros od s Hod Hs. apply (coefficient_loop od s); [lia | exact Hs].
  - exists a'. split; [|exact Ha'].
    cbv zeta in Hr. rewrite Hr. reflexivity.
Qed.

End WavelengthArray.

Section Header.
Import obs2d.

#[global] Instance coeff_key_inj : Inj (=) (=) coeff_key.
Proof.
  intros j k H. unfold coeff_key in H.
  apply String.app_inj in H. apply pretty_nat_inj in H. exact H.
Qed.

(** A header built from the list of its coefficient cards has them all. *)
Lemma header_of_coefficients (coeff : nat -> Q) (n k : nat) :
  (k < n)%nat ->
  (list_to_map (map (fun k => (coeff_key k, coeff k)) (seq 0 n)) : gmap string Q)
    !! coeff_key k = Some (coeff k).
Proof.
  intros Hk. apply elem_of_list_to_map_1.
  - rewrite <- list_fmap_compose.
    apply (NoDup_fmap_2 (fun k => coeff_key k)), NoDup_seq.
  - apply (list_elem_of_fmap_2 (fun k => (coeff_key k, coeff k))).
    apply elem_of_seq. lia.
Qed.

End Header.

(** ** [findWavelength] *)
Section FindWavelength.
Import obs2d.

Lemma for_range_Return {S : Type} (Inv : nat -> S -> Prop)
    (body : nat -> S -> result S) (n start : nat) (s0 s' : S) :
  Inv start s0 ->
  (forall i s s1, (start <= i < start + n)%nat -> Inv i s ->
     body i s = Return s1 -> Inv (Datatypes.S i) s1) ->
  for_range start n body s0 = Return s' ->
  Inv (start + n)%nat s'.
Proof.
  revert start s0. induction n as [|n IH]; intros start s0 H0 Hstep Hr.
  - cbn in Hr. injection Hr as <-. rewrite Nat.add_0_r. exact H0.
  - cbn [for_range] in Hr. apply bind_Return in Hr as (s1 & Hb & Hr).
    replace (start + Datatypes.S n)%nat with (Datatypes.S start + n)%nat by lia.
    apply (IH (Datatypes.S start) s1).
    + apply (Hstep start s0 s1); [lia | exact H0 | exact Hb].
    + intros i s s2 Hi. apply Hstep. lia.
    + exact Hr.
Qed.

(** The branch for a wavelength found in a number of orders other than
    one: [len] is applied to a bool, and raises. *)
Lemma closest_of_two_raises (barycentricArray : unyt_array)
    (wavelength_to_find : unyt_quantity) (orders : list nat) :
  closest_of_two barycentricArray wavelength_to_find orders
    = raise TypeError "object of type 'bool' has no len()".
Proof. reflexivity. Qed.

(** The loop over the orders collects the orders that contain the
    wavelength. *)
Lemma find_orders_spec (wl : unyt_array) (w : unyt_quantity) (orders : list nat) :
  find_orders (Some wl) w = Return orders ->
  forall o, o ∈ orders <-> (o < 72)%nat /\ order_contains wl w o.
Proof.
  unfold find_orders. intros H.
  refine (for_range_Return
            (fun i orders => forall o, o ∈ orders <-> (o < i)%nat /\ order_contains wl w o)
            _ 72 0 [] orders _ _ H).
  - intros o. split; [intros Hin; inversion Hin | intros [Hlt _]; lia].
  - intros i s s1 Hi Hinv Hb.
    apply bind_Return in Hb as (order_min & Hmin & Hb).
    apply bind_Return in Hb as (order_max & Hmax & Hb).
    apply bind_Return in Hb as (found & Hfound & Hb).
    intros o. destruct found; injection Hb as <-.
    + rewrite elem_of_app, list_elem_of_singleton, Hinv. split.
      * intros [[Hlt Hc]| ->]; [split; [lia | exact Hc]|].
        split; [lia|]. exists order_min, order_max. repeat split; assumption.
      * intros [Hlt Hc]. destruct (decide (o = i)) as [->|Hne]; [right; reflexivity|].
        left. split; [lia | exact Hc].
    + rewrite Hinv. split.
      * intros [Hlt Hc]. split; [lia | exact Hc].
      * intros [Hlt Hc]. split; [|exact Hc].
        destruct (decide (o = i)) as [->|Hne]; [|lia].
        exfalso. destruct Hc as (lo & hi & Hlo & Hhi & Hbt).
        rewrite Hmin in Hlo. injection Hlo as <-.
        rewrite Hmax in Hhi. injection Hhi as <-.
        rewrite Hfound in Hbt. discriminate.
Qed.

(** What [findWavelength] does with [closest_only=True] once the
    wavelength is within the limits and the orders are found. *)
Lemma findWavelength_closest_only (self self' : HARPSFile2DScience)
    (q wq lo hi : unyt_quantity) (bary : unyt_array) (orders : list nat) :
  quantity_to q u.angstrom = Return wq ->
  cached_barycentricArray self = (self', Return bary) ->
  array_item2 bary 0 0 = Return lo ->
  array_item2 bary 71 (-1) = Return hi ->
  between lo wq hi = Return true ->
  find_orders (_wavelengthArray self') wq = Return orders ->
  findWavelength (PQuantity q) true self =
    (self',
     match orders with
     | [order] => Return (FInt (Z.of_nat order))
     | [] | [_; _] => raise TypeError "object of type 'bool' has no len()"
     | _ => raise AssertionError "Wavelength found in more than two orders!"
     end).
Proof.
  intros Hq Hb Hlo Hhi Hin Ho.
  unfold findWavelength, m_bind, m_lift. rewrite Hq, Hb.
  f_equal. unfold findWavelength_search.
  rewrite Hlo, Hhi. cbn [mbind result_bind]. rewrite Hin. cbn [mbind result_bind negb].
  rewrite Ho. cbn [mbind result_bind].
  destruct orders as [|o1 [|o2 [|o3 rest]]]; reflexivity.
Qed.

End FindWavelength.

(** ** The Edlen iteration on optical wavelengths

    Bounds on the index and its variation for wavelengths of at least 3000
    Angstroms, the contraction of the iteration up to 7000 Angstroms, and
    the round trip through [vac2airESO]. *)
Section EdlenBounds.
Import conversions.

(** The reciprocal of a wavelength of at least 3000 Angstroms. *)
Lemma recip_bounds (x : Q) :
  3000 <= x -> x * / x == 1 /\ 0 < / x /\ 3000 * / x <= 1.
Proof.
  intros Hx.
  assert (Hpos : 0 < x) by lra.
  assert (E : x * / x == 1) by (apply Qmult_inv_r; lra).
  assert (Hi : 0 < / x) by (apply Qinv_lt_0_compat; exact Hpos).
  repeat split; try assumption. nra.
Qed.

Lemma s2_recip (x : Q) : ~ x == 0 -> (1e4 / x) ^ 2 == 100000000 * (/ x * / x).
Proof. intros Hx. rewrite lit_1e4. field. exact Hx. Qed.

Lemma s2_bounds (x : Q) : 3000 <= x -> 0 < (1e4 / x) ^ 2 /\ (1e4 / x) ^ 2 <= 12.
Proof.
  intros Hx. destruct (recip_bounds x Hx) as (E & Hp & Hb).
  rewrite s2_recip by lra. split; nra.
Qed.

Lemma K_edlen_le : K_edlen <= 0.0000010001.
Proof. vm_compute. discriminate. Qed.

Lemma inv_pos_bounds (d c : Q) : 0 < c -> c <= d -> 0 < / d /\ / d <= / c /\ d * / d == 1.
Proof.
  intros Hc Hd.
  assert (Hdpos : 0 < d) by lra.
  split; [apply Qinv_lt_0_compat; exact Hdpos|].
  split.
  - assert (E1 : d * / d == 1) by (apply Qmult_inv_r; lra).
    assert (E2 : c * / c == 1) by (apply Qmult_inv_r; lra).
    assert (0 < / d) by (apply Qinv_lt_0_compat; exact Hdpos).
    assert (0 < / c) by (apply Qinv_lt_0_compat; exact Hc).
    nra.
  - apply Qmult_inv_r; lra.
Qed.

(** [G_edlen] between the poles, for squared wavenumbers up to 12. *)
Lemma G_edlen_bounds (s2 : Q) : 0 <= s2 -> s2 <= 12 -> 0 < G_edlen s2 /\ G_edlen s2 <= 294.
Proof.
  intros H0 H12. unfold G_edlen.
  destruct (inv_pos_bounds (146 - s2) 134) as (Ha & Ha' & Ea); [lra | lra |].
  destruct (inv_pos_bounds (41 - s2) 29) as (Hb & Hb' & Eb); [lra | lra |].
  unfold Qdiv.
  assert (E134 : / 134 == 1 # 134) by reflexivity.
  assert (E29 : / 29 == 1 # 29) by reflexivity.
  rewrite E134 in Ha'. rewrite E29 in Hb'.
  split; nra.
Qed.

Lemma air_index_bounds (x : Q) :
  3000 <= x -> 1 < air_indexEdlen53 x /\ air_indexEdlen53 x <= 1.000295.
Proof.
  intros Hx. rewrite air_index_KG.
  destruct (s2_bounds x Hx) as [Hs0 Hs12].
  destruct (G_edlen_bounds ((1e4 / x) ^ 2)) as [Hg0 Hg]; [lra | lra |].
  pose proof K_edlen_pos. pose proof K_edlen_le. split; nra.
Qed.

(** The difference of [G_edlen] at two points, as a multiple of the
    difference of the points. *)
Lemma G_edlen_diff (s t : Q) :
  0 <= s -> s <= 12 -> 0 <= t -> t <= 12 ->
  exists H, 0 <= H /\ H <= 1.95 /\ G_edlen s - G_edlen t == (s - t) * H.
Proof.
  intros Hs0 Hs Ht0 Ht.
  destruct (inv_pos_bounds (146 - s) 134) as (Ha & Ha' & Ea); [lra | lra |].
  destruct (inv_pos_bounds (41 - s) 29) as (Hb & Hb' & Eb); [lra | lra |].
  destruct (inv_pos_bounds (146 - t) 134) as (Hc & Hc' & Ec); [lra | lra |].
  destruct (inv_pos_bounds (41 - t) 29) as (Hd & Hd' & Ed); [lra | lra |].
  assert (E134 : / 134 == 1 # 134) by reflexivity.
  assert (E29 : / 29 == 1 # 29) by reflexivity.
  rewrite E134 in Ha', Hc'. rewrite E29 in Hb', Hd'.
  exists (29498.1 * (/ (146 - s) * / (146 - t)) + 255.4 * (/ (41 - s) * / (41 - t))).
  split; [nra|]. split; [nra|].
  unfold G_edlen. field. repeat split; lra.
Qed.

(** The difference of the squared wavenumbers of two wavelengths. *)
Lemma s2_diff (x y : Q) :
  3000 <= x -> 3000 <= y ->
  exists C, 0 <= C /\ C <= 0.00741 /\
            (1e4 / x) ^ 2 - (1e4 / y) ^ 2 == (y - x) * C.
Proof.
  intros Hx Hy.
  destruct (recip_bounds x Hx) as (Ex & Hp & Hpb).
  destruct (recip_bounds y Hy) as (Ey & Hq & Hqb).
  exists (100000000 * ((/ x + / y) * (/ x * / y))).
  split; [nra|]. split.
  - assert (H1 : / x * / y <= (1 # 3000) * (1 # 3000)) by nra.
    assert (H2 : / x + / y <= 2 # 3000) by lra.
    assert (H3 : 0 <= / x * / y) by nra.
    assert (H4 : (/ x + / y) * (/ x * / y) <= (2 # 3000) * ((1 # 3000) * (1 # 3000))) by nra.
    lra.
  - rewrite !s2_recip by lra. field. split; lra.
Qed.

(** The index is Lipschitz on wavelengths of at least 3000 Angstroms. *)
Lemma air_index_diff (x y : Q) :
  3000 <= x -> 3000 <= y ->
  exists M, 0 <= M /\ M <= 0.0000000145 /\
            air_indexEdlen53 x - air_indexEdlen53 y == (y - x) * M.
Proof.
  intros Hx Hy.
  destruct (s2_bounds x Hx) as [Hsx0 Hsx]. destruct (s2_bounds y Hy) as [Hsy0 Hsy].
  destruct (s2_diff x y Hx Hy) as (C & HC0 & HC & EC).
  destruct (G_edlen_diff ((1e4 / x) ^ 2) ((1e4 / y) ^ 2)) as (H & HH0 & HH & EH);
    [lra | lra | lra | lra |].
  pose proof K_edlen_pos as HK0. pose proof K_edlen_le as HK.
  exists (K_edlen * (C * H)).
  assert (H1 : C * H <= 0.00741 * 1.95) by nra.
  assert (H2 : 0 <= C * H) by nra.
  split; [nra|]. split.
  - assert (H3 : K_edlen * (C * H) <= 0.0000010001 * (0.00741 * 1.95)) by nra.
    lra.
  - rewrite !air_index_KG.
    set (gx := G_edlen ((1e4 / x) ^ 2)) in *. set (gy := G_edlen ((1e4 / y) ^ 2)) in *.
    set (sx := (1e4 / x) ^ 2) in *. set (sy := (1e4 / y) ^ 2) in *.
    assert (E : K_edlen * gx + 1 - (K_edlen * gy + 1) == K_edlen * (gx - gy)) by ring.
    rewrite E, EH, EC. ring.
Qed.

Lemma air_index_lipschitz (x y : Q) :
  3000 <= x -> 3000 <= y ->
  Qabs (air_indexEdlen53 x - air_indexEdlen53 y) <= 0.0000000145 * Qabs (x - y).
Proof.
  intros Hx Hy. destruct (air_index_diff x y Hx Hy) as (M & HM0 & HM & E).
  rewrite E, Qabs_Qmult. rewrite (Qabs_pos M) by exact HM0.
  assert (Es : Qabs (y - x) == Qabs (x - y)).
  { rewrite <- (Qabs_opp (x - y)). apply Qabs_wd. ring. }
  rewrite Es. pose proof (Qabs_nonneg (x - y)). nra.
Qed.

End EdlenBounds.

Section EdlenIteration.
Import conversions.

Variable air : Q.
Hypothesis air_lo : 3000 <= air.
Hypothesis air_hi : air <= 7000.

Lemma iterate_ge (k : nat) : air <= iterate air k.
Proof.
  induction k as [|k IH]; cbn [iterate]; [lra|].
  destruct (air_index_bounds (iterate air k)) as [Hn _]; [lra|]. nra.
Qed.

Lemma iterate_first_step : Qabs (iterate air 0 - iterate air 1) <= 2.1.
Proof.
  cbn [iterate]. destruct (air_index_bounds air air_lo) as [Hn Hn'].
  rewrite Qabs_neg by nra.
  nra.
Qed.

(** Each pass shrinks the step by four orders of magnitude. *)
Lemma iterate_contracts (k : nat) :
  Qabs (iterate air (S k) - iterate air (S (S k)))
    <= 0.000102 * Qabs (iterate air k - iterate air (S k)).
Proof.
  change (iterate air (S (S k))) with (air * air_indexEdlen53 (iterate air (S k))).
  change (iterate air (S k)) with (air * air_indexEdlen53 (iterate air k)) at 1.
  set (x := iterate air k). set (y := iterate air (S k)).
  assert (E : air * air_indexEdlen53 x - air * air_indexEdlen53 y
              == air * (air_indexEdlen53 x - air_indexEdlen53 y)) by ring.
  rewrite E, Qabs_Qmult, (Qabs_pos air) by lra.
  pose proof (air_index_lipschitz x y) as HL.
  assert (Hx : 3000 <= x) by (pose proof (iterate_ge k); unfold x; lra).
  assert (Hy : 3000 <= y) by (pose proof (iterate_ge (S k)); unfold y; lra).
  specialize (HL Hx Hy).
  pose proof (Qabs_nonneg (x - y)) as H0.
  pose proof (Qabs_nonneg (air_indexEdlen53 x - air_indexEdlen53 y)) as H1.
  nra.
Qed.

(** The iteration converges within five passes. *)
Lemma converged_5 : converged air 5.
Proof.
  unfold converged. cbn [previous]. rewrite tolerance_value.
  pose proof iterate_first_step as H0.
  pose proof (iterate_contracts 0) as H1. pose proof (iterate_contracts 1) as H2.
  pose proof (iterate_contracts 2) as H3. pose proof (iterate_contracts 3) as H4.
  lra.
Qed.

Lemma air2vac_element_returns :
  exists j, (1 <= j <= 5)%nat /\ air2vac_element air = Return (iterate air j) /\
            converged air j.
Proof.
  destruct (air2vac_element_total air) as [[v Hv]|Hr].
  - apply air2vac_element_Return in Hv as (j & Hj & Hc & Hn & ->).
    exists j. split; [|split; [apply air2vac_element_Return; exists j; auto | exact Hc]].
    split.
    + destruct j; [|lia]. exfalso. apply (not_converged_0 air); [|exact Hc].
      rewrite tolerance_value, Qabs_pos by lra. lra.
    + destruct (le_lt_dec j 5) as [H5|H5]; [exact H5|].
      exfalso. apply (Hn 5%nat H5). exact converged_5.
  - apply air2vac_element_Raise in Hr as [_ Hn]. exfalso.
    apply (Hn 5%nat); [unfold num_iter; lia | exact converged_5].
Qed.

(** Dividing a converged iterate by its index gives the air wavelength
    back, well within the tolerance. *)
Lemma vac2air_of_converged (j : nat) :
  (1 <= j)%nat -> converged air j ->
  Qabs (iterate air j / air_indexEdlen53 (iterate air j) - air)
    <= 0.000102 * tolerance.
Proof.
  intros Hj Hc. destruct j as [|j]; [lia|]. unfold converged in Hc. cbn [previous] in Hc.
  change (iterate air (S j)) with (air * air_indexEdlen53 (iterate air j)) at 1.
  set (x := iterate air j) in *. set (y := iterate air (S j)) in *.
  assert (Hx : 3000 <= x) by (pose proof (iterate_ge j); unfold x; lra).
  assert (Hy : 3000 <= y) by (pose proof (iterate_ge (S j)); unfold y; lra).
  destruct (air_index_bounds y Hy) as [Hn _].
  destruct (inv_pos_bounds (air_indexEdlen53 y) 1) as (Hr & Hr' & Er); [lra | lra |].
  assert (E : air * air_indexEdlen53 x / air_indexEdlen53 y - air
              == (air * / air_indexEdlen53 y)
                 * (air_indexEdlen53 x - air_indexEdlen53 y)).
  { field. lra. }
  rewrite E, Qabs_Qmult.
  assert (E1 : / 1 == 1) by reflexivity. rewrite E1 in Hr'.
  assert (Hf0 : 0 <= air * / air_indexEdlen53 y) by nra.
  assert (Hf : air * / air_indexEdlen53 y <= 7000) by nra.
  rewrite (Qabs_pos _ Hf0).
  pose proof (air_index_lipschitz x y Hx Hy) as HL.
  pose proof (Qabs_nonneg (x - y)) as H0.
  pose proof (Qabs_nonneg (air_indexEdlen53 x - air_indexEdlen53 y)) as H1.
  assert (H2 : Qabs (air_indexEdlen53 x - air_indexEdlen53 y) <= 0.0000000145 * tolerance)
    by nra.
  rewrite tolerance_value in *. nra.
Qed.

End EdlenIteration.

(** ** Polynomials with integer coefficients *)
Section Polynomials.

Lemma zpeval_wd (p : list Z) (x y : Q) : x == y -> zpeval p x == zpeval p y.
Proof.
  intros H. induction p as [|c p IH]; cbn [zpeval]; [reflexivity|].
  rewrite IH, H. reflexivity.
Qed.

Lemma zpeval_add (p q : list Z) (x : Q) :
  zpeval (zpadd p q) x == zpeval p x + zpeval q x.
Proof.
  revert q. induction p as [|a p IH]; intros q; cbn [zpadd zpeval].
  - ring.
  - destruct q as [|b q]; cbn [zpeval]; [ring|].
    rewrite IH, inject_Z_plus. ring.
Qed.

Lemma zpeval_scale (c : Z) (p : list Z) (x : Q) :
  zpeval (zpscale c p) x == inject_Z c * zpeval p x.
Proof.
  induction p as [|a p IH]; cbn [zpscale map zpeval]; [ring|].
  fold (zpscale c p). rewrite IH, inject_Z_mult. ring.
Qed.

Lemma zpeval_mul (p q : list Z) (x : Q) :
  zpeval (zpmul p q) x == zpeval p x * zpeval q x.
Proof.
  induction p as [|a p IH]; cbn [zpmul zpeval]; [ring|].
  rewrite zpeval_add, zpeval_scale. cbn [zpeval]. rewrite IH.
  change (inject_Z 0) with 0. ring.
Qed.

Lemma zpeval_sub (p q : list Z) (x : Q) :
  zpeval (zpsub p q) x == zpeval p x - zpeval q x.
Proof.
  unfold zpsub. rewrite zpeval_add, zpeval_scale.
  change (inject_Z (-1)) with (-1). ring.
Qed.

Lemma zpeval_pow (p : list Z) (n : nat) (x : Q) :
  zpeval (zppow p n) x == qpow (zpeval p x) n.
Proof.
  induction n as [|n IH]; cbn [zppow qpow].
  - cbn [zpeval]. change (inject_Z 1) with 1. ring.
  - rewrite zpeval_mul, IH. reflexivity.
Qed.

Lemma qpow_pos (x : Q) (n : nat) : 0 < x -> 0 < qpow x n.
Proof.
  intros Hx. induction n as [|n IH]; cbn [qpow]; [reflexivity | nra].
Qed.

Lemma zhom_eval (p X Y : list Z) (t : Q) :
  ~ zpeval Y t == 0 ->
  zpeval (zhom p X Y) t
  == qpow (zpeval Y t) (pred (length p)) * zpeval p (zpeval X t / zpeval Y t).
Proof.
  intros HY. induction p as [|c p IH]; cbn [zhom zpeval length pred].
  - cbn [qpow]. ring.
  - rewrite zpeval_add, zpeval_scale, zpeval_pow, zpeval_mul, IH.
    destruct p as [|c' p]; cbn [length pred qpow].
    + cbn [zpeval]. field. exact HY.
    + field. exact HY.
Qed.

Lemma nonneg_coefficients_eval (p : list Z) (t : Q) :
  forallb (Z.leb 0) p = true -> 0 <= t -> 0 <= zpeval p t.
Proof.
  intros Hp Ht. induction p as [|c p IH]; cbn [zpeval]; [lra|].
  cbn [forallb] in Hp. apply andb_true_iff in Hp as [Hc Hp].
  apply Z.leb_le in Hc. specialize (IH Hp).
  assert (0 <= inject_Z c) by (change 0 with (inject_Z 0); rewrite <- Zle_Qle; exact Hc).
  nra.
Qed.

Lemma positive_coefficients_eval (p : list Z) (t : Q) :
  positive_coefficients p = true -> 0 <= t -> 0 < zpeval p t.
Proof.
  intros Hp Ht. destruct p as [|c p]; [discriminate|].
  cbn [positive_coefficients] in Hp. apply andb_true_iff in Hp as [Hc Hp].
  apply Z.ltb_lt in Hc. cbn [zpeval].
  pose proof (nonneg_coefficients_eval p t Hp Ht) as H0.
  assert (0 < inject_Z c) by (change 0 with (inject_Z 0); rewrite <- Zlt_Qlt; exact Hc).
  nra.
Qed.

Lemma positive_on_sound (p : list Z) (a b d : Z) (u : Q) :
  positive_on p a b d = true ->
  (0 < d)%Z ->
  inject_Z a <= inject_Z d * u -> inject_Z d * u < inject_Z b ->
  0 < zpeval p u.
Proof.
  intros Hp Hd Ha Hb. unfold positive_on in Hp.
  set (A := inject_Z a) in *. set (B := inject_Z b) in *. set (D := inject_Z d) in *.
  assert (HD : 0 < D) by (unfold D; change 0 with (inject_Z 0); rewrite <- Zlt_Qlt; exact Hd).
  set (t := (D * u - A) / (B - D * u)).
  assert (Ht : 0 <= t).
  { unfold t. apply Qle_shift_div_l; lra. }
  pose proof (positive_coefficients_eval _ t Hp Ht) as Hpos.
  assert (HY : zpeval [d; d] t == D * (1 + t)).
  { cbn [zpeval]. fold D. ring. }
  assert (HYpos : 0 < zpeval [d; d] t) by (rewrite HY; nra).
  rewrite zhom_eval in Hpos by lra.
  assert (Hu : zpeval [a; b] t / zpeval [d; d] t == u).
  { rewrite HY. cbn [zpeval]. fold A B. unfold t. field. split; lra. }
  rewrite (zpeval_wd p _ u Hu) in Hpos.
  pose proof (qpow_pos _ (pred (length p)) HYpos) as Hq.
  destruct (Qlt_le_dec 0 (zpeval p u)) as [H|H]; [exact H|].
  exfalso. nra.
Qed.

End Polynomials.

(** ** The Morton round trip *)
Section MortonIndices.
Import conversions.

Lemma vac2airMorton00_index (x : Q) :
  vac2airMorton00 x = x / morton_index_vac ((1e4 / x) ^ 2).
Proof. reflexivity. Qed.

Lemma air2vacMortonIAU_index (a : Q) :
  air2vacMortonIAU a = a * morton_index_air ((1e4 / a) ^ 2).
Proof. reflexivity. Qed.

#[global] Instance morton_index_air_wd : Proper (Qeq ==> Qeq) morton_index_air.
Proof. intros x y H. unfold morton_index_air. rewrite H. reflexivity. Qed.

End MortonIndices.

Section MortonAlgebra.
Import conversions.

Variable u : Q.
Hypothesis u_lo : 2.09 <= u.
Hypothesis u_hi : u < 7.

Let vD1 := zpeval morton_D1 u.
Let vN1 := zpeval morton_N1 u.
Let vF1 := zpeval morton_F1 u.
Let vF2 := zpeval morton_F2 u.
Let vN2 := zpeval morton_N2 u.
Let vNum := zpeval morton_Num u.
Let vDen := zpeval morton_Den u.

Lemma range_scaled : inject_Z 209 <= inject_Z 100 * u /\ inject_Z 100 * u < inject_Z 700.
Proof.
  change (inject_Z 209) with 209. change (inject_Z 100) with 100.
  change (inject_Z 700) with 700. split; lra.
Qed.

Lemma vD1_value : vD1 == 10 * ((130 - u) * (38.9 - u)).
Proof.
  unfold vD1, morton_D1. rewrite zpeval_mul. cbn [zpeval morton_d1 morton_d2].
  change (inject_Z 130) with 130. change (inject_Z (-1)) with (-1).
  change (inject_Z 389) with 389. change (inject_Z (-10)) with (-10). ring.
Qed.

Lemma vD1_pos : 0 < vD1.
Proof. rewrite vD1_value. nra. Qed.

Lemma vN1_value : vN1 == 10000000000 * morton_index_vac u * vD1.
Proof.
  unfold vN1, morton_N1. rewrite !zpeval_add, !zpeval_scale. fold vD1.
  rewrite vD1_value. cbn [zpeval morton_d1 morton_d2].
  change (inject_Z 130) with 130. change (inject_Z (-1)) with (-1).
  change (inject_Z 389) with 389. change (inject_Z (-10)) with (-10).
  change (inject_Z 10000834254) with 10000834254.
  change (inject_Z 240614700) with 240614700.
  change (inject_Z 15998000) with 15998000.
  unfold morton_index_vac. field. split; lra.
Qed.

Lemma vN1_pos : 0 < vN1.
Proof.
  apply (positive_on_sound morton_N1 209 700 100); [vm_compute; reflexivity | lia | |];
    apply range_scaled.
Qed.

Lemma vF1_pos : 0 < vF1.
Proof.
  apply (positive_on_sound morton_F1 209 700 100); [vm_compute; reflexivity | lia | |];
    apply range_scaled.
Qed.

Lemma vF2_pos : 0 < vF2.
Proof.
  apply (positive_on_sound morton_F2 209 700 100); [vm_compute; reflexivity | lia | |];
    apply range_scaled.
Qed.

Lemma vF1_value : vF1 == 13010659245220000000000 * (vD1 * vD1) - u * (vN1 * vN1).
Proof.
  unfold vF1, morton_F1. rewrite zpeval_sub, zpeval_scale, !zpeval_mul. fold vD1 vN1.
  cbn [zpeval]. change (inject_Z 0) with 0. change (inject_Z 1) with 1.
  change (inject_Z (1301065924522 * 10 ^ 10)) with 13010659245220000000000. ring.
Qed.

Lemma vF2_value : vF2 == 3892568793293000000000 * (vD1 * vD1) - u * (vN1 * vN1).
Proof.
  unfold vF2, morton_F2. rewrite zpeval_sub, zpeval_scale, !zpeval_mul. fold vD1 vN1.
  cbn [zpeval]. change (inject_Z 0) with 0. change (inject_Z 1) with 1.
  change (inject_Z (3892568793293 * 10 ^ 9)) with 3892568793293000000000. ring.
Qed.

Lemma vN2_value :
  vN2 == 100008336624212083 * (vF1 * vF2)
         + 240892686996800000000000000000000000 * (vD1 * vD1 * vF2)
         + 1599740894897000000000000000000000 * (vD1 * vD1 * vF1).
Proof.
  unfold vN2, morton_N2. rewrite !zpeval_add, !zpeval_scale, !zpeval_mul. fold vD1 vF1 vF2.
  change (inject_Z 100008336624212083) with 100008336624212083.
  change (inject_Z (2408926869968 * 10 ^ 23)) with 240892686996800000000000000000000000.
  change (inject_Z (1599740894897 * 10 ^ 21)) with 1599740894897000000000000000000000.
  ring.
Qed.

Lemma vNum_value : vNum == vN2 * vD1 - 10000000 * (vN1 * (vF1 * vF2)).
Proof.
  unfold vNum, morton_Num. rewrite zpeval_sub, zpeval_scale, !zpeval_mul. fold vD1 vN1 vF1 vF2 vN2.
  change (inject_Z (10 ^ 7)) with 10000000. ring.
Qed.

Lemma vDen_value : vDen == vF1 * vF2 * vN1.
Proof.
  unfold vDen, morton_Den. rewrite !zpeval_mul. fold vN1 vF1 vF2. reflexivity.
Qed.

(** The index of [vac2airMorton00], and the squared wavenumber in air. *)
Lemma morton_index_vac_value : morton_index_vac u == vN1 / (10000000000 * vD1).
Proof.
  rewrite vN1_value. pose proof vD1_pos. field. lra.
Qed.

Lemma morton_index_vac_pos : 0 < morton_index_vac u.
Proof.
  rewrite morton_index_vac_value. pose proof vD1_pos. pose proof vN1_pos.
  apply Qlt_shift_div_l; lra.
Qed.

Lemma morton_index_air_value :
  morton_index_air (u * (morton_index_vac u * morton_index_vac u))
  == vN2 / (100000000000000000 * (vF1 * vF2)).
Proof.
  pose proof vD1_pos as HD. pose proof vN1_pos as HN.
  pose proof vF1_pos as HF1. pose proof vF2_pos as HF2.
  assert (E1 : 130.1065924522 - u * (morton_index_vac u * morton_index_vac u)
               == vF1 / (100000000000000000000 * (vD1 * vD1))).
  { rewrite vF1_value, morton_index_vac_value. field. lra. }
  assert (E2 : 38.92568793293 - u * (morton_index_vac u * morton_index_vac u)
               == vF2 / (100000000000000000000 * (vD1 * vD1))).
  { rewrite vF2_value, morton_index_vac_value. field. lra. }
  unfold morton_index_air. rewrite E1, E2, vN2_value.
  field. repeat split; lra.
Qed.

End MortonAlgebra.

Section MortonRoundTrip.
Import conversions.

Variable x : Q.
Hypothesis x_lo : 3780 <= x.
Hypothesis x_hi : x <= 6910.

Let u := (1e4 / x) ^ 2.

Lemma morton_u_value : u == 100000000 / (x * x).
Proof. unfold u. rewrite lit_1e4. field. lra. Qed.

Lemma morton_u_range : 2.09 <= u /\ u < 7.
Proof.
  rewrite morton_u_value. split.
  - apply Qle_shift_div_l; nra.
  - apply Qlt_shift_div_r; nra.
Qed.

Lemma morton_roundtrip_value :
  air2vacMortonIAU (vac2airMorton00 x) - x
  == x * zpeval morton_Num u / (10000000 * zpeval morton_Den u).
Proof.
  destruct morton_u_range as [Hlo Hhi].
  pose proof (vD1_pos u Hhi) as HD. pose proof (vN1_pos u Hlo Hhi) as HN.
  pose proof (vF1_pos u Hlo Hhi) as HF1. pose proof (vF2_pos u Hlo Hhi) as HF2.
  pose proof (morton_index_vac_pos u Hlo Hhi) as Hn.
  rewrite air2vacMortonIAU_index, vac2airMorton00_index. fold u.
  assert (Ew : (1e4 / (x / morton_index_vac u)) ^ 2
               == u * (morton_index_vac u * morton_index_vac u)).
  { pose proof morton_u_value as Eu.
    remember (morton_index_vac u) as n eqn:En. clear En.
    rewrite lit_1e4, Eu. field. split; lra. }
  rewrite Ew, (morton_index_air_value u Hlo Hhi).
  rewrite (vNum_value u), (vDen_value u).
  rewrite (morton_index_vac_value u Hhi).
  field. repeat split; lra.
Qed.

Lemma morton_above_value (e xmax : Z) :
  zpeval (morton_above e xmax) u
  == inject_Z e * zpeval morton_Den u - inject_Z (100 * xmax) * zpeval morton_Num u.
Proof. unfold morton_above. rewrite zpeval_sub, !zpeval_scale. reflexivity. Qed.

Lemma morton_below_value (e xmax : Z) :
  zpeval (morton_below e xmax) u
  == inject_Z e * zpeval morton_Den u + inject_Z (100 * xmax) * zpeval morton_Num u.
Proof. unfold morton_below. rewrite zpeval_add, !zpeval_scale. reflexivity. Qed.

(** From the signs of the two polynomials on a piece of the range to the
    bound on the round trip. *)
Lemma morton_roundtrip_piece (xmax a b : Z) :
  positive_on (morton_above 10 xmax) a b 100 = true ->
  positive_on (morton_below 10 xmax) a b 100 = true ->
  x <= inject_Z xmax ->
  inject_Z a <= 100 * u -> 100 * u < inject_Z b ->
  Qabs (air2vacMortonIAU (vac2airMorton00 x) - x) <= 0.00000001.
Proof.
  intros Hp Hm Hx Ha Hb.
  destruct morton_u_range as [Hlo Hhi].
  pose proof (vN1_pos u Hlo Hhi) as HN.
  pose proof (vF1_pos u Hlo Hhi) as HF1. pose proof (vF2_pos u Hlo Hhi) as HF2.
  assert (HDen : 0 < zpeval morton_Den u).
  { rewrite (vDen_value u). repeat apply Qmult_lt_0_compat; assumption. }
  pose proof (positive_on_sound _ a b 100 u Hp eq_refl Ha Hb) as H1.
  pose proof (positive_on_sound _ a b 100 u Hm eq_refl Ha Hb) as H2.
  rewrite morton_above_value in H1. rewrite morton_below_value in H2.
  rewrite inject_Z_mult in H1, H2.
  change (inject_Z 10) with 10 in *. change (inject_Z 100) with 100 in *.
  rewrite morton_roundtrip_value.
  set (N := zpeval morton_Num u) in *. set (D := zpeval morton_Den u) in *.
  set (X := inject_Z xmax) in *.
  apply Qabs_Qle_condition. split.
  - apply Qle_shift_div_l; [lra|].
    destruct (Qlt_le_dec N 0) as [HNeg|HPos]; nra.
  - apply Qle_shift_div_r; [lra|].
    destruct (Qlt_le_dec N 0) as [HNeg|HPos]; nra.
Qed.

Lemma morton_roundtrip_bound :
  Qabs (air2vacMortonIAU (vac2airMorton00 x) - x) <= 0.00000001.
Proof.
  destruct morton_u_range as [Hlo Hhi].
  pose proof morton_u_value as Eu.
  destruct (Qlt_le_dec x 5000) as [Hx|Hx].
  - apply (morton_roundtrip_piece 5000 400 700).
    + vm_compute. reflexivity.
    + vm_compute. reflexivity.
    + change (inject_Z 5000) with 5000. lra.
    + change (inject_Z 400) with 400. rewrite Eu.
      assert (E : 100 * (100000000 / (x * x)) == 10000000000 / (x * x)) by (field; lra).
      rewrite E. apply Qle_shift_div_l; nra.
    + change (inject_Z 700) with 700. lra.
  - apply (morton_roundtrip_piece 6910 209 401).
    + vm_compute. reflexivity.
    + vm_compute. reflexivity.
    + change (inject_Z 6910) with 6910. lra.
    + change (inject_Z 209) with 209. lra.
    + change (inject_Z 401) with 401. rewrite Eu.
      assert (E : 100 * (100000000 / (x * x)) == 10000000000 / (x * x)) by (field; lra).
      rewrite E. apply Qlt_shift_div_r; nra.
Qed.

End MortonRoundTrip.

(** ** The ESO round trip on arrays *)
Section EsoRoundTrip.
Import conversions.

Lemma Forall2_with_Forall {A B : Type} (P : A -> Prop) (R R' : A -> B -> Prop)
    (l : list A) (k : list B) :
  Forall P l -> Forall2 R l k ->
  (forall x y, P x -> R x y -> R' x y) ->
  Forall2 R' l k.
Proof.
  intros HP HR Himp. induction HR as [|x y l k Hxy HR IH]; [constructor|].
  inversion HP as [|? ? Hx HP']; subst.
  constructor; [apply Himp; assumption | apply IH; exact HP'].
Qed.

Lemma Forall2_exists {A B : Type} (R : A -> B -> Prop) (l : list A) :
  Forall (fun x => exists y, R x y) l -> exists k, Forall2 R l k.
Proof.
  induction l as [|x l IH]; intros H.
  - exists []. constructor.
  - inversion H as [|? ? [y Hy] Hl]; subst.
    destruct (IH Hl) as [k Hk]. exists (y :: k). constructor; assumption.
Qed.

Lemma angstrom_factor : base_value u.angstrom / base_value u.angstrom == 1.
Proof. reflexivity. Qed.

Lemma to_angstrom_angstrom (x : Q) : to_angstrom u.angstrom x == x.
Proof. unfold to_angstrom. rewrite angstrom_factor. ring. Qed.

Lemma from_angstrom_angstrom (x : Q) : from_angstrom u.angstrom x == x.
Proof. unfold from_angstrom. rewrite angstrom_factor. ring. Qed.

(** One element through [air2vacESO] and [vac2airESO], in Angstroms. *)
Lemma eso_roundtrip_element (x v : Q) :
  3000 <= x -> x <= 7000 ->
  air2vac_element (to_angstrom u.angstrom x) = Return v ->
  let r := from_angstrom u.angstrom v * (base_value u.angstrom / base_value u.angstrom) in
  Qabs (r / air_indexEdlen53 r - x) <= tolerance.
Proof.
  intros Hlo Hhi Hv r.
  set (air := to_angstrom u.angstrom x) in *.
  assert (Ea : air == x) by apply to_angstrom_angstrom.
  assert (Hlo' : 3000 <= air) by (rewrite Ea; exact Hlo).
  assert (Hhi' : air <= 7000) by (rewrite Ea; exact Hhi).
  apply air2vac_element_Return in Hv as (j & Hj & Hc & Hn & ->).
  assert (Hj1 : (1 <= j)%nat).
  { destruct j; [|lia]. exfalso. apply (not_converged_0 air); [|exact Hc].
    rewrite tolerance_value, Qabs_pos by lra. lra. }
  assert (Er : r == iterate air j).
  { unfold r. rewrite angstrom_factor, from_angstrom_angstrom. ring. }
  pose proof (vac2air_of_converged air Hlo' Hhi' j Hj1 Hc) as Hb.
  assert (E : r / air_indexEdlen53 r - x
              == iterate air j / air_indexEdlen53 (iterate air j) - air).
  { rewrite Er. apply Qplus_comp; [reflexivity|]. apply Qopp_comp. symmetry. exact Ea. }
  rewrite E. rewrite tolerance_value in *. lra.
Qed.

(** [air2vacESO] returns on an array of optical wavelengths in Angstroms,
    and [vac2airESO] takes the result back to within the tolerance. *)
Lemma eso_roundtrip_array (a : unyt_array) :
  arr_units a = u.angstrom ->
  (ndim (arr_data a) = 1 \/ ndim (arr_data a) = 2)%nat ->
  ndarray_wf (arr_data a) ->
  Forall (fun x => 3000 <= x /\ x <= 7000) (flat (arr_data a)) ->
  exists vac back,
    air2vacESO a = Return vac /\
    vac2airESO (WUnytArray vac) = Return (WUnytArray back) /\
    shape (arr_data back) = shape (arr_data a) /\
    arr_units back = u.angstrom /\
    Forall2 (fun x y => Qabs (y - x) <= tolerance)
            (flat (arr_data a)) (flat (arr_data back)).
Proof.
  intros Hun Hnd Hwf Hrange.
  assert (Hdim : unit_dims (arr_units a) = u.length) by (rewrite Hun; reflexivity).
  destruct (Forall2_exists
              (fun x v => air2vac_element (to_angstrom u.angstrom x) = Return v)
              (flat (arr_data a))) as [vs Hvs].
  { eapply Forall_impl; [exact Hrange|]. intros x [Hlo Hhi]. cbv beta.
    destruct (air2vac_element_returns (to_angstrom u.angstrom x)) as (j & _ & Hr & _).
    - rewrite to_angstrom_angstrom. exact Hlo.
    - rewrite to_angstrom_angstrom. exact Hhi.
    - eauto. }
  assert (Hfor : for_elements (map (to_angstrom (arr_units a)) (flat (arr_data a))) []
                 = Return vs).
  { apply for_elements_Return. exists vs. split; [reflexivity|].
    rewrite Hun. apply Forall2_fmap_l. exact Hvs. }
  rewrite (air2vacESO_eq a Hnd Hwf Hdim), Hfor, Hun.
  eexists. eexists. split; [reflexivity|].
  unfold vac2airESO. cbn [arr_units].
  rewrite array_to_same_dims by reflexivity.
  cbn [mbind result_bind arr_data arr_units shape flat].
  split; [reflexivity|]. cbn [arr_data arr_units map_ndarray shape flat].
  split; [reflexivity|]. split; [reflexivity|].
  apply Forall2_fmap_r, Forall2_fmap_r, Forall2_fmap_r.
  apply (Forall2_with_Forall _ _ _ _ _ Hrange Hvs).
  intros x v [Hlo Hhi] Hv. cbv beta.
  apply (eso_roundtrip_element x v Hlo Hhi Hv).
Qed.

End EsoRoundTrip.

(** * The claims *)

Section Claims_air2vacESO.
Import conversions.

(** C1, as stated, fails for an air wavelength no larger than the
    tolerance: the loop body is never entered, the input is returned as it
    is, and it is not [air * n(v_prev)] for any [v_prev] within the
    tolerance of it.  Here for the 1-D array holding 1e-12 Angstroms. *)
Lemma air2vacESO_tiny_wavelength_not_fixed_point :
  let a := mk_array (mk_ndarray [1%nat] [0.000000000001]) u.angstrom in
  exists res r,
    air2vacESO a = Return res /\ flat (arr_data res) = [r] /\
    ~ exists v v_prev,
        r == from_angstrom u.angstrom v /\
        Qabs (v_prev - v) <= tolerance /\
        v == to_angstrom u.angstrom 0.000000000001 * air_indexEdlen53 v_prev.
Proof.
  cbv zeta. eexists. eexists. split; [vm_compute; reflexivity|].
  split; [reflexivity|].
  intros (v & v_prev & Hr & Hd & Hv).
  assert (Ev : v == 0.000000000001).
  { unfold from_angstrom in Hr.
    assert (E : base_value u.angstrom / base_value u.angstrom == 1) by reflexivity.
    rewrite E in Hr. rewrite Qmult_1_r in Hr. rewrite <- Hr. reflexivity. }
  assert (Ea : to_angstrom u.angstrom 0.000000000001 == 0.000000000001) by reflexivity.
  rewrite Ea, Ev in Hv. rewrite Ev, tolerance_value in Hd.
  apply (air_index_near_zero v_prev).
  - apply Qabs_Qle_condition in Hd. apply Qabs_Qle_condition. lra.
  - nra.
Qed.

(** C1 (amended).  For a well-formed 1-D or 2-D array, what [air2vacESO]
    returns has the shape and the units of the input, and each element is,
    converted back from Angstroms, the iterate [v] of [new = air * n(new)]
    after [j] passes of the loop body (at most 100), where [j] is the first
    number of passes after which [v] differs from the iterate [v_prev]
    before it by at most the tolerance.  When the air wavelength exceeds
    the tolerance in magnitude the body runs at least once, and
    [v = air * n(v_prev)]; otherwise the body is not entered and [v] is the
    input, with [v_prev = 0].  And [air2vacESO] does return, for units of
    length, whenever every element reaches the tolerance within 100
    passes. *)
Theorem air2vacESO_fixed_point (a : unyt_array) :
  (ndim (arr_data a) = 1 \/ ndim (arr_data a) = 2)%nat ->
  ndarray_wf (arr_data a) ->
  (forall res,
     air2vacESO a = Return res ->
     shape (arr_data res) = shape (arr_data a) /\
     arr_units res = arr_units a /\
     Forall2
       (fun x r =>
          let air := to_angstrom (arr_units a) x in
          exists j,
            let v := iterate air j in
            let v_prev := previous air j in
            (j <= num_iter)%nat /\
            r = from_angstrom (arr_units a) v /\
            Qabs (v_prev - v) <= tolerance /\
            (forall i, (i < j)%nat ->
               tolerance < Qabs (previous air i - iterate air i)) /\
            (tolerance < Qabs air ->
               (1 <= j)%nat /\ v = air * air_indexEdlen53 v_prev) /\
            (Qabs air <= tolerance -> j = 0%nat /\ v = air /\ v_prev = 0))
       (flat (arr_data a)) (flat (arr_data res))) /\
  (unit_dims (arr_units a) = u.length ->
   Forall (fun x => exists k, (k <= num_iter)%nat /\
                              converged (to_angstrom (arr_units a) x) k)
          (flat (arr_data a)) ->
   exists res, air2vacESO a = Return res).
Proof.
  intros Hnd Hwf. split.
  - intros res Hres.
    destruct (air2vacESO_Return a res Hnd Hwf Hres) as (Hsh & Hun & HF).
    split; [exact Hsh|]. split; [exact Hun|].
    eapply Forall2_impl; [exact HF|].
    intros x r (j & Hj & -> & Hc & Hn & Hbig & Hsmall). cbv zeta.
    exists j. split; [exact Hj|]. split; [reflexivity|]. split; [exact Hc|].
    split; [|split].
    + intros i Hi. apply Qnot_le_lt. exact (Hn i Hi).
    + intros Htol. split; [|exact (Hbig Htol)].
      destruct j as [|j]; [|lia]. exfalso. apply (not_converged_0 _ Htol Hc).
    + intros Htol. rewrite (Hsmall Htol). repeat split; reflexivity.
  - intros Hdim Hall.
    rewrite (air2vacESO_eq a Hnd Hwf Hdim).
    destruct (for_elements _ []) as [vs|e] eqn:E; [eexists; reflexivity|].
    exfalso. apply for_elements_Raise in E as [_ Hex].
    apply Exists_exists in Hex as (air & Hin & Hn).
    apply list_elem_of_fmap in Hin as (x & -> & Hx).
    rewrite Forall_forall in Hall. destruct (Hall x Hx) as (k & Hk & Hc).
    apply (Hn k Hk Hc).
Qed.

Lemma air2vacESO_fixed_point_witness :
  let a := mk_array (mk_ndarray [1%nat; 2%nat] [0; 0.000000000001]) u.nm in
  exists res, air2vacESO a = Return res.
Proof.
  cbv zeta.
  refine (proj2 (air2vacESO_fixed_point
                   (mk_array (mk_ndarray [1%nat; 2%nat] [0; 0.000000000001]) u.nm)
                   _ _) _ _).
  - right. reflexivity.
  - reflexivity.
  - reflexivity.
  - cbn [flat arr_data arr_units]. repeat constructor.
    + exists 0%nat. split; [lia|]. vm_compute. discriminate.
    + exists 1%nat. split; [unfold num_iter; lia|]. vm_compute. discriminate.
Defined.

(** C6.  On a well-formed 1-D or 2-D array of lengths, [air2vacESO] raises
    the [RuntimeError] 'Max number of iterations exceeded!' exactly when,
    for some element, the iterates have not converged after any number of
    passes up to [num_iter] = 100 (so that the body runs a 101st time); it
    returns exactly when every element converges within 100 passes; and it
    does one or the other. *)
Theorem air2vacESO_max_iterations (a : unyt_array) :
  (ndim (arr_data a) = 1 \/ ndim (arr_data a) = 2)%nat ->
  ndarray_wf (arr_data a) ->
  unit_dims (arr_units a) = u.length ->
  let airs := map (to_angstrom (arr_units a)) (flat (arr_data a)) in
  (air2vacESO a = Raise max_iter_exn <->
     Exists (fun air => forall k, (k <= num_iter)%nat -> ~ converged air k) airs) /\
  (is_Return (air2vacESO a) <->
     Forall (fun air => exists k, (k <= num_iter)%nat /\ converged air k) airs) /\
  (is_Return (air2vacESO a) \/ air2vacESO a = Raise max_iter_exn).
Proof.
  intros Hnd Hwf Hdim airs. rewrite (air2vacESO_eq a Hnd Hwf Hdim). fold airs.
  destruct (for_elements airs []) as [vs|e] eqn:E.
  - apply for_elements_Return in E as (vs' & _ & HF).
    assert (Hall : Forall (fun air => exists k, (k <= num_iter)%nat /\ converged air k) airs).
    { apply Forall_forall. intros air Hin.
      apply list_elem_of_lookup in Hin as [i Hi].
      destruct (Forall2_lookup_l _ _ _ _ _ HF Hi) as (v & _ & Hv).
      apply air2vac_element_Return in Hv as (j & Hj & Hc & _). eauto. }
    split; [|split].
    + split; [discriminate|]. intros Hex. exfalso.
      apply Exists_exists in Hex as (air & Hin & Hn).
      rewrite Forall_forall in Hall. destruct (Hall air Hin) as (k & Hk & Hc).
      apply (Hn k Hk Hc).
    + split; [intros _; exact Hall | intros _; exact I].
    + left. exact I.
  - apply for_elements_Raise in E as [-> Hex].
    split; [|split].
    + split; [intros _; exact Hex | reflexivity].
    + split; [intros []|]. intros Hall.
      apply Exists_exists in Hex as (air & Hin & Hn).
      rewrite Forall_forall in Hall. destruct (Hall air Hin) as (k & Hk & Hc).
      apply (Hn k Hk Hc).
    + right. reflexivity.
Qed.

Lemma air2vacESO_max_iterations_witness :
  let a := mk_array (mk_ndarray [1%nat; 2%nat] [0; 0.000000000001]) u.nm in
  is_Return (air2vacESO a).
Proof.
  cbv zeta.
  apply (air2vacESO_max_iterations
           (mk_array (mk_ndarray [1%nat; 2%nat] [0; 0.000000000001]) u.nm)).
  - right. reflexivity.
  - reflexivity.
  - reflexivity.
  - cbn [map flat arr_data arr_units]. repeat constructor.
    + exists 0%nat. split; [lia|]. vm_compute. discriminate.
    + exists 1%nat. split; [unfold num_iter; lia|]. vm_compute. discriminate.
Defined.

End Claims_air2vacESO.

Section Claims_transitions.
Import transition_line transition_pair miscellaneous.





(** C5, as stated, fails: [Transition.__init__] checks neither the sign of
    the wavelength nor the ionization state.  A wavelength of -500 nm and
    the state 0 are stored. *)
Lemma Transition_init_accepts_out_of_domain :
  exists t,
    Transition_init 0 (PQuantity (mk_quantity (-500) u.nm)) (PInt 26) (PInt 0) = Return t /\
    value (wavelength t) < 0 /\ (ionizationState t < 1)%Z.
Proof.
  eexists. split; [vm_compute; reflexivity|]. split; reflexivity.
Qed.

(** C5 (amended).  A constructed [Transition] stores what it was given:
    the wavelength converted to nanometers, positive exactly when the
    given value is (for a unit with a positive factor), and the ionization
    state as [int(ionizationState)], hence the given integer itself, or the
    number 1 to 10 of a Roman numeral. *)
Theorem Transition_init_stores_given (self_id : nat) (w e s : py_obj)
    (t : Transition) :
  Transition_init self_id w e s = Return t ->
  exists q,
    w = PQuantity q /\
    wavelength t
      = mk_quantity (value q * (base_value (units q) / base_value u.nm)) u.nm /\
    (0 < base_value (units q) -> (0 < value (wavelength t) <-> 0 < value q)) /\
    init_ionizationState s = Return (ionizationState t) /\
    (forall z, s = PInt z -> ionizationState t = z) /\
    (forall str, s = PStr str -> int_of_string str = None ->
                 (1 <= ionizationState t <= 10)%Z).
Proof.
  intros H. apply Transition_init_Return in H as (q' & an & sym & ion & Hw & He & Hs & ->).
  destruct w as [| | | |q]; try discriminate Hw.
  exists q. split; [reflexivity|]. cbn [wavelength ionizationState].
  cbn [wavelength_to_nm] in Hw.
  assert (Hq : q' = mk_quantity (value q * (base_value (units q) / base_value u.nm)) u.nm).
  { destruct (decide (unit_dims (units q) = unit_dims u.nm)) as [Hd|Hd].
    - rewrite (quantity_to_same_dims q u.nm Hd) in Hw. congruence.
    - rewrite (quantity_to_other_dims q u.nm Hd) in Hw. discriminate. }
  split; [exact Hq|]. split.
  { intros Hb. rewrite Hq. cbn [value].
    assert (Hf : 0 < base_value (units q) / base_value u.nm).
    { apply Qlt_shift_div_l; [reflexivity|]. lra. }
    split; intros Hpos; nra. }
  split; [exact Hs|]. split.
  - intros z ->. rewrite init_ionizationState_int in Hs. congruence.
  - intros str -> Hn. apply (init_ionizationState_roman str ion Hn Hs).
Qed.

Lemma Transition_init_stores_given_witness :
  exists t,
    Transition_init 7 (PQuantity (mk_quantity 5000 u.angstrom)) (PStr "Fe") (PStr "II")
      = Return t /\
    0 < value (wavelength t) /\ (1 <= ionizationState t <= 10)%Z.
Proof.
  eexists. split; [vm_compute; reflexivity|].
  destruct (Transition_init_stores_given 7
              (PQuantity (mk_quantity 5000 u.angstrom)) (PStr "Fe") (PStr "II")
              _ eq_refl) as (q & Hq & _ & Hpos & _ & _ & Hroman).
  injection Hq as <-. split.
  - apply Hpos; reflexivity.
  - apply (Hroman "II"); reflexivity.
Defined.

(** C7.  A wavelength without units (anything but a quantity) makes
    [Transition.__init__] raise [AttributeError], and a quantity whose
    units are not lengths makes it raise [UnitConversionError], whatever
    the other arguments, so no object is produced; a wavelength with
    units of length is converted to nanometers, and that value is stored
    when the rest of the initialisation succeeds. *)
Theorem Transition_init_wavelength_units (self_id : nat) (w e s : py_obj) :
  ((forall q, w <> PQuantity q) ->
   Transition_init self_id w e s
     = raise AttributeError "object has no attribute 'to'") /\
  (forall q, w = PQuantity q -> unit_dims (units q) <> u.length ->
     Transition_init self_id w e s
       = raise UnitConversionError "cannot convert between units") /\
  (forall q, w = PQuantity q -> unit_dims (units q) = u.length ->
     Transition_init self_id w e s =
       ('(atomicNumber, atomicSymbol) ← init_element e;
        ion ← init_ionizationState s;
        Return (mk_Transition self_id
                  (mk_quantity (value q * (base_value (units q) / base_value u.nm)) u.nm)
                  atomicNumber atomicSymbol ion None None None None None None))).
Proof.
  split; [apply Transition_init_no_units|]. split.
  - intros q -> Hd. unfold Transition_init. cbn [wavelength_to_nm].
    rewrite quantity_to_other_dims by exact Hd. reflexivity.
  - intros q -> Hd. unfold Transition_init. cbn [wavelength_to_nm].
    rewrite quantity_to_same_dims by exact Hd.
    rewrite try_except_Return. reflexivity.
Qed.

Lemma Transition_init_wavelength_units_witness :
  Transition_init 3 (PFloat 500) (PInt 26) (PInt 1)
    = raise AttributeError "object has no attribute 'to'".
Proof.
  apply (Transition_init_wavelength_units 3 (PFloat 500) (PInt 26) (PInt 1)).
  intros q Hq. discriminate Hq.
Defined.

(** C10, as stated, fails: transitions with negative wavelengths can be
    constructed and paired, and the separation of the pair of -1 nm and
    -2 nm is negative. *)
Lemma velocitySeparation_negative :
  exists t1 t2 p v,
    Transition_init 1 (PQuantity (mk_quantity (-1) u.nm)) (PInt 26) (PInt 1) = Return t1 /\
    Transition_init 2 (PQuantity (mk_quantity (-2) u.nm)) (PInt 26) (PInt 1) = Return t2 /\
    TransitionPair_init t1 t2 = Return p /\
    velocitySeparation p = Return v /\
    value v < 0.
Proof.
  do 4 eexists.
  split; [vm_compute; reflexivity|].
  split; [vm_compute; reflexivity|].
  split; [vm_compute; reflexivity|].
  split; [vm_compute; reflexivity|].
  reflexivity.
Qed.

(** C10 (amended).  For a constructed pair whose two wavelengths are in
    the same unit and have a positive sum, in particular when both are
    positive, [velocitySeparation] is, in m/s, the lower-energy wavelength
    minus the higher-energy one, times c, divided by the mean of the two,
    and it is strictly positive. *)
Theorem velocitySeparation_positive (t1 t2 : Transition) (p : TransitionPair) :
  TransitionPair_init t1 t2 = Return p ->
  units (wavelength t1) = units (wavelength t2) ->
  0 < base_value (units (wavelength t1)) ->
  0 < value (wavelength t1) + value (wavelength t2) ->
  exists v,
    velocitySeparation p = Return v /\
    units v = u.m_per_s /\
    value v ==
      (value (wavelength (_lowerEnergyTransition p))
       - value (wavelength (_higherEnergyTransition p))) * u.c_value
      / ((value (wavelength (_higherEnergyTransition p))
          + value (wavelength (_lowerEnergyTransition p))) / 2) /\
    0 < value v.
Proof.
  intros Hp Hun Hb Hsum.
  set (hi := _higherEnergyTransition p). set (lo := _lowerEnergyTransition p).
  assert (Hord : value (wavelength hi) < value (wavelength lo) /\
                 units (wavelength hi) = units (wavelength lo) /\
                 0 < base_value (units (wavelength hi)) /\
                 0 < value (wavelength hi) + value (wavelength lo)).
  { subst hi lo. apply TransitionPair_init_Return in Hp.
    destruct Hp as [[H ->]|[H ->]]; cbn [_higherEnergyTransition _lowerEnergyTransition].
    - split; [exact H|]. split; [symmetry; exact Hun|].
      split; [rewrite <- Hun; exact Hb | lra].
    - split; [exact H|]. split; [exact Hun|]. split; [exact Hb | exact Hsum]. }
  destruct Hord as (Hlt & Hu & Hbh & Hs).
  destruct (wavelength2velocity_same_units (wavelength hi) (wavelength lo) Hu)
    as (v & Hv & Huv & Hval).
  exists v. split; [exact Hv|]. split; [exact Huv|].
  assert (E : value v ==
              (value (wavelength lo) - value (wavelength hi)) * u.c_value
              / ((value (wavelength hi) + value (wavelength lo)) / 2)).
  { apply Hval; lra. }
  split; [exact E|]. rewrite E.
  apply Qlt_shift_div_l.
  - apply Qlt_shift_div_l; [reflexivity | lra].
  - assert (Hc : 0 < u.c_value) by reflexivity. nra.
Qed.

Lemma velocitySeparation_positive_witness :
  let t1 := mk_Transition 1 (mk_quantity 500 u.nm) 26 (Some "Fe") 1
              None None None None None None in
  let t2 := mk_Transition 2 (mk_quantity 600 u.nm) 26 (Some "Fe") 1
              None None None None None None in
  exists v, velocitySeparation (mk_TransitionPair t2 t1 None) = Return v /\
            0 < value v.
Proof.
  cbv zeta.
  destruct (velocitySeparation_positive
              (mk_Transition 1 (mk_quantity 500 u.nm) 26 (Some "Fe") 1
                 None None None None None None)
              (mk_Transition 2 (mk_quantity 600 u.nm) 26 (Some "Fe") 1
                 None None None None None None)
              (mk_TransitionPair
                 (mk_Transition 2 (mk_quantity 600 u.nm) 26 (Some "Fe") 1
                    None None None None None None)
                 (mk_Transition 1 (mk_quantity 500 u.nm) 26 (Some "Fe") 1
                    None None None None None None) None))
    as (v & Hv & _ & _ & Hpos).
  - reflexivity.
  - reflexivity.
  - reflexivity.
  - reflexivity.
  - exists v. split; [exact Hv | exact Hpos].
Defined.

End Claims_transitions.

Section Claims_wavelength2index.
Import miscellaneous.

(** C9.  For a one-dimensional array, as the docstring asks for, and a
    wavelength given in any unit of the array's dimensions, with [w] its
    value in the units of the array: when [w] lies strictly between the
    first and the last element, [wavelength2index] returns the index of
    the first element not less than [w] or the index before it, whichever
    element is closer to [w], and in an increasing array that element is
    closest to [w] among all; when [w] is not strictly inside, it raises
    [RuntimeError]. *)
Theorem wavelength2index_closest (wavelength converted : unyt_quantity)
    (wavelength_array : unyt_array) (n : nat) (lo hi : Q) :
  shape (arr_data wavelength_array) = [n] ->
  0 < base_value (units wavelength) ->
  0 < base_value (arr_units wavelength_array) ->
  quantity_to wavelength (arr_units wavelength_array) = Return converted ->
  head (flat (arr_data wavelength_array)) = Some lo ->
  last (flat (arr_data wavelength_array)) = Some hi ->
  let w := value converted in
  (lo < w /\ w < hi ->
   exists idx k,
     wavelength2index (Quantity wavelength) wavelength_array false
       = Return (Some (Z.of_nat idx)) /\
     first_not_less (flat (arr_data wavelength_array)) w k /\
     (idx = k \/ S idx = k) /\
     (increasing (flat (arr_data wavelength_array)) ->
      closest_index (flat (arr_data wavelength_array)) w idx)) /\
  (~ (lo < w /\ w < hi) ->
   wavelength2index (Quantity wavelength) wavelength_array false
     = raise RuntimeError "Couldn't find the given wavelength").
Proof.
  intros Hsh Hq Ha Hc Hlo Hhi w.
  assert (Hd : unit_dims (units wavelength) = unit_dims (arr_units wavelength_array)).
  { destruct (decide (unit_dims (units wavelength)
                      = unit_dims (arr_units wavelength_array))) as [Hd|Hd]; [exact Hd|].
    rewrite (quantity_to_other_dims _ _ Hd) in Hc. discriminate Hc. }
  rewrite (quantity_to_same_dims _ _ Hd) in Hc. injection Hc as Hc.
  assert (E : wavelength2index (Quantity wavelength) wavelength_array false
              = wavelength2index_elements converted wavelength_array).
  { rewrite (wavelength2index_converted wavelength wavelength_array Hq Ha Hd false).
    rewrite Hc. unfold wavelength2index. rewrite Hsh. reflexivity. }
  rewrite E.
  apply (wavelength2index_elements_closest converted wavelength_array lo hi).
  - rewrite <- Hc. reflexivity.
  - lra.
  - exact Hlo.
  - exact Hhi.
Qed.

Lemma wavelength2index_closest_witness :
  let arr := mk_array (mk_ndarray [4%nat] [5000; 5001; 5003; 5004]) u.angstrom in
  wavelength2index (Quantity (mk_quantity 500.12 u.nm)) arr false
    = Return (Some 1%Z) /\
  wavelength2index (Quantity (mk_quantity 500.4 u.nm)) arr false
    = raise RuntimeError "Couldn't find the given wavelength".
Proof.
  cbv zeta.
  pose proof (wavelength2index_closest
                (mk_quantity 500.4 u.nm)
                (mk_quantity (500.4 * (base_value u.nm / base_value u.angstrom)) u.angstrom)
                (mk_array (mk_ndarray [4%nat] [5000; 5001; 5003; 5004]) u.angstrom)
                4 5000 5004 eq_refl) as H.
  split; [vm_compute; reflexivity|].
  apply H.
  - reflexivity.
  - reflexivity.
  - reflexivity.
  - reflexivity.
  - reflexivity.
  - intros [_ Hlt]. vm_compute in Hlt. discriminate Hlt.
Defined.

End Claims_wavelength2index.

Section Claims_getWavelengthArray.
Import obs2d.

(** C3.  For a raw flux array of 72 orders by 4096 pixels and a header
    with the 288 cards 'ESO DRS CAL TH COEFF LLk', [getWavelengthArray]
    returns an array in Angstroms of the shape of the raw flux array,
    whose entry at [order, pixel] is the sum over [i] in 0..3 of
    [coeff (4 * order + i) * pixel ^ i]. *)
Theorem getWavelengthArray_polynomial (self : HARPSFile2DScience)
    (coeff : nat -> Q) :
  shape (_rawFluxArray self) = [72; 4096]%nat ->
  (forall k, (k < 288)%nat -> _header self !! coeff_key k = Some (coeff k)) ->
  exists a,
    getWavelengthArray self = Return (mk_array a u.angstrom) /\
    shape a = shape (_rawFluxArray self) /\
    forall order pixel, (order < 72)%nat -> (pixel < 4096)%nat ->
      exists v,
        flat a !! (order * 4096 + pixel)%nat = Some v /\
        v = wavelength_poly coeff order pixel 4 /\
        v == coeff (4 * order)%nat * inject_Z (Z.of_nat pixel ^ 0)
             + coeff (4 * order + 1)%nat * inject_Z (Z.of_nat pixel ^ 1)
             + coeff (4 * order + 2)%nat * inject_Z (Z.of_nat pixel ^ 2)
             + coeff (4 * order + 3)%nat * inject_Z (Z.of_nat pixel ^ 3).
Proof.
  intros Hshape Hheader.
  destruct (getWavelengthArray_dims_entries self coeff 72 4096 72 4096 Hshape)
    as (a & Hr & Hs & Hl & He); [lia | lia | intros k Hk; apply Hheader; lia |].
  exists a. split; [exact Hr|]. split; [congruence|].
  intros order pixel Ho Hp.
  exists (wavelength_poly coeff order pixel 4).
  split; [|split; [reflexivity|]].
  - rewrite (He order pixel Ho Hp). f_equal. unfold entries_at.
    replace (pixel <? 4096)%nat with true by (symmetry; apply Nat.ltb_lt; exact Hp).
    replace (order <? 72)%nat with true by (symmetry; apply Nat.ltb_lt; exact Ho).
    reflexivity.
  - unfold wavelength_poly. cbn [seq fold_left].
    replace (4 * order + 0)%nat with (4 * order)%nat by lia.
    change (Z.of_nat 0) with 0%Z. change (Z.of_nat 1) with 1%Z.
    change (Z.of_nat 2) with 2%Z. change (Z.of_nat 3) with 3%Z.
    ring.
Qed.

Lemma getWavelengthArray_polynomial_witness :
  let coeff := fun k : nat => inject_Z (Z.of_nat k) in
  let self := mk_obs (list_to_map (map (fun k => (coeff_key k, coeff k)) (seq 0 288)))
                (zeros [72; 4096]%nat) None None None
                (mk_quantity 0 u.km_per_s) in
  exists a,
    getWavelengthArray self = Return (mk_array a u.angstrom) /\
    shape a = [72; 4096]%nat.
Proof.
  cbv zeta.
  destruct (getWavelengthArray_polynomial
              (mk_obs (list_to_map (map (fun k => (coeff_key k, inject_Z (Z.of_nat k)))
                                        (seq 0 288)))
                 (zeros [72; 4096]%nat) None None None
                 (mk_quantity 0 u.km_per_s))
              (fun k : nat => inject_Z (Z.of_nat k)))
    as (a & Hr & Hs & _).
  - reflexivity.
  - intros k Hk. cbn [_header].
    apply (header_of_coefficients (fun k : nat => inject_Z (Z.of_nat k)) 288 k Hk).
  - exists a. split; [exact Hr | exact Hs].
Defined.

(** The same loops on 2 orders of 3 pixels, with the coefficients 1 to 8:
    order 0 is 1 + 2 p + 3 p^2 + 4 p^3, order 1 is 5 + 6 p + 7 p^2 + 8 p^3. *)
Example getWavelengthArray_dims_2_3 :
  getWavelengthArray_dims 2 3
    (mk_obs (list_to_map (map (fun k => (coeff_key k, inject_Z (Z.of_nat (S k))))
                              (seq 0 8)))
       (zeros [2; 3]%nat) None None None (mk_quantity 0 u.km_per_s))
  = Return (mk_array (mk_ndarray [2; 3]%nat [1; 10; 49; 5; 26; 109]) u.angstrom).
Proof. vm_compute. reflexivity. Qed.

End Claims_getWavelengthArray.

Section Claims_findWavelength.
Import obs2d.

(** C8, the part that holds: a wavelength within the limits that the loop
    over the orders finds in exactly one order gives that order, a number
    in [0, 71] of an order containing the wavelength. *)
Lemma findWavelength_single_order (self self' : HARPSFile2DScience)
    (q wq lo hi : unyt_quantity) (bary wl : unyt_array) (order : nat) :
  quantity_to q u.angstrom = Return wq ->
  cached_barycentricArray self = (self', Return bary) ->
  array_item2 bary 0 0 = Return lo ->
  array_item2 bary 71 (-1) = Return hi ->
  between lo wq hi = Return true ->
  _wavelengthArray self' = Some wl ->
  find_orders (Some wl) wq = Return [order] ->
  findWavelength (PQuantity q) true self = (self', Return (FInt (Z.of_nat order))) /\
  (0 <= Z.of_nat order <= 71)%Z /\
  order_contains wl wq order.
Proof.
  intros Hq Hb Hlo Hhi Hin Hwl Ho.
  split.
  - rewrite <- Hwl in Ho.
    apply (findWavelength_closest_only self self' q wq lo hi bary [order]); assumption.
  - destruct (proj1 (find_orders_spec wl wq [order] Ho order)) as [Hlt Hc].
    + apply list_elem_of_singleton. reflexivity.
    + split; [lia | exact Hc].
Qed.

(** C8, where the code fails: for a wavelength within the limits that the
    loop over the orders finds in two orders, [findWavelength] with
    [closest_only=True] raises [TypeError], from [len] of the bool
    [orders_wavelength_found_in == 2], and returns no order. *)
Theorem findWavelength_two_orders_raises (self self' : HARPSFile2DScience)
    (q wq lo hi : unyt_quantity) (bary wl : unyt_array) (order1 order2 : nat) :
  quantity_to q u.angstrom = Return wq ->
  cached_barycentricArray self = (self', Return bary) ->
  array_item2 bary 0 0 = Return lo ->
  array_item2 bary 71 (-1) = Return hi ->
  between lo wq hi = Return true ->
  _wavelengthArray self' = Some wl ->
  find_orders (Some wl) wq = Return [order1; order2] ->
  findWavelength (PQuantity q) true self
    = (self', raise TypeError "object of type 'bool' has no len()") /\
  order_contains wl wq order1 /\ order_contains wl wq order2.
Proof.
  intros Hq Hb Hlo Hhi Hin Hwl Ho.
  split.
  - rewrite <- Hwl in Ho.
    apply (findWavelength_closest_only self self' q wq lo hi bary [order1; order2]);
      assumption.
  - pose proof (find_orders_spec wl wq [order1; order2] Ho) as Hs.
    split; apply Hs; repeat constructor.
Qed.

(** At 405 nm the example observation has the wavelength in orders 0 and
    1: the call raises. *)
Lemma findWavelength_two_orders_raises_witness :
  findWavelength (PQuantity (mk_quantity 405 u.nm)) true example_observation
    = (example_observation, raise TypeError "object of type 'bool' has no len()").
Proof.
  refine (proj1 (findWavelength_two_orders_raises
                   example_observation example_observation
                   (mk_quantity 405 u.nm)
                   (mk_quantity (405 * (base_value u.nm / base_value u.angstrom)) u.angstrom)
                   (mk_quantity 4000 u.angstrom)
                   (mk_quantity (4000 + 40 * inject_Z 71 + 60) u.angstrom)
                   example_wavelengths example_wavelengths 0 1 _ _ _ _ _ _ _)).
  - reflexivity.
  - reflexivity.
  - vm_compute. reflexivity.
  - vm_compute. reflexivity.
  - vm_compute. reflexivity.
  - reflexivity.
  - vm_compute. reflexivity.
Defined.

(** At 403 nm the wavelength is in order 0 only, which is returned. *)
Example findWavelength_one_order_example :
  findWavelength (PQuantity (mk_quantity 403 u.nm)) true example_observation
    = (example_observation, Return (FInt 0)).
Proof. vm_compute. reflexivity. Qed.

(** With [closest_only=False] the two orders are returned as a tuple. *)
Example findWavelength_tuple_example :
  findWavelength (PQuantity (mk_quantity 405 u.nm)) false example_observation
    = (example_observation, Return (FTuple [0; 1]%nat)).
Proof. vm_compute. reflexivity. Qed.

End Claims_findWavelength.

Section Claims_roundtrip.
Import conversions.

(** C2, as stated, fails for the Morton pair: the two formulas are fits
    of their own, not inverses of each other, and at 5000 Angstroms the
    round trip is off by more than the tolerance of 2e-12 Angstroms (by
    about 1.1e-9). *)
Lemma morton_roundtrip_exceeds_tolerance :
  harps_min <= 5000 /\ 5000 <= harps_max /\
  ~ Qabs (air2vacMortonIAU (vac2airMorton00 5000) - 5000) <= tolerance.
Proof.
  split; [discriminate|]. split; [discriminate|].
  apply Qlt_not_le. vm_compute. reflexivity.
Qed.

(** C2 (amended).  For wavelengths of the HARPS optical range given in
    Angstroms, [air2vacESO] returns, and [vac2airESO] applied to its
    result gives back each wavelength to within the tolerance of 2e-12
    Angstroms; [air2vacMortonIAU] after [vac2airMorton00] gives back a
    wavelength to within 1e-8 Angstroms. *)
Theorem roundtrip_within_tolerance :
  (forall a : unyt_array,
     arr_units a = u.angstrom ->
     (ndim (arr_data a) = 1 \/ ndim (arr_data a) = 2)%nat ->
     ndarray_wf (arr_data a) ->
     Forall (fun x => harps_min <= x /\ x <= harps_max) (flat (arr_data a)) ->
     exists vac back,
       air2vacESO a = Return vac /\
       vac2airESO (WUnytArray vac) = Return (WUnytArray back) /\
       shape (arr_data back) = shape (arr_data a) /\
       arr_units back = u.angstrom /\
       Forall2 (fun x y => Qabs (y - x) <= tolerance)
               (flat (arr_data a)) (flat (arr_data back))) /\
  (forall x : Q,
     harps_min <= x -> x <= harps_max ->
     Qabs (air2vacMortonIAU (vac2airMorton00 x) - x) <= 0.00000001).
Proof.
  split.
  - intros a Hun Hnd Hwf Hrange. apply (eso_roundtrip_array a Hun Hnd Hwf).
    eapply Forall_impl; [exact Hrange|]. intros x [Hlo Hhi].
    unfold harps_min in Hlo. unfold harps_max in Hhi. split; lra.
  - intros x Hlo Hhi. apply morton_roundtrip_bound; assumption.
Qed.

Lemma roundtrip_within_tolerance_witness :
  let a := mk_array (mk_ndarray [1; 2]%nat [5000; 6000]) u.angstrom in
  (exists vac back,
     air2vacESO a = Return vac /\
     vac2airESO (WUnytArray vac) = Return (WUnytArray back) /\
     shape (arr_data back) = [1; 2]%nat /\
     arr_units back = u.angstrom /\
     Forall2 (fun x y => Qabs (y - x) <= tolerance) [5000; 6000] (flat (arr_data back))) /\
  Qabs (air2vacMortonIAU (vac2airMorton00 5000) - 5000) <= 0.00000001.
Proof.
  cbv zeta. split.
  - apply (proj1 roundtrip_within_tolerance
             (mk_array (mk_ndarray [1; 2]%nat [5000; 6000]) u.angstrom)).
    + reflexivity.
    + right. reflexivity.
    + reflexivity.
    + repeat constructor; discriminate.
  - apply (proj2 roundtrip_within_tolerance 5000); discriminate.
Defined.

(** [vac2airESO] tags its result, computed in Angstroms, with the units it
    was given: 500 nm comes back as about 4998.6 "nm".  The function is
    documented to work with Angstroms only. *)
Example vac2airESO_nanometers :
  exists q, vac2airESO (WQuantity (mk_quantity 500 u.nm)) = Return (WQuantity q) /\
            units q = u.nm /\ 4998 < value q /\ value q < 4999.
Proof.
  eexists. split; [vm_compute; reflexivity|]. split; [reflexivity|].
  split; reflexivity.
Qed.

End Claims_roundtrip.

(** * Further properties of the code *)

(** ** The element of a [Transition] *)
Section Extra_elements.
Import transition_line.

Lemma elements_keys_NoDup : NoDup (elements_items.*1).
Proof. apply (bool_decide_unpack _). vm_compute. reflexivity. Qed.

Lemma elements_symbols_NoDup : NoDup ((inverse_items elements_items).*1).
Proof. apply (bool_decide_unpack _). vm_compute. reflexivity. Qed.

Lemma elements_lookup (z : Z) (sym : string) :
  elements !! z = Some sym <-> (z, sym) ∈ elements_items.
Proof.
  unfold elements. split.
  - apply elem_of_list_to_map_2.
  - apply elem_of_list_to_map_1. exact elements_keys_NoDup.
Qed.

Lemma elements_inv_lookup (z : Z) (sym : string) :
  elements_inv !! sym = Some z <-> (z, sym) ∈ elements_items.
Proof.
  unfold elements_inv. rewrite <- elem_of_list_to_map by exact elements_symbols_NoDup.
  unfold inverse_items. rewrite list_elem_of_fmap. split.
  - intros ([z' s'] & [= -> ->] & Hin). exact Hin.
  - intros Hin. exists (z, sym). split; [reflexivity | exact Hin].
Qed.

Lemma elements_entries_ok : Forall (fun kv => element_entry_ok kv = true) elements_items.
Proof. apply (bool_decide_unpack _). vm_compute. reflexivity. Qed.

Lemma elements_entry (z : Z) (sym : string) :
  (z, sym) ∈ elements_items -> element_entry_ok (z, sym) = true.
Proof.
  intros Hin. pose proof elements_entries_ok as H.
  rewrite Forall_forall in H. exact (H _ Hin).
Qed.

Lemma elements_keys : elements_items.*1 = map Z.of_nat (seq 1 92).
Proof. vm_compute. reflexivity. Qed.

Lemma elements_defined (z : Z) :
  (1 <= z <= 92)%Z <-> exists sym, elements !! z = Some sym.
Proof.
  split.
  - intros Hz. destruct (elements !! z) as [sym|] eqn:E; [eauto|].
    exfalso. unfold elements in E. apply not_elem_of_list_to_map in E. apply E.
    rewrite elements_keys. apply list_elem_of_fmap.
    exists (Z.to_nat z). split; [lia|]. apply elem_of_seq. lia.
  - intros [sym Hs]. apply elements_lookup in Hs. apply elements_entry in Hs.
    unfold element_entry_ok in Hs. cbn [fst snd] in Hs.
    repeat (apply andb_prop in Hs as [Hs ?]). lia.
Qed.

End Extra_elements.

Section Extra_elements2.
Import transition_line.

Lemma bind_raise {A B : Type} (c : exn_class) (msg : string) (k : A -> result B) :
  (raise c msg ≫= k) = raise c msg.
Proof. reflexivity. Qed.

Lemma letter_not_special (c : ascii) :
  is_letter c = true ->
  is_space c = false /\ is_digit c = false /\
  Ascii.eqb c "-" = false /\ Ascii.eqb c "+" = false /\ Ascii.eqb c "_" = false.
Proof.
  destruct c as [[] [] [] [] [] [] [] []]; vm_compute; intros H;
    try discriminate H; repeat split.
Qed.

Lemma to_upper_letter (c : ascii) : is_letter (to_upper c) = true -> is_letter c = true.
Proof.
  destruct c as [[] [] [] [] [] [] [] []]; vm_compute; intros H;
    try discriminate H; reflexivity.
Qed.

Lemma lstrip_app_nonspace (l : list ascii) (c : ascii) :
  is_space c = false -> exists l', lstrip (l ++ [c]) = l' ++ [c].
Proof.
  intros Hc. induction l as [|a l IH]; cbn [app lstrip].
  - rewrite Hc. exists []. reflexivity.
  - destruct (is_space a).
    + exact IH.
    + exists (a :: l). reflexivity.
Qed.

Lemma strip_nonspace (c : ascii) (l : list ascii) :
  is_space c = false -> exists l', strip (c :: l) = c :: l'.
Proof.
  intros Hc. unfold strip. cbn [lstrip]. rewrite Hc. cbn [rev].
  destruct (lstrip_app_nonspace (rev l) c Hc) as [l' ->].
  rewrite rev_app_distr. cbn [rev app]. eauto.
Qed.

(** [int] refuses a string that starts with a letter. *)
Lemma int_of_string_letter (c : ascii) (s : string) :
  is_letter c = true -> int_of_string (String c s) = None.
Proof.
  intros Hc. destruct (letter_not_special c Hc) as (Hs & Hd & Hm & Hp & Hu).
  unfold int_of_string. cbn [list_ascii_of_string].
  destruct (strip_nonspace c (list_ascii_of_string s) Hs) as [l' ->].
  rewrite Hm, Hp. cbn [parse_digits]. rewrite Hd, Hu. reflexivity.
Qed.

Lemma capitalize_length (s : string) : String.length (capitalize s) = String.length s.
Proof.
  destruct s as [|c s]; [reflexivity|]. cbn [capitalize String.length]. f_equal.
  induction s as [|a s IH]; [reflexivity|].
  cbn [list_ascii_of_string map string_of_list_ascii String.length]. f_equal. exact IH.
Qed.

(** A symbol of the table in any letter case is read as that symbol. *)
Lemma init_element_symbol (s : string) (z : Z) :
  elements !! z = Some (capitalize s) ->
  init_element (PStr s) = Return (z, Some (capitalize s)).
Proof.
  intros Hz. apply elements_lookup in Hz.
  pose proof (elements_entry _ _ Hz) as Hok. unfold element_entry_ok in Hok.
  cbn [fst snd] in Hok.
  repeat (apply andb_prop in Hok as [Hok ?]).
  assert (Hlen : (String.length s <? 3)%nat = true) by (rewrite <- capitalize_length; assumption).
  assert (Hint : int_of_string s = None).
  { destruct s as [|c s]; [reflexivity|].
    apply int_of_string_letter. apply to_upper_letter.
    cbn [capitalize] in *. assumption. }
  unfold init_element. rewrite Hlen.
  cbn [py_int]. rewrite Hint. rewrite bind_raise.
  rewrite try_except_caught.
  apply elements_inv_lookup in Hz. unfold dict_get. rewrite Hz.
  rewrite try_except_Return. reflexivity.
Qed.

Lemma init_element_number (z : Z) (sym : string) :
  elements !! z = Some sym -> init_element (PInt z) = Return (z, Some sym).
Proof.
  intros Hz. pose proof (proj2 (elements_defined z) (ex_intro _ sym Hz)) as Hr.
  unfold init_element.
  replace ((0 <? z)%Z && (z <? 119)%Z) with true by (symmetry; apply andb_true_intro; lia).
  cbn [negb]. unfold dict_get. rewrite Hz. reflexivity.
Qed.

Lemma init_element_number_string (z : Z) (sym : string) :
  elements !! z = Some sym -> init_element (PStr (pretty z)) = Return (z, Some sym).
Proof.
  intros Hz. pose proof Hz as Hin. apply elements_lookup in Hin.
  pose proof (elements_entry _ _ Hin) as Hok. unfold element_entry_ok in Hok.
  cbn [fst snd] in Hok.
  repeat (apply andb_prop in Hok as [Hok ?]).
  unfold init_element.
  replace (String.length (pretty z) <? 3)%nat with true by (symmetry; assumption).
  cbn [py_int].
  match goal with
  | H : bool_decide (int_of_string _ = _) = true |- _ =>
      apply bool_decide_eq_true_1 in H; rewrite H
  end.
  cbn [mbind result_bind]. unfold dict_get. rewrite Hz. cbn [mbind result_bind].
  rewrite try_except_Return. reflexivity.
Qed.

(** X1.  For each atomic number from 1 to 92 the element may be given as the
    number, as the number written in a string, or as the symbol in any
    letter case: [__init__] finds the same atomic number and the same
    symbol, the one of the table. *)
Theorem init_element_number_and_symbol_agree (z : Z) :
  (1 <= z <= 92)%Z ->
  exists sym,
    elements !! z = Some sym /\ elements_inv !! sym = Some z /\
    init_element (PInt z) = Return (z, Some sym) /\
    init_element (PStr (pretty z)) = Return (z, Some sym) /\
    forall s, capitalize s = sym -> init_element (PStr s) = Return (z, Some sym).
Proof.
  intros Hz. apply elements_defined in Hz as [sym Hs]. exists sym.
  split; [exact Hs|]. split.
  { apply elements_inv_lookup. apply elements_lookup. exact Hs. }
  split; [apply init_element_number; exact Hs|].
  split; [apply init_element_number_string; exact Hs|].
  intros s <-. apply init_element_symbol. exact Hs.
Qed.

Lemma init_element_number_and_symbol_agree_witness :
  init_element (PInt 26) = Return (26%Z, Some "Fe") /\
  init_element (PStr "26") = Return (26%Z, Some "Fe") /\
  init_element (PStr "fE") = Return (26%Z, Some "Fe").
Proof.
  destruct (init_element_number_and_symbol_agree 26) as (sym & Hs & _ & Hn & Hp & Hc);
    [lia|].
  assert (E : sym = "Fe") by (vm_compute in Hs; congruence). subst sym.
  split; [exact Hn|]. split; [exact Hp|]. apply Hc. reflexivity.
Defined.

(** X2.  An atomic number outside 1..118 fails the assertion; a number
    from 93 to 118 passes it, but the table ends at 92 and the lookup of
    the symbol raises [KeyError]: no [Transition] is made. *)
Theorem init_element_number_out_of_table (self_id : nat) (q : unyt_quantity)
    (z : Z) (s : py_obj) :
  unit_dims (units q) = u.length ->
  ((z < 1 \/ 118 < z)%Z ->
   Transition_init self_id (PQuantity q) (PInt z) s
     = raise AssertionError "Element number not in range [1, 118]!") /\
  ((93 <= z <= 118)%Z ->
   Transition_init self_id (PQuantity q) (PInt z) s = raise KeyError "key not found").
Proof.
  intros Hd. unfold Transition_init. cbn [wavelength_to_nm].
  rewrite quantity_to_same_dims by exact Hd. rewrite try_except_Return.
  cbn [mbind result_bind]. split.
  - intros Hz. unfold init_element.
    replace ((0 <? z)%Z && (z <? 119)%Z) with false
      by (symmetry; apply andb_false_iff; lia).
    reflexivity.
  - intros Hz. unfold init_element.
    replace ((0 <? z)%Z && (z <? 119)%Z) with true
      by (symmetry; apply andb_true_intro; lia).
    cbn [negb]. unfold dict_get.
    destruct (elements !! z) as [sym|] eqn:E; [|reflexivity].
    exfalso. assert (1 <= z <= 92)%Z by (apply elements_defined; eauto). lia.
Qed.

Lemma init_element_number_out_of_table_witness :
  Transition_init 0 (PQuantity (mk_quantity 500 u.nm)) (PInt 0) (PInt 1)
    = raise AssertionError "Element number not in range [1, 118]!" /\
  Transition_init 0 (PQuantity (mk_quantity 500 u.nm)) (PInt 94) (PInt 1)
    = raise KeyError "key not found".
Proof.
  destruct (init_element_number_out_of_table 0 (mk_quantity 500 u.nm) 0 (PInt 1) eq_refl)
    as [H0 _].
  destruct (init_element_number_out_of_table 0 (mk_quantity 500 u.nm) 94 (PInt 1) eq_refl)
    as [_ H94].
  split; [apply H0; lia | apply H94; lia].
Defined.

End Extra_elements2.

(** ** [atomicSpecies] and [wavenumber] *)
Section Extra_species.
Import transition_line.

Lemma roman_keys_NoDup : NoDup (roman_numerals_items.*1).
Proof. apply (bool_decide_unpack _). vm_compute. reflexivity. Qed.

Lemma roman_symbols_NoDup : NoDup ((inverse_items roman_numerals_items).*1).
Proof. apply (bool_decide_unpack _). vm_compute. reflexivity. Qed.

Lemma roman_numerals_lookup (k : Z) (r : string) :
  roman_numerals !! k = Some r <-> (k, r) ∈ roman_numerals_items.
Proof.
  unfold roman_numerals. split.
  - apply elem_of_list_to_map_2.
  - apply elem_of_list_to_map_1. exact roman_keys_NoDup.
Qed.

Lemma roman_numerals_inv_lookup (k : Z) (r : string) :
  roman_numerals_inv !! r = Some k <-> (k, r) ∈ roman_numerals_items.
Proof.
  unfold roman_numerals_inv. rewrite <- elem_of_list_to_map by exact roman_symbols_NoDup.
  unfold inverse_items. rewrite list_elem_of_fmap. split.
  - intros ([k' r'] & [= -> ->] & Hin). exact Hin.
  - intros Hin. exists (k, r). split; [reflexivity | exact Hin].
Qed.

Lemma roman_numerals_not_int (k : Z) (r : string) :
  (k, r) ∈ roman_numerals_items -> int_of_string r = None.
Proof.
  intros Hin.
  assert (H : Forall (fun kr => int_of_string (snd kr) = None) roman_numerals_items).
  { apply (bool_decide_unpack _). vm_compute. reflexivity. }
  rewrite Forall_forall in H. exact (H _ Hin).
Qed.

Lemma roman_numerals_defined (k : Z) :
  (1 <= k <= 10)%Z <-> exists r, roman_numerals !! k = Some r.
Proof.
  split.
  - intros Hk. destruct (roman_numerals !! k) as [r|] eqn:E; [eauto|].
    exfalso. unfold roman_numerals in E. apply not_elem_of_list_to_map in E. apply E.
    assert (Hkeys : roman_numerals_items.*1 = map Z.of_nat (seq 1 10)) by reflexivity.
    rewrite Hkeys. apply list_elem_of_fmap.
    exists (Z.to_nat k). split; [lia|]. apply elem_of_seq. lia.
  - intros [r Hr]. apply roman_numerals_lookup in Hr.
    apply roman_numerals_inv_lookup in Hr. exact (roman_numerals_inv_range _ _ Hr).
Qed.

Lemma init_ionizationState_numeral (k : Z) (r : string) :
  roman_numerals_inv !! r = Some k -> init_ionizationState (PStr r) = Return k.
Proof.
  intros Hr. pose proof Hr as Hin. apply roman_numerals_inv_lookup in Hin.
  unfold init_ionizationState. cbn [py_int].
  rewrite (roman_numerals_not_int _ _ Hin). rewrite try_except_caught.
  unfold dict_get. rewrite Hr. rewrite try_except_Return. reflexivity.
Qed.

(** X3.  An ionization state given as a Roman numeral from I to X is stored
    as its number, and [atomicSpecies] of the new object, when the symbol of
    the element was found, is that symbol, a space, and the same numeral. *)
Theorem atomicSpecies_of_numeral (self_id : nat) (w e : py_obj) (r : string)
    (k : Z) (t : Transition) :
  roman_numerals_inv !! r = Some k ->
  Transition_init self_id w e (PStr r) = Return t ->
  ionizationState t = k /\ (1 <= k <= 10)%Z /\
  forall sym, atomicSymbol t = Some sym ->
    atomicSpecies t = Return (sym +:+ " " +:+ r).
Proof.
  intros Hr Ht.
  apply Transition_init_Return in Ht as (q & an & osym & ion & _ & _ & Hs & ->).
  rewrite (init_ionizationState_numeral k r Hr) in Hs. injection Hs as <-.
  cbn [ionizationState atomicSymbol]. split; [reflexivity|].
  split; [exact (roman_numerals_inv_range _ _ Hr)|].
  intros sym ->. unfold atomicSpecies. cbn [atomicSymbol ionizationState].
  apply roman_numerals_inv_lookup in Hr. apply roman_numerals_lookup in Hr.
  unfold dict_get. rewrite Hr. reflexivity.
Qed.

Lemma atomicSpecies_of_numeral_witness :
  exists t,
    Transition_init 1 (PQuantity (mk_quantity 500 u.nm)) (PStr "fe") (PStr "II") = Return t /\
    ionizationState t = 2%Z /\ atomicSpecies t = Return "Fe II".
Proof.
  eexists. split; [vm_compute; reflexivity|].
  destruct (atomicSpecies_of_numeral 1 (PQuantity (mk_quantity 500 u.nm)) (PStr "fe")
              "II" 2 _ eq_refl eq_refl) as (Hk & _ & Hs).
  split; [exact Hk|]. apply (Hs "Fe"). reflexivity.
Defined.

(** X4.  [__init__] accepts arguments for which [atomicSpecies] fails: an
    element given as a number in a string of three or more characters
    sets no [atomicSymbol], and [atomicSpecies] raises [AttributeError];
    an integer ionization state outside 1..10 has no Roman numeral, and
    [atomicSpecies] raises [KeyError]. *)
Theorem atomicSpecies_fails_on_accepted (self_id : nat) (q : unyt_quantity) :
  unit_dims (units q) = u.length ->
  (forall (str : string) (z ion : Z),
     (3 <= String.length str)%nat -> int_of_string str = Some z ->
     exists t,
       Transition_init self_id (PQuantity q) (PStr str) (PInt ion) = Return t /\
       atomicNumber t = z /\ atomicSymbol t = None /\
       atomicSpecies t
         = raise AttributeError "'Transition' object has no attribute 'atomicSymbol'") /\
  (forall (z ion : Z),
     (1 <= z <= 92)%Z -> (ion < 1 \/ 10 < ion)%Z ->
     exists t,
       Transition_init self_id (PQuantity q) (PInt z) (PInt ion) = Return t /\
       ionizationState t = ion /\
       atomicSpecies t = raise KeyError "key not found").
Proof.
  intros Hd. split.
  - intros str z ion Hlen Hint. eexists. split.
    + unfold Transition_init. cbn [wavelength_to_nm].
      rewrite quantity_to_same_dims by exact Hd. rewrite try_except_Return.
      cbn [mbind result_bind]. unfold init_element.
      replace (String.length str <? 3)%nat with false
        by (symmetry; apply Nat.ltb_ge; exact Hlen).
      cbn [py_int]. rewrite Hint. rewrite try_except_Return.
      cbn [mbind result_bind]. rewrite init_ionizationState_int.
      cbn [mbind result_bind]. reflexivity.
    + cbn [atomicNumber atomicSymbol]. split; [reflexivity|].
      split; reflexivity.
  - intros z ion Hz Hion. apply elements_defined in Hz as [sym Hs]. eexists. split.
    + unfold Transition_init. cbn [wavelength_to_nm].
      rewrite quantity_to_same_dims by exact Hd. rewrite try_except_Return.
      cbn [mbind result_bind]. rewrite (init_element_number z sym Hs).
      cbn [mbind result_bind]. rewrite init_ionizationState_int.
      cbn [mbind result_bind]. reflexivity.
    + cbn [ionizationState]. split; [reflexivity|].
      unfold atomicSpecies. cbn [atomicSymbol ionizationState]. unfold dict_get.
      destruct (roman_numerals !! ion) as [r|] eqn:E; [|reflexivity].
      exfalso. assert (1 <= ion <= 10)%Z by (apply roman_numerals_defined; eauto). lia.
Qed.

Lemma atomicSpecies_fails_on_accepted_witness :
  (exists t,
     Transition_init 1 (PQuantity (mk_quantity 500 u.nm)) (PStr "026") (PInt 1) = Return t /\
     atomicNumber t = 26%Z /\
     atomicSpecies t
       = raise AttributeError "'Transition' object has no attribute 'atomicSymbol'") /\
  (exists t,
     Transition_init 1 (PQuantity (mk_quantity 500 u.nm)) (PInt 26) (PInt 0) = Return t /\
     atomicSpecies t = raise KeyError "key not found").
Proof.
  destruct (atomicSpecies_fails_on_accepted 1 (mk_quantity 500 u.nm) eq_refl) as [H1 H2].
  split.
  - destruct (H1 "026" 26%Z 1%Z) as (t & Ht & Hn & _ & Hs).
    + cbn. lia.
    + reflexivity.
    + exists t. split; [exact Ht|]. split; [exact Hn | exact Hs].
  - destruct (H2 26%Z 0%Z) as (t & Ht & _ & Hs).
    + lia.
    + lia.
    + exists t. split; [exact Ht | exact Hs].
Defined.

End Extra_species.

Section Extra_wavenumber.
Import transition_line.

Lemma unit_eqb_true (a b : Unit) :
  unit_eqb a b = true <-> base_value a == base_value b /\ unit_dims a = unit_dims b.
Proof.
  unfold unit_eqb. rewrite andb_true_iff, Qeq_bool_iff, bool_decide_eq_true. reflexivity.
Qed.

Lemma per_cm_value : base_value (unit_pow u.cm (-1)) == 100.
Proof. reflexivity. Qed.

Lemma cm_value : base_value u.cm == 1 / 100.
Proof. reflexivity. Qed.

(** The wavelength stored by the setter for [x] in a unit equal to
    [cm ** -1], and the wavenumber read back from it. *)
Lemma wavenumber_of_inverse (t : Transition) (x : Q) (un : Unit) :
  ~ x == 0 ->
  unit_eqb un (unit_pow u.cm (-1)) = true ->
  exists wn,
    wavenumber (set_wavelength t (q_inv (mk_quantity x un))) = Return wn /\
    value wn == x /\ unit_eqb (units wn) (unit_pow u.cm (-1)) = true.
Proof.
  intros Hx Hun. apply unit_eqb_true in Hun as [Hb Hd].
  rewrite per_cm_value in Hb. cbn [unit_pow unit_dims u.cm] in Hd.
  unfold wavenumber, set_wavelength. cbn [wavelength].
  rewrite quantity_to_same_dims.
  2: { cbn [q_inv units unit_div unit_dims]. rewrite Hd. reflexivity. }
  cbn [mbind result_bind]. eexists. split; [reflexivity|].
  cbn [q_inv value units unit_div base_value unit_dims]. split.
  - rewrite Hb, cm_value. change (base_value u.dimensionless) with 1. field. exact Hx.
  - apply unit_eqb_true. split; reflexivity.
Qed.

(** X5.  Setting the wavenumber and reading it back returns what was set:
    for a number [x] other than 0, taken as [x] per centimetre, and for a
    quantity of value [x] in a unit equal to [cm ** -1]; a quantity in any
    other unit is refused with [ValueError]. *)
Theorem wavenumber_setter_then_getter (t : Transition) (x : Q) :
  ~ x == 0 ->
  (exists t' wn,
     wavenumber_setter t (WnNumber x) = Return t' /\
     wavenumber t' = Return wn /\
     value wn == x /\ unit_eqb (units wn) (unit_pow u.cm (-1)) = true) /\
  (forall un, unit_eqb un (unit_pow u.cm (-1)) = true ->
     exists t' wn,
       wavenumber_setter t (WnQuantity (mk_quantity x un)) = Return t' /\
       wavenumber t' = Return wn /\
       value wn == x /\ unit_eqb (units wn) (unit_pow u.cm (-1)) = true) /\
  (forall un, unit_eqb un (unit_pow u.cm (-1)) = false ->
     wavenumber_setter t (WnQuantity (mk_quantity x un))
       = raise ValueError "Units for given wavenumber are {}!").
Proof.
  intros Hx. split; [|split].
  - destruct (wavenumber_of_inverse t x (unit_pow u.cm (-1)) Hx) as (wn & Hw & Hv & Hu).
    { apply unit_eqb_true. split; reflexivity. }
    eexists. exists wn. split; [reflexivity|]. split; [exact Hw|]. split; assumption.
  - intros un Hun.
    destruct (wavenumber_of_inverse t x un Hx Hun) as (wn & Hw & Hv & Hu).
    eexists. exists wn. split.
    + unfold wavenumber_setter. cbn [units]. rewrite Hun. reflexivity.
    + split; [exact Hw|]. split; assumption.
  - intros un Hun. unfold wavenumber_setter. cbn [units]. rewrite Hun. reflexivity.
Qed.

Lemma wavenumber_setter_then_getter_witness :
  exists t' wn,
    wavenumber_setter
      (mk_Transition 1 (mk_quantity 500 u.nm) 26 (Some "Fe") 1
         None None None None None None) (WnNumber 20000) = Return t' /\
    wavenumber t' = Return wn /\ value wn == 20000.
Proof.
  destruct (wavenumber_setter_then_getter
              (mk_Transition 1 (mk_quantity 500 u.nm) 26 (Some "Fe") 1
                 None None None None None None) 20000)
    as [(t' & wn & Ht & Hw & Hv & _) _].
  - discriminate.
  - exists t', wn. split; [exact Ht|]. split; [exact Hw | exact Hv].
Defined.

(** X6.  The setter stores the wavelength in centimetres, where [__init__]
    stores nanometers: assigning to a transition of positive wavelength
    its own wavenumber divides the stored value by 10^7, and since [<]
    compares the stored values, the object then compares as shorter than
    it was. *)
Theorem wavenumber_setter_stores_centimetres (t : Transition) :
  units (wavelength t) = u.nm -> 0 < value (wavelength t) ->
  exists wn t',
    wavenumber t = Return wn /\
    wavenumber_setter t (WnQuantity wn) = Return t' /\
    value (wavelength t') == value (wavelength t) / 10000000 /\
    unit_eqb (units (wavelength t')) u.cm = true /\
    Transition_lt t' t = true.
Proof.
  intros Hun Hpos.
  unfold wavenumber. rewrite quantity_to_same_dims by (rewrite Hun; reflexivity).
  cbn [mbind result_bind]. eexists. eexists. split; [reflexivity|].
  assert (Hf : base_value (units (wavelength t)) / base_value u.cm == 1 / 10000000)
    by (rewrite Hun; reflexivity).
  assert (Hv : 1 / (1 / (value (wavelength t)
                         * (base_value (units (wavelength t)) / base_value u.cm)))
               == value (wavelength t) / 10000000).
  { rewrite Hf. field. lra. }
  unfold wavenumber_setter. cbn [q_inv units].
  replace (unit_eqb (unit_div u.dimensionless u.cm) (unit_pow u.cm (-1))) with true
    by reflexivity.
  split; [reflexivity|]. cbn [set_wavelength wavelength value units].
  split; [exact Hv|]. split; [reflexivity|].
  unfold Transition_lt. cbn [wavelength value].
  replace (Qltb _ _) with true; [reflexivity|].
  symmetry. apply Qltb_true. rewrite Hv.
  apply Qlt_shift_div_r; [reflexivity | lra].
Qed.

Lemma wavenumber_setter_stores_centimetres_witness :
  let t := mk_Transition 1 (mk_quantity 500 u.nm) 26 (Some "Fe") 1
             None None None None None None in
  exists wn t',
    wavenumber t = Return wn /\
    wavenumber_setter t (WnQuantity wn) = Return t' /\
    value (wavelength t') == 500 / 10000000 /\
    Transition_lt t' t = true.
Proof.
  cbv zeta.
  destruct (wavenumber_setter_stores_centimetres
              (mk_Transition 1 (mk_quantity 500 u.nm) 26 (Some "Fe") 1
                 None None None None None None) eq_refl)
    as (wn & t' & Hw & Hs & Hv & _ & Hlt).
  - reflexivity.
  - exists wn, t'. split; [exact Hw|]. split; [exact Hs|]. split; [exact Hv | exact Hlt].
Defined.

End Extra_wavenumber.

(** ** The order of pairs *)
Section Extra_pair_order.
Import transition_line transition_pair.

Lemma Transition_eq_true (a b : Transition) :
  Transition_eq a b = true <-> obj_id a = obj_id b.
Proof. unfold Transition_eq. apply Nat.eqb_eq. Qed.

Lemma Transition_lt_false (a b : Transition) :
  Transition_lt a b = false <-> value (wavelength b) <= value (wavelength a).
Proof.
  unfold Transition_lt. destruct (Qltb _ _) eqn:E.
  - apply Qltb_true in E. split; [discriminate | intros H; exfalso; lra].
  - apply Qltb_false in E. split; [intros _; exact E | reflexivity].
Qed.

Lemma Transition_gt_lt (a b : Transition) : Transition_gt a b = Transition_lt b a.
Proof. reflexivity. Qed.

Lemma TransitionPair_eq_true (p q : TransitionPair) :
  TransitionPair_eq p q = true <->
  obj_id (_lowerEnergyTransition p) = obj_id (_lowerEnergyTransition q) /\
  obj_id (_higherEnergyTransition p) = obj_id (_higherEnergyTransition q).
Proof.
  unfold TransitionPair_eq.
  destruct (Transition_eq (_lowerEnergyTransition p) (_lowerEnergyTransition q)) eqn:E1;
    destruct (Transition_eq (_higherEnergyTransition p) (_higherEnergyTransition q)) eqn:E2;
    cbn [andb]; rewrite <- !Transition_eq_true, E1, E2; intuition discriminate.
Qed.

Lemma TransitionPair_eq_sym (p q : TransitionPair) :
  TransitionPair_eq p q = TransitionPair_eq q p.
Proof.
  unfold TransitionPair_eq, Transition_eq.
  rewrite (Nat.eqb_sym (obj_id (_lowerEnergyTransition p))).
  rewrite (Nat.eqb_sym (obj_id (_higherEnergyTransition p))). reflexivity.
Qed.

Lemma TransitionPair_gt_lt (p q : TransitionPair) :
  TransitionPair_gt p q = TransitionPair_lt q p.
Proof.
  unfold TransitionPair_gt, TransitionPair_lt.
  rewrite (TransitionPair_eq_sym p q), !Transition_gt_lt.
  unfold Transition_eq. rewrite (Nat.eqb_sym (obj_id (_higherEnergyTransition p))).
  reflexivity.
Qed.

(** [<] on pairs, when an identity names one object. *)
Lemma TransitionPair_lt_true (p q : TransitionPair) :
  objects_distinct (members p ++ members q) ->
  TransitionPair_lt p q = true <->
  value (wavelength (_higherEnergyTransition p))
    < value (wavelength (_higherEnergyTransition q)) \/
  (_higherEnergyTransition p = _higherEnergyTransition q /\
   value (wavelength (_lowerEnergyTransition p))
     < value (wavelength (_lowerEnergyTransition q))).
Proof.
  intros Hd.
  assert (Hh : obj_id (_higherEnergyTransition p) = obj_id (_higherEnergyTransition q) ->
               _higherEnergyTransition p = _higherEnergyTransition q).
  { apply Hd; unfold members; cbn [app]; repeat constructor. }
  assert (Hl : obj_id (_lowerEnergyTransition p) = obj_id (_lowerEnergyTransition q) ->
               _lowerEnergyTransition p = _lowerEnergyTransition q).
  { apply Hd; unfold members; cbn [app]; repeat constructor. }
  unfold TransitionPair_lt.
  destruct (TransitionPair_eq p q) eqn:Eeq.
  { apply TransitionPair_eq_true in Eeq as [El Eh].
    apply Hh in Eh. apply Hl in El. rewrite Eh, El.
    split; [discriminate|]. intros [H|[_ H]]; exfalso; lra. }
  destruct (Transition_lt (_higherEnergyTransition p) (_higherEnergyTransition q)) eqn:E1.
  { apply Transition_lt_true in E1. split; [intros _; left; exact E1 | reflexivity]. }
  apply Transition_lt_false in E1.
  destruct (Transition_eq (_higherEnergyTransition p) (_higherEnergyTransition q)) eqn:E2.
  - apply Transition_eq_true in E2. apply Hh in E2.
    destruct (Transition_lt (_lowerEnergyTransition p) (_lowerEnergyTransition q)) eqn:E3.
    + apply Transition_lt_true in E3. split; [intros _; right; split; assumption | reflexivity].
    + apply Transition_lt_false in E3. split; [discriminate|].
      intros [H|[_ H]]; exfalso; lra.
  - split; [discriminate|]. intros [H|[H _]]; [exfalso; lra|].
    rewrite H in E2. unfold Transition_eq in E2. rewrite Nat.eqb_refl in E2. discriminate.
Qed.

Lemma objects_distinct_sub (l k : list Transition) :
  (forall x, x ∈ l -> x ∈ k) -> objects_distinct k -> objects_distinct l.
Proof. intros Hsub Hd a b Ha Hb. apply Hd; apply Hsub; assumption. Qed.

(** X7.  When an identity names one object, [<] on pairs is a strict
    order: no pair is below itself, the relation is transitive, and a pair
    below another is neither equal to it nor above it; [>] is the same
    relation read from the other side. *)
Theorem TransitionPair_lt_strict_order (p q r : TransitionPair) :
  objects_distinct (members p ++ members q ++ members r) ->
  TransitionPair_lt p p = false /\
  TransitionPair_gt q p = TransitionPair_lt p q /\
  (TransitionPair_lt p q = true -> TransitionPair_lt q r = true ->
   TransitionPair_lt p r = true) /\
  (TransitionPair_lt p q = true ->
   TransitionPair_lt q p = false /\ TransitionPair_eq p q = false).
Proof.
  intros Hd.
  assert (Hpq : objects_distinct (members p ++ members q))
    by (eapply objects_distinct_sub; [|exact Hd];
        intros x; rewrite !elem_of_app; tauto).
  assert (Hqp : objects_distinct (members q ++ members p))
    by (eapply objects_distinct_sub; [|exact Hd];
        intros x; rewrite !elem_of_app; tauto).
  assert (Hqr : objects_distinct (members q ++ members r))
    by (eapply objects_distinct_sub; [|exact Hd];
        intros x; rewrite !elem_of_app; tauto).
  assert (Hpr : objects_distinct (members p ++ members r))
    by (eapply objects_distinct_sub; [|exact Hd];
        intros x; rewrite !elem_of_app; tauto).
  split; [unfold TransitionPair_lt; rewrite TransitionPair_eq_refl; reflexivity|].
  split; [apply TransitionPair_gt_lt|]. split.
  - rewrite (TransitionPair_lt_true p q Hpq), (TransitionPair_lt_true q r Hqr),
      (TransitionPair_lt_true p r Hpr).
    intros [H1|[E1 H1]] [H2|[E2 H2]].
    + left. lra.
    + left. rewrite <- E2. exact H1.
    + left. rewrite E1. exact H2.
    + right. split; [congruence | lra].
  - intros Hlt. pose proof Hlt as Hlt'. apply (TransitionPair_lt_true p q Hpq) in Hlt'.
    split.
    + destruct (TransitionPair_lt q p) eqn:E; [|reflexivity].
      apply (TransitionPair_lt_true q p Hqp) in E.
      destruct Hlt' as [H1|[E1 H1]], E as [H2|[E2 H2]]; exfalso.
      * lra.
      * rewrite E2 in H1. lra.
      * rewrite E1 in H2. lra.
      * lra.
    + unfold TransitionPair_lt in Hlt. destruct (TransitionPair_eq p q); [discriminate|].
      reflexivity.
Qed.

Lemma TransitionPair_lt_strict_order_witness :
  let a := mk_Transition 1 (mk_quantity 500 u.nm) 26 (Some "Fe") 1
             None None None None None None in
  let b := mk_Transition 2 (mk_quantity 600 u.nm) 26 (Some "Fe") 1
             None None None None None None in
  let c := mk_Transition 3 (mk_quantity 700 u.nm) 26 (Some "Fe") 1
             None None None None None None in
  TransitionPair_lt (mk_TransitionPair b a None) (mk_TransitionPair c a None) = true /\
  TransitionPair_lt (mk_TransitionPair c a None) (mk_TransitionPair b a None) = false.
Proof.
  cbv zeta. split; [reflexivity|].
  apply (TransitionPair_lt_strict_order
           (mk_TransitionPair
              (mk_Transition 2 (mk_quantity 600 u.nm) 26 (Some "Fe") 1
                 None None None None None None)
              (mk_Transition 1 (mk_quantity 500 u.nm) 26 (Some "Fe") 1
                 None None None None None None) None)
           (mk_TransitionPair
              (mk_Transition 3 (mk_quantity 700 u.nm) 26 (Some "Fe") 1
                 None None None None None None)
              (mk_Transition 1 (mk_quantity 500 u.nm) 26 (Some "Fe") 1
                 None None None None None None) None)
           (mk_TransitionPair
              (mk_Transition 3 (mk_quantity 700 u.nm) 26 (Some "Fe") 1
                 None None None None None None)
              (mk_Transition 1 (mk_quantity 500 u.nm) 26 (Some "Fe") 1
                 None None None None None None) None)).
  - intros x y Hx Hy Hid. unfold members in Hx, Hy.
    cbn [_higherEnergyTransition _lowerEnergyTransition app] in Hx, Hy.
    repeat (apply elem_of_cons in Hx as [->|Hx]);
      try (apply elem_of_nil in Hx; contradiction);
      repeat (apply elem_of_cons in Hy as [->|Hy]);
      try (apply elem_of_nil in Hy; contradiction);
      try reflexivity; discriminate Hid.
  - reflexivity.
Defined.

(** X8.  The order is not total: two pairs whose higher-energy members
    are different objects of the same wavelength are neither equal, nor
    is one below or above the other, whatever their lower-energy
    members. *)
Theorem TransitionPair_incomparable (p q : TransitionPair) :
  obj_id (_higherEnergyTransition p) <> obj_id (_higherEnergyTransition q) ->
  value (wavelength (_higherEnergyTransition p))
    == value (wavelength (_higherEnergyTransition q)) ->
  TransitionPair_eq p q = false /\
  TransitionPair_lt p q = false /\ TransitionPair_gt p q = false.
Proof.
  intros Hid Hv.
  assert (Eeq : TransitionPair_eq p q = false).
  { destruct (TransitionPair_eq p q) eqn:E; [|reflexivity].
    apply TransitionPair_eq_true in E as [_ E]. contradiction. }
  assert (Ee : Transition_eq (_higherEnergyTransition p) (_higherEnergyTransition q) = false).
  { destruct (Transition_eq _ _) eqn:E; [|reflexivity].
    apply Transition_eq_true in E. contradiction. }
  assert (El : Transition_lt (_higherEnergyTransition p) (_higherEnergyTransition q) = false).
  { apply Transition_lt_false. rewrite Hv. apply Qle_refl. }
  assert (Eg : Transition_gt (_higherEnergyTransition p) (_higherEnergyTransition q) = false).
  { rewrite Transition_gt_lt. apply Transition_lt_false. rewrite Hv. apply Qle_refl. }
  split; [exact Eeq|].
  unfold TransitionPair_lt, TransitionPair_gt. rewrite Eeq, El, Eg, Ee. split; reflexivity.
Qed.

Lemma TransitionPair_incomparable_witness :
  let a := mk_Transition 1 (mk_quantity 500 u.nm) 26 (Some "Fe") 1
             None None None None None None in
  let a' := mk_Transition 2 (mk_quantity 500 u.nm) 26 (Some "Fe") 1
              None None None None None None in
  let b := mk_Transition 3 (mk_quantity 600 u.nm) 26 (Some "Fe") 1
             None None None None None None in
  let c := mk_Transition 4 (mk_quantity 700 u.nm) 26 (Some "Fe") 1
             None None None None None None in
  TransitionPair_lt (mk_TransitionPair b a None) (mk_TransitionPair c a' None) = false /\
  TransitionPair_gt (mk_TransitionPair b a None) (mk_TransitionPair c a' None) = false.
Proof.
  cbv zeta.
  apply (TransitionPair_incomparable
           (mk_TransitionPair
              (mk_Transition 3 (mk_quantity 600 u.nm) 26 (Some "Fe") 1
                 None None None None None None)
              (mk_Transition 1 (mk_quantity 500 u.nm) 26 (Some "Fe") 1
                 None None None None None None) None)
           (mk_TransitionPair
              (mk_Transition 4 (mk_quantity 700 u.nm) 26 (Some "Fe") 1
                 None None None None None None)
              (mk_Transition 2 (mk_quantity 500 u.nm) 26 (Some "Fe") 1
                 None None None None None None) None)).
  - cbn. lia.
  - reflexivity.
Defined.

End Extra_pair_order.

(** ** [date2index] *)
Section Extra_date2index.
Import miscellaneous.

Lemma lex_compare_antisym (a b : list Z) :
  lex_compare b a = CompOpp (lex_compare a b).
Proof.
  revert b. induction a as [|x a IH]; intros [|y b]; cbn [lex_compare]; try reflexivity.
  rewrite (Z.compare_antisym x y). destruct (x ?= y)%Z; cbn [CompOpp]; [apply IH | | ]; reflexivity.
Qed.

Lemma datetime_leb_false (a b : datetime) :
  datetime_leb a b = false <-> datetime_ltb b a = true.
Proof.
  unfold datetime_leb, datetime_ltb, datetime_compare.
  rewrite (lex_compare_antisym (datetime_fields a) (datetime_fields b)).
  destruct (lex_compare (datetime_fields a) (datetime_fields b)); cbn [CompOpp];
    intuition discriminate.
Qed.

Lemma datetime_ltb_leb (a b : datetime) :
  datetime_ltb a b = true -> datetime_leb a b = true.
Proof.
  unfold datetime_leb, datetime_ltb. destruct (datetime_compare a b); intuition discriminate.
Qed.

Lemma date_loop_search (d : datetime) (l : list datetime) (n i : nat) :
  (i + n = length l)%nat ->
  (exists j x, (i <= j)%nat /\ l !! j = Some x /\ datetime_ltb d x = true) ->
  exists k, date_loop d l i n = Return (Some k) /\ (i <= k)%nat /\
    (exists x, l !! k = Some x /\ datetime_ltb d x = true) /\
    forall j y, (i <= j < k)%nat -> l !! j = Some y -> datetime_ltb d y = false.
Proof.
  revert i. induction n as [|n IH]; intros i Hlen (j & x & Hj & Hx & Hlt).
  - apply lookup_lt_Some in Hx. lia.
  - destruct (lookup_lt_is_Some_2 l i) as [y Hy]; [lia|].
    cbn [date_loop]. rewrite (py_index_nat l i y Hy). cbn [mbind result_bind].
    destruct (datetime_ltb d y) eqn:E.
    + exists i. split; [reflexivity|]. split; [lia|]. split; [eauto|].
      intros j' y' Hj'. lia.
    + destruct (IH (S i)) as (k & Hk & Hik & Hex & Hbefore).
      * lia.
      * exists j, x. split; [|split; assumption].
        destruct (decide (j = i)) as [->|]; [|lia]. congruence.
      * exists k. split; [exact Hk|]. split; [lia|]. split; [exact Hex|].
        intros j' y' Hj' Hy'. destruct (decide (j' = i)) as [->|].
        -- congruence.
        -- apply (Hbefore j' y'); [lia | exact Hy'].
Qed.

(** X9.  [date2index] on a non-empty list: a date not after the first
    timestamp gives 0; a later date not before the last timestamp gives
    [None]; any other date gives the index, at least 1, of the first
    timestamp after the date, not of the one before it.  A [date] counts as
    its midnight, an empty list raises [IndexError], and a value that is no
    date raises [RuntimeError]. *)
Theorem date2index_first_later (d first_date last_date : datetime)
    (date_list : list datetime) :
  head date_list = Some first_date -> last date_list = Some last_date ->
  (datetime_leb d first_date = true ->
   date2index (ADatetime d) date_list = Return (Some 0%nat)) /\
  (datetime_leb d first_date = false -> datetime_leb last_date d = true ->
   date2index (ADatetime d) date_list = Return None) /\
  (datetime_leb d first_date = false -> datetime_leb last_date d = false ->
   exists i,
     date2index (ADatetime d) date_list = Return (Some i) /\ (0 < i)%nat /\
     (exists x, date_list !! i = Some x /\ datetime_ltb d x = true) /\
     forall j y, (j < i)%nat -> date_list !! j = Some y -> datetime_ltb d y = false) /\
  (forall y m dd,
     date2index (ADate y m dd) date_list
       = date2index (ADatetime (mk_datetime y m dd 0 0 0 0)) date_list) /\
  date2index (ADatetime d) [] = raise IndexError "index out of range" /\
  date2index AOther date_list = raise RuntimeError "given_date not date or datetime!".
Proof.
  intros Hfirst Hlast.
  assert (H0 : date_list !! 0%nat = Some first_date) by (rewrite <- head_lookup; exact Hfirst).
  assert (Ef : py_index date_list 0 = Return first_date)
    by (apply (py_index_nat date_list 0 first_date H0)).
  assert (El : py_index date_list (-1) = Return last_date)
    by (apply py_index_last; exact Hlast).
  split; [|split; [|split; [|split; [|split]]]].
  - intros Hle. unfold date2index. cbn [mbind result_bind]. rewrite Ef.
    cbn [mbind result_bind]. rewrite Hle. reflexivity.
  - intros Hf Hl. unfold date2index. cbn [mbind result_bind]. rewrite Ef.
    cbn [mbind result_bind]. rewrite Hf, El. cbn [mbind result_bind]. rewrite Hl.
    reflexivity.
  - intros Hf Hl. unfold date2index. cbn [mbind result_bind]. rewrite Ef.
    cbn [mbind result_bind]. rewrite Hf, El. cbn [mbind result_bind]. rewrite Hl.
    destruct (date_loop_search d date_list (length date_list) 0) as (k & Hk & _ & Hex & Hb).
    + reflexivity.
    + rewrite last_lookup in Hlast. exists (pred (length date_list)), last_date.
      split; [lia|]. split; [exact Hlast|]. apply datetime_leb_false. exact Hl.
    + exists k. split; [exact Hk|]. split.
      * destruct k as [|k]; [|lia]. exfalso.
        destruct Hex as (x & Hx & Hlt). rewrite H0 in Hx. injection Hx as <-.
        apply datetime_ltb_leb in Hlt. congruence.
      * split; [exact Hex|]. intros j y Hj. apply Hb. lia.
  - reflexivity.
  - reflexivity.
  - reflexivity.
Qed.

Lemma date2index_first_later_witness :
  let l := [mk_datetime 2005 5 2 3 49 8 735000; mk_datetime 2010 1 1 0 0 0 0;
            mk_datetime 2015 6 1 12 0 0 0] in
  exists i,
    date2index (ADate 2012 2 26) l = Return (Some i) /\ (0 < i)%nat /\
    exists x, l !! i = Some x /\ datetime_ltb (mk_datetime 2012 2 26 0 0 0 0) x = true.
Proof.
  cbv zeta.
  destruct (date2index_first_later (mk_datetime 2012 2 26 0 0 0 0)
              (mk_datetime 2005 5 2 3 49 8 735000) (mk_datetime 2015 6 1 12 0 0 0)
              [mk_datetime 2005 5 2 3 49 8 735000; mk_datetime 2010 1 1 0 0 0 0;
               mk_datetime 2015 6 1 12 0 0 0] eq_refl eq_refl)
    as (_ & _ & H & Hdate & _).
  destruct H as (i & Hi & Hpos & Hx & _); [reflexivity | reflexivity |].
  exists i. split; [rewrite Hdate; exact Hi|]. split; [exact Hpos | exact Hx].
Defined.

End Extra_date2index.

(** ** Doppler shifts and velocities *)
Section Extra_shift.
Import miscellaneous conversions.

Lemma c_value_nonzero : ~ u.c_value == 0.
Proof. intros H. vm_compute in H. discriminate H. Qed.

Lemma Forall2_map_same {A B : Type} (f : A -> B) (R : A -> B -> Prop) (l : list A) :
  (forall x, R x (f x)) -> Forall2 R l (map f l).
Proof. intros H. induction l; cbn [map]; constructor; auto. Qed.

Lemma shift_wavelength_eq (wavelength : unyt_array) (shift_velocity : unyt_quantity) :
  unit_dims (arr_units wavelength) = u.length ->
  unit_dims (units shift_velocity) = u.velocity ->
  let v := value shift_velocity * (base_value (units shift_velocity) / base_value u.m_per_s) in
  let b := base_value (arr_units wavelength) in
  shift_wavelength wavelength shift_velocity =
    if negb (Qltb (Qabs v) u.c_value)
    then raise AssertionError "Given velocity exceeds speed of light!"
    else Return (mk_array
                   (mk_ndarray (shape (arr_data wavelength))
                      (map (fun x => x * (base_value u.m / b))
                         (map (fun w => v / u.c_value * w + w)
                            (map (fun x => x * (b / base_value u.m))
                               (flat (arr_data wavelength))))))
                   (arr_units wavelength)).
Proof.
  intros Hw Hv. cbv zeta. unfold shift_wavelength.
  rewrite array_to_same_dims by exact Hw. cbn [mbind result_bind].
  rewrite quantity_to_same_dims by exact Hv. cbn [mbind result_bind value].
  destruct (negb _); [reflexivity|].
  rewrite array_to_same_dims by (cbn [arr_units]; symmetry; exact Hw).
  reflexivity.
Qed.

(** X10.  For wavelengths with units of length and a velocity [v] (in m/s
    after conversion) below the speed of light in magnitude,
    [shift_wavelength] returns an array of the same shape, in the units it
    was given, with each wavelength multiplied by [1 + v / c]; a zero
    velocity changes nothing.  A velocity of magnitude [c] or more fails
    the assertion. *)
Theorem shift_wavelength_factor (wavelength : unyt_array) (shift_velocity : unyt_quantity) :
  unit_dims (arr_units wavelength) = u.length ->
  unit_dims (units shift_velocity) = u.velocity ->
  ~ base_value (arr_units wavelength) == 0 ->
  let v := value shift_velocity * base_value (units shift_velocity) in
  (Qabs v < u.c_value ->
   exists r,
     shift_wavelength wavelength shift_velocity = Return r /\
     arr_units r = arr_units wavelength /\
     shape (arr_data r) = shape (arr_data wavelength) /\
     Forall2 (fun w x => x == w * (1 + v / u.c_value))
             (flat (arr_data wavelength)) (flat (arr_data r)) /\
     (v == 0 -> Forall2 Qeq (flat (arr_data wavelength)) (flat (arr_data r)))) /\
  (u.c_value <= Qabs v ->
   shift_wavelength wavelength shift_velocity
     = raise AssertionError "Given velocity exceeds speed of light!").
Proof.
  intros Hw Hv Hb. cbv zeta.
  rewrite (shift_wavelength_eq wavelength shift_velocity Hw Hv). cbv zeta.
  set (b := base_value (arr_units wavelength)) in *.
  set (v := value shift_velocity * base_value (units shift_velocity)).
  assert (Ev : value shift_velocity * (base_value (units shift_velocity) / base_value u.m_per_s)
               == v).
  { unfold v. change (base_value u.m_per_s) with 1. field. }
  rewrite (Qltb_wd _ (Qabs v) _ u.c_value) by (rewrite ?Ev; reflexivity).
  split.
  - intros Hlt. replace (Qltb (Qabs v) u.c_value) with true
      by (symmetry; apply Qltb_true; exact Hlt).
    cbn [negb]. eexists. split; [reflexivity|].
    cbn [arr_units arr_data shape flat]. split; [reflexivity|]. split; [reflexivity|].
    assert (HF : Forall2 (fun w x => x == w * (1 + v / u.c_value))
                   (flat (arr_data wavelength))
                   (map (fun x => x * (base_value u.m / b))
                      (map (fun w => value shift_velocity
                                     * (base_value (units shift_velocity) / base_value u.m_per_s)
                                     / u.c_value * w + w)
                         (map (fun x => x * (b / base_value u.m))
                            (flat (arr_data wavelength)))))).
    { rewrite !map_map. apply Forall2_map_same. intros x. rewrite Ev.
      change (base_value u.m) with 1. field. split; [exact c_value_nonzero | exact Hb]. }
    split; [exact HF|].
    intros Hz. eapply Forall2_impl; [exact HF|].
    intros w x Hx. cbv beta in Hx. rewrite Hx, Hz. field. exact c_value_nonzero.
  - intros Hge. replace (Qltb (Qabs v) u.c_value) with false
      by (symmetry; apply Qltb_false; exact Hge).
    reflexivity.
Qed.

Lemma shift_wavelength_factor_witness :
  exists r,
    shift_wavelength (mk_array (mk_ndarray [2%nat] [5000; 6000]) u.angstrom)
                     (mk_quantity 30 u.km_per_s) = Return r /\
    arr_units r = u.angstrom /\
    Forall2 (fun w x => x == w * (1 + 30000 / u.c_value)) [5000; 6000] (flat (arr_data r)).
Proof.
  destruct (shift_wavelength_factor
              (mk_array (mk_ndarray [2%nat] [5000; 6000]) u.angstrom)
              (mk_quantity 30 u.km_per_s) eq_refl eq_refl) as [H _].
  - discriminate.
  - destruct H as (r & Hr & Hu & _ & HF & _); [reflexivity|].
    exists r. split; [exact Hr|]. split; [exact Hu|].
    eapply Forall2_impl; [exact HF|]. intros w x Hx. cbv beta in Hx.
    rewrite Hx. reflexivity.
Defined.

(** X11.  [shift_wavelength] converts its arguments in place: after a call
    that returns, the caller's array is in metres and the velocity in m/s.
    The result of that call is in the units the array had; a second call
    with the same two objects returns the same wavelengths in metres. *)
Theorem shift_wavelength_converts_arguments (wavelength : unyt_array)
    (shift_velocity : unyt_quantity) (r : unyt_array) :
  unit_dims (arr_units wavelength) = u.length ->
  ~ base_value (arr_units wavelength) == 0 ->
  shift_wavelength wavelength shift_velocity = Return r ->
  exists wavelength' shift_velocity' r',
    shift_wavelength_inplace wavelength shift_velocity
      = (wavelength', shift_velocity', Return r) /\
    array_to wavelength u.m = Return wavelength' /\
    quantity_to shift_velocity u.m_per_s = Return shift_velocity' /\
    arr_units r = arr_units wavelength /\
    shift_wavelength wavelength' shift_velocity' = Return r' /\
    arr_units r' = u.m /\
    Forall2 (fun x y => y == x * base_value (arr_units wavelength))
            (flat (arr_data r)) (flat (arr_data r')).
Proof.
  intros Hw Hb Hr.
  destruct (decide (unit_dims (units shift_velocity) = u.velocity)) as [Hv|Hv].
  2: { exfalso. unfold shift_wavelength in Hr.
       rewrite array_to_same_dims in Hr by exact Hw. cbn [mbind result_bind] in Hr.
       rewrite quantity_to_other_dims in Hr by exact Hv. discriminate Hr. }
  pose proof Hr as Hr0.
  rewrite (shift_wavelength_eq wavelength shift_velocity Hw Hv) in Hr. cbv zeta in Hr.
  set (b := base_value (arr_units wavelength)) in *.
  set (v := value shift_velocity * (base_value (units shift_velocity) / base_value u.m_per_s)) in *.
  destruct (Qltb (Qabs v) u.c_value) eqn:Elt; cbn [negb] in Hr; [|discriminate Hr].
  injection Hr as <-.
  eexists. eexists. eexists.
  split.
  { unfold shift_wavelength_inplace.
    rewrite array_to_same_dims by exact Hw.
    rewrite quantity_to_same_dims by exact Hv. cbn [value]. fold v. rewrite Elt.
    cbn [negb]. rewrite array_to_same_dims by (cbn [arr_units]; symmetry; exact Hw).
    reflexivity. }
  split; [apply array_to_same_dims; exact Hw|].
  split; [apply quantity_to_same_dims; exact Hv|].
  split; [reflexivity|].
  rewrite shift_wavelength_eq by reflexivity. cbv zeta.
  cbn [value units arr_units arr_data flat shape]. fold v.
  assert (Ev : v * (base_value u.m_per_s / base_value u.m_per_s) == v).
  { change (base_value u.m_per_s) with 1. field. }
  rewrite (Qltb_wd _ (Qabs v) _ u.c_value) by (rewrite ?Ev; reflexivity).
  rewrite Elt. cbn [negb]. split; [reflexivity|].
  cbn [arr_units arr_data flat]. split; [reflexivity|].
  rewrite !map_map. apply Forall2_fmap. apply Forall_Forall2_diag.
  apply Forall_forall. intros x _. cbv beta. rewrite Ev. fold b.
  change (base_value u.m) with 1. field. split; [exact Hb | exact c_value_nonzero].
Qed.

Lemma shift_wavelength_converts_arguments_witness :
  exists wavelength' shift_velocity' r r',
    shift_wavelength_inplace (mk_array (mk_ndarray [1%nat] [5000]) u.angstrom)
                             (mk_quantity 0 u.km_per_s)
      = (wavelength', shift_velocity', Return r) /\
    arr_units r = u.angstrom /\
    shift_wavelength wavelength' shift_velocity' = Return r' /\ arr_units r' = u.m.
Proof.
  assert (Hr : exists r,
             shift_wavelength (mk_array (mk_ndarray [1%nat] [5000]) u.angstrom)
                              (mk_quantity 0 u.km_per_s) = Return r)
    by (eexists; vm_compute; reflexivity).
  destruct Hr as [r Hr].
  assert (Hb : ~ base_value (arr_units (mk_array (mk_ndarray [1%nat] [5000]) u.angstrom)) == 0)
    by discriminate.
  destruct (shift_wavelength_converts_arguments
              (mk_array (mk_ndarray [1%nat] [5000]) u.angstrom)
              (mk_quantity 0 u.km_per_s) r eq_refl Hb Hr)
    as (w' & v' & r' & H1 & _ & _ & H2 & H3 & H4 & _).
  exists w', v', r, r'.
  split; [exact H1|]. split; [exact H2|]. split; [exact H3 | exact H4].
Defined.

End Extra_shift.

Section Extra_velocity.
Import miscellaneous.

(** The velocity between two wavelengths of the same dimensions, from
    their values [m1] and [m2] in base units. *)
Lemma wavelength2velocity_base_units (w1 w2 : unyt_quantity) :
  unit_dims (units w1) = unit_dims (units w2) ->
  ~ base_value (units w1) == 0 -> ~ base_value (units w2) == 0 ->
  let m1 := value w1 * base_value (units w1) in
  let m2 := value w2 * base_value (units w2) in
  ~ m1 + m2 == 0 ->
  exists v,
    wavelength2velocity w1 w2 = Return v /\ units v = u.m_per_s /\
    value v == (m2 - m1) * u.c_value / ((m1 + m2) / 2).
Proof.
  intros Hd Hb1 Hb2. cbv zeta. intros Hsum.
  unfold wavelength2velocity, q_sub, q_add.
  rewrite (quantity_to_same_dims w1 (units w2)) by exact Hd.
  cbn [mbind result_bind value units].
  rewrite (quantity_to_same_dims w2 (units w1)) by (symmetry; exact Hd).
  cbn [mbind result_bind value units].
  rewrite quantity_to_same_dims.
  2: { cbn [q_div q_mul q_div_scalar units unit_div unit_mul unit_dims u.m_per_s
              dim_length dim_time u.velocity].
       rewrite Hd. destruct (unit_dims (units w2)) as [l t]. cbn [dim_length dim_time].
       f_equal; lia. }
  eexists. split; [reflexivity|]. split; [reflexivity|].
  cbn [value units q_div q_mul q_div_scalar unit_div unit_mul base_value].
  change (base_value u.m_per_s) with 1.
  set (v1 := value w1) in *. set (v2 := value w2) in *.
  set (b1 := base_value (units w1)) in *. set (b2 := base_value (units w2)) in *.
  assert (Hs : ~ v1 + v2 * (b2 / b1) == 0).
  { intros H. apply Hsum.
    assert (E : v1 * b1 + v2 * b2 == (v1 + v2 * (b2 / b1)) * b1) by (field; exact Hb1).
    rewrite E, H. ring. }
  field. repeat split; assumption.
Qed.

(** X13.  [wavelength2velocity] does not depend on the units the two
    wavelengths are given in: with [m1] and [m2] their values in base
    units, the result is [(m2 - m1) * c / ((m1 + m2) / 2)] in m/s, and
    exchanging the arguments changes its sign. *)
Theorem wavelength2velocity_units_independent (w1 w2 : unyt_quantity) :
  unit_dims (units w1) = unit_dims (units w2) ->
  ~ base_value (units w1) == 0 -> ~ base_value (units w2) == 0 ->
  let m1 := value w1 * base_value (units w1) in
  let m2 := value w2 * base_value (units w2) in
  ~ m1 + m2 == 0 ->
  exists v v',
    wavelength2velocity w1 w2 = Return v /\ units v = u.m_per_s /\
    value v == (m2 - m1) * u.c_value / ((m1 + m2) / 2) /\
    wavelength2velocity w2 w1 = Return v' /\ value v' == - value v.
Proof.
  intros Hd Hb1 Hb2. cbv zeta. intros Hsum.
  destruct (wavelength2velocity_base_units w1 w2 Hd Hb1 Hb2 Hsum) as (v & Hv & Hu & Hval).
  destruct (wavelength2velocity_base_units w2 w1 (eq_sym Hd) Hb2 Hb1) as (v' & Hv' & _ & Hval').
  { intros H. apply Hsum. rewrite <- H. ring. }
  exists v, v'. split; [exact Hv|]. split; [exact Hu|]. split; [exact Hval|].
  split; [exact Hv'|]. rewrite Hval, Hval'. field.
  repeat split; try assumption; intros H; apply Hsum; rewrite <- H; ring.
Qed.

Lemma wavelength2velocity_units_independent_witness :
  exists v v',
    wavelength2velocity (mk_quantity 500 u.nm) (mk_quantity 5001 u.angstrom) = Return v /\
    value v == (5001 * base_value u.angstrom - 500 * base_value u.nm) * u.c_value
               / ((500 * base_value u.nm + 5001 * base_value u.angstrom) / 2) /\
    wavelength2velocity (mk_quantity 5001 u.angstrom) (mk_quantity 500 u.nm) = Return v' /\
    value v' == - value v.
Proof.
  destruct (wavelength2velocity_units_independent
              (mk_quantity 500 u.nm) (mk_quantity 5001 u.angstrom) eq_refl)
    as (v & v' & Hv & _ & Hval & Hv' & Hneg).
  - discriminate.
  - discriminate.
  - discriminate.
  - exists v, v'. split; [exact Hv|]. split; [exact Hval|]. split; [exact Hv' | exact Hneg].
Defined.

(** X12.  [velocity2wavelength] undoes [wavelength2velocity]: the velocity
    between two wavelengths of the same unit, taken at their mean
    wavelength, gives back their difference, in that unit, or converted to
    the unit asked for. *)
Theorem velocity2wavelength_of_wavelength2velocity (w1 w2 : unyt_quantity) :
  units w1 = units w2 ->
  unit_dims (units w1) = u.length ->
  ~ base_value (units w1) == 0 ->
  ~ value w1 + value w2 == 0 ->
  let mean := mk_quantity ((value w1 + value w2) / 2) (units w1) in
  exists v d,
    wavelength2velocity w1 w2 = Return v /\
    velocity2wavelength v mean None = Return d /\
    units d = units w1 /\ value d == value w2 - value w1 /\
    forall un, unit_dims un = u.length -> ~ base_value un == 0 ->
      exists d', velocity2wavelength v mean (Some un) = Return d' /\
                 units d' = un /\
                 value d' == (value w2 - value w1) * (base_value (units w1) / base_value un).
Proof.
  intros Hun Hd Hb Hsum. cbv zeta.
  destruct (wavelength2velocity_same_units w1 w2 Hun) as (v & Hv & Hu & Hval).
  specialize (Hval Hb Hsum).
  exists v. unfold velocity2wavelength. cbn [units].
  rewrite quantity_to_same_dims.
  2: { cbn [q_div q_mul units unit_div unit_mul unit_dims]. rewrite Hu, Hd. reflexivity. }
  eexists. split; [exact Hv|]. split; [reflexivity|]. split; [reflexivity|].
  assert (E : forall f,
             value (q_div (q_mul v (mk_quantity ((value w1 + value w2) / 2) (units w1)))
                          (mk_quantity u.c_value u.m_per_s))
             * (base_value (unit_div (unit_mul (units v) (units w1)) u.m_per_s) / f)
             == (value w2 - value w1) * (base_value (units w1) / f)).
  { intros f. cbn [value units q_div q_mul unit_div unit_mul base_value].
    rewrite Hu, Hval. change (base_value u.m_per_s) with 1.
    destruct (Qeq_dec f 0) as [Hf|Hf].
    - rewrite Hf. unfold Qdiv. change (/ 0) with 0. ring.
    - field. repeat split; try assumption. exact c_value_nonzero. }
  split.
  - cbn [value units]. cbn [q_div q_mul units] in E |- *. rewrite E. field. exact Hb.
  - intros un Hdu Hbu. rewrite quantity_to_same_dims.
    2: { cbn [q_div q_mul units unit_div unit_mul unit_dims]. rewrite Hu, Hd, Hdu. reflexivity. }
    eexists. split; [reflexivity|]. split; [reflexivity|].
    cbn [value units]. cbn [q_div q_mul units] in E |- *. apply E.
Qed.

Lemma velocity2wavelength_of_wavelength2velocity_witness :
  exists v d,
    wavelength2velocity (mk_quantity 500 u.nm) (mk_quantity 501 u.nm) = Return v /\
    velocity2wavelength v (mk_quantity ((500 + 501) / 2) u.nm) None = Return d /\
    units d = u.nm /\ value d == 501 - 500.
Proof.
  destruct (velocity2wavelength_of_wavelength2velocity
              (mk_quantity 500 u.nm) (mk_quantity 501 u.nm) eq_refl eq_refl)
    as (v & d & Hv & Hd & Hu & Hval & _).
  - discriminate.
  - discriminate.
  - exists v, d. split; [exact Hv|]. split; [exact Hd|]. split; [exact Hu | exact Hval].
Defined.

End Extra_velocity.

(** ** [wavelength2index] with a wavelength in other units *)
Section Extra_wavelength2index_units.
Import miscellaneous.

(** X14.  The wavelength may be given in any unit of the array's
    dimensions (both units with a positive factor): [wavelength2index]
    gives what it gives for the wavelength converted to the array's
    units, the same index or the same exception. *)
Theorem wavelength2index_query_units (wavelength converted : unyt_quantity)
    (wavelength_array : unyt_array) :
  0 < base_value (units wavelength) ->
  0 < base_value (arr_units wavelength_array) ->
  quantity_to wavelength (arr_units wavelength_array) = Return converted ->
  wavelength2index (Quantity wavelength) wavelength_array false
  = wavelength2index (Quantity converted) wavelength_array false.
Proof.
  intros Hq Ha Hc.
  destruct (decide (unit_dims (units wavelength) = unit_dims (arr_units wavelength_array)))
    as [Hd|Hd].
  - rewrite (quantity_to_same_dims _ _ Hd) in Hc. injection Hc as <-.
    apply (wavelength2index_converted wavelength wavelength_array Hq Ha Hd false).
  - rewrite (quantity_to_other_dims _ _ Hd) in Hc. discriminate Hc.
Qed.

Lemma wavelength2index_query_units_witness :
  let arr := mk_array (mk_ndarray [4%nat] [5000; 5001; 5003; 5004]) u.angstrom in
  wavelength2index (Quantity (mk_quantity 500.12 u.nm)) arr false
  = wavelength2index
      (Quantity (mk_quantity (500.12 * (base_value u.nm / base_value u.angstrom)) u.angstrom))
      arr false.
Proof.
  cbv zeta.
  apply (wavelength2index_query_units (mk_quantity 500.12 u.nm) _
           (mk_array (mk_ndarray [4%nat] [5000; 5001; 5003; 5004]) u.angstrom)).
  - reflexivity.
  - reflexivity.
  - reflexivity.
Defined.

End Extra_wavelength2index_units.

Section Extra_wavelength2index_refused.
Import miscellaneous.

(** X26.  [wavelength2index] cannot search an array in decreasing order:
    on a 1-D array whose last element is not greater than its first,
    every wavelength of the array's dimensions raises [RuntimeError]
    without [reverse], and [reverse=True], the option meant for such an
    array, raises [AttributeError] on every [unyt_array], which has no
    method [reverse].  An array that is not one-dimensional is refused as
    well: [IndexError] for a 0-d array, [ValueError] for an array of more
    dimensions with rows of several elements. *)
Theorem wavelength2index_decreasing (wavelength converted : unyt_quantity)
    (wavelength_array : unyt_array) :
  0 < base_value (units wavelength) ->
  0 < base_value (arr_units wavelength_array) ->
  quantity_to wavelength (arr_units wavelength_array) = Return converted ->
  wavelength2index (Quantity wavelength) wavelength_array true
    = raise AttributeError "'unyt_array' object has no attribute 'reverse'" /\
  (forall n lo hi,
     shape (arr_data wavelength_array) = [n] ->
     head (flat (arr_data wavelength_array)) = Some lo ->
     last (flat (arr_data wavelength_array)) = Some hi ->
     hi <= lo ->
     wavelength2index (Quantity wavelength) wavelength_array false
       = raise RuntimeError "Couldn't find the given wavelength") /\
  (shape (arr_data wavelength_array) = [] ->
   wavelength2index (Quantity wavelength) wavelength_array false
     = raise IndexError "too many indices for array") /\
  (forall r c rest,
     shape (arr_data wavelength_array) = r :: c :: rest ->
     (0 < r)%nat -> (1 < prod_shape (c :: rest))%nat ->
     wavelength2index (Quantity wavelength) wavelength_array false
       = raise ValueError "The truth value of an array is ambiguous").
Proof.
  intros Hq Ha Hc.
  assert (Hd : unit_dims (units wavelength) = unit_dims (arr_units wavelength_array)).
  { destruct (decide (unit_dims (units wavelength)
                      = unit_dims (arr_units wavelength_array))) as [Hd|Hd]; [exact Hd|].
    rewrite (quantity_to_other_dims _ _ Hd) in Hc. discriminate Hc. }
  split; [reflexivity|]. split; [|split].
  - intros n lo hi Hsh Hlo Hhi Hle.
    rewrite (quantity_to_same_dims _ _ Hd) in Hc. injection Hc as Hc.
    rewrite (wavelength2index_converted wavelength wavelength_array Hq Ha Hd false).
    rewrite Hc. unfold wavelength2index. rewrite Hsh.
    apply (wavelength2index_elements_closest converted wavelength_array lo hi).
    + rewrite <- Hc. reflexivity.
    + lra.
    + exact Hlo.
    + exact Hhi.
    + intros [H1 H2]. lra.
  - intros Hsh. unfold wavelength2index. rewrite Hsh. reflexivity.
  - intros r c rest Hsh Hr Hm. unfold wavelength2index. rewrite Hsh.
    destruct (r =? 0)%nat eqn:Er; [apply Nat.eqb_eq in Er; lia|].
    destruct (prod_shape (c :: rest) =? 1)%nat eqn:Em; [apply Nat.eqb_eq in Em; lia|].
    unfold get_conversion_factor. rewrite decide_True by exact Hd. reflexivity.
Qed.

Lemma wavelength2index_decreasing_witness :
  let arr := mk_array (mk_ndarray [4%nat] [5004; 5003; 5001; 5000]) u.angstrom in
  wavelength2index (Quantity (mk_quantity 500.12 u.nm)) arr false
    = raise RuntimeError "Couldn't find the given wavelength" /\
  wavelength2index (Quantity (mk_quantity 500.12 u.nm)) arr true
    = raise AttributeError "'unyt_array' object has no attribute 'reverse'".
Proof.
  cbv zeta.
  destruct (wavelength2index_decreasing
              (mk_quantity 500.12 u.nm)
              (mk_quantity (500.12 * (base_value u.nm / base_value u.angstrom)) u.angstrom)
              (mk_array (mk_ndarray [4%nat] [5004; 5003; 5001; 5000]) u.angstrom))
    as (Hrev & Hdec & _).
  - reflexivity.
  - reflexivity.
  - reflexivity.
  - split; [|exact Hrev].
    apply (Hdec 4%nat 5004 5000); [reflexivity | reflexivity | reflexivity | discriminate].
Defined.

End Extra_wavelength2index_refused.


(** ** The conversions on optical wavelengths *)
Section Extra_conversions.
Import conversions.

Lemma iterate_bounds (air : Q) (j : nat) :
  3000 <= air -> (1 <= j)%nat ->
  air < iterate air j /\ iterate air j <= 1.000295 * air.
Proof.
  intros Hlo Hj. destruct j as [|j]; [lia|]. cbn [iterate].
  pose proof (iterate_ge air Hlo j) as Hge.
  destruct (air_index_bounds (iterate air j)) as [Hn Hn']; [lra|]. nra.
Qed.

Lemma unit_ratio_inverse (b c x : Q) : ~ b == 0 -> ~ c == 0 -> x * (c / b) * (b / c) == x.
Proof. intros Hb Hc. field. split; assumption. Qed.

(** X15.  For a vacuum wavelength of at least 3000 Angstroms the Edlen
    index is above 1 and at most 1.000295, so [vac2airESO] returns a
    shorter wavelength, by less than 0.0295 per cent, for a float as for a
    quantity in Angstroms. *)
Theorem vac2airESO_shortens (ll : Q) :
  3000 <= ll ->
  1 < air_indexEdlen53 ll /\ air_indexEdlen53 ll <= 1.000295 /\
  exists y q,
    vac2airESO (WFloat ll) = Return (WFloat y) /\
    vac2airESO (WQuantity (mk_quantity ll u.angstrom)) = Return (WQuantity q) /\
    units q = u.angstrom /\ value q == y /\
    ll * 0.999705 < y /\ y < ll.
Proof.
  intros Hlo. destruct (air_index_bounds ll Hlo) as [Hn Hn'].
  split; [exact Hn|]. split; [exact Hn'|].
  destruct (inv_pos_bounds (air_indexEdlen53 ll) 1) as (Hr & Hr' & Er); [lra | lra |].
  exists (ll / air_indexEdlen53 ll * 1). eexists.
  split; [reflexivity|]. split.
  { unfold vac2airESO. cbn [units].
    rewrite quantity_to_same_dims by reflexivity. reflexivity. }
  cbn [units value]. split; [reflexivity|].
  assert (Ell : ll * (base_value u.angstrom / base_value u.angstrom) == ll).
  { rewrite angstrom_factor. ring. }
  split.
  { rewrite Ell. ring. }
  assert (E1 : / 1 == 1) by reflexivity. rewrite E1 in Hr'.
  assert (Ey : ll / air_indexEdlen53 ll * 1 == ll * / air_indexEdlen53 ll)
    by (field; lra).
  rewrite Ey. split; [|nra].
  assert (H1 : 0.999705 * air_indexEdlen53 ll < 1) by nra.
  assert (H2 : 0.999705 < / air_indexEdlen53 ll) by nra.
  nra.
Qed.

Lemma vac2airESO_shortens_witness :
  exists y, vac2airESO (WFloat 5000) = Return (WFloat y) /\ 5000 * 0.999705 < y /\ y < 5000.
Proof.
  destruct (vac2airESO_shortens 5000) as (_ & _ & y & q & Hy & _ & _ & _ & Hlo & Hhi).
  - discriminate.
  - exists y. split; [exact Hy|]. split; [exact Hlo | exact Hhi].
Defined.

(** X16.  On a 1-D or 2-D array of air wavelengths between 3000 and 7000
    Angstroms, in any unit of length, [air2vacESO] returns: the iteration
    of every element ends within the 100 passes allowed.  The result has
    the shape and the units of the input, and each vacuum wavelength is
    longer than the air wavelength, by at most 0.0295 per cent. *)
Theorem air2vacESO_optical_range (a : unyt_array) :
  unit_dims (arr_units a) = u.length ->
  0 < base_value (arr_units a) ->
  (ndim (arr_data a) = 1 \/ ndim (arr_data a) = 2)%nat ->
  ndarray_wf (arr_data a) ->
  Forall (fun x => 3000 <= to_angstrom (arr_units a) x <= 7000) (flat (arr_data a)) ->
  exists res,
    air2vacESO a = Return res /\
    shape (arr_data res) = shape (arr_data a) /\
    arr_units res = arr_units a /\
    Forall2 (fun x r => x < r /\ r <= 1.000295 * x)
            (flat (arr_data a)) (flat (arr_data res)).
Proof.
  intros Hdim Hb Hnd Hwf Hrange.
  set (un := arr_units a) in *.
  destruct (Forall2_exists
              (fun x v => exists j, (1 <= j)%nat /\ v = iterate (to_angstrom un x) j /\
                                    air2vac_element (to_angstrom un x) = Return v)
              (flat (arr_data a))) as [vs Hvs].
  { eapply Forall_impl; [exact Hrange|]. intros x [Hlo Hhi]. cbv beta.
    destruct (air2vac_element_returns (to_angstrom un x) Hlo Hhi) as (j & Hj & Hr & _).
    exists (iterate (to_angstrom un x) j), j. split; [lia|]. split; [reflexivity | exact Hr]. }
  assert (Hfor : for_elements (map (to_angstrom un) (flat (arr_data a))) [] = Return vs).
  { apply for_elements_Return. exists vs. split; [reflexivity|].
    apply Forall2_fmap_l. eapply Forall2_impl; [exact Hvs|].
    intros x v (j & _ & _ & Hr). exact Hr. }
  rewrite (air2vacESO_eq a Hnd Hwf Hdim). fold un. rewrite Hfor.
  eexists. split; [reflexivity|]. cbn [arr_data arr_units shape flat].
  split; [reflexivity|]. split; [reflexivity|].
  apply Forall2_fmap_r.
  apply (Forall2_with_Forall _ _ _ _ _ Hrange Hvs).
  intros x v [Hlo Hhi] (j & Hj & -> & _). cbv beta.
  destruct (iterate_bounds (to_angstrom un x) j Hlo Hj) as [H1 H2].
  assert (Hba : 0 < base_value u.angstrom) by reflexivity.
  assert (Hf : 0 < base_value u.angstrom / base_value un)
    by (apply Qlt_shift_div_l; lra).
  assert (Ex : to_angstrom un x * (base_value u.angstrom / base_value un) == x).
  { unfold to_angstrom. apply unit_ratio_inverse; lra. }
  unfold from_angstrom.
  set (v := iterate (to_angstrom un x) j) in *.
  set (f := base_value u.angstrom / base_value un) in *.
  set (ax := to_angstrom un x) in *.
  split.
  - rewrite <- Ex. nra.
  - rewrite <- Ex. nra.
Qed.

Lemma air2vacESO_optical_range_witness :
  exists res,
    air2vacESO (mk_array (mk_ndarray [1; 2]%nat [500; 600]) u.nm) = Return res /\
    arr_units res = u.nm /\
    Forall2 (fun x r => x < r /\ r <= 1.000295 * x) [500; 600] (flat (arr_data res)).
Proof.
  destruct (air2vacESO_optical_range (mk_array (mk_ndarray [1; 2]%nat [500; 600]) u.nm))
    as (res & Hr & _ & Hu & HF).
  - reflexivity.
  - reflexivity.
  - right. reflexivity.
  - reflexivity.
  - repeat constructor; discriminate.
  - exists res. split; [exact Hr|]. split; [exact Hu | exact HF].
Defined.

(** In exact arithmetic the round trip of [air2vacESO] and [vac2airESO]
    comes back to the wavelength in Angstroms to within 0.000102 times the
    tolerance. *)
Lemma eso_roundtrip_exact (a : unyt_array) :
  unit_dims (arr_units a) = u.length ->
  0 < base_value (arr_units a) ->
  (ndim (arr_data a) = 1 \/ ndim (arr_data a) = 2)%nat ->
  ndarray_wf (arr_data a) ->
  Forall (fun x => 3000 <= to_angstrom (arr_units a) x <= 7000) (flat (arr_data a)) ->
  exists vac back,
    air2vacESO a = Return vac /\
    vac2airESO (WUnytArray vac) = Return (WUnytArray back) /\
    shape (arr_data back) = shape (arr_data a) /\
    arr_units back = arr_units a /\
    Forall2 (fun x y => Qabs (y - to_angstrom (arr_units a) x) <= 0.000102 * tolerance)
            (flat (arr_data a)) (flat (arr_data back)).
Proof.
  intros Hdim Hb Hnd Hwf Hrange.
  set (un := arr_units a) in *.
  destruct (Forall2_exists
              (fun x v => exists j, (1 <= j)%nat /\ v = iterate (to_angstrom un x) j /\
                                    converged (to_angstrom un x) j /\
                                    air2vac_element (to_angstrom un x) = Return v)
              (flat (arr_data a))) as [vs Hvs].
  { eapply Forall_impl; [exact Hrange|]. intros x [Hlo Hhi]. cbv beta.
    destruct (air2vac_element_returns (to_angstrom un x) Hlo Hhi) as (j & Hj & Hr & Hc).
    exists (iterate (to_angstrom un x) j), j.
    split; [lia|]. split; [reflexivity|]. split; [exact Hc | exact Hr]. }
  assert (Hfor : for_elements (map (to_angstrom un) (flat (arr_data a))) [] = Return vs).
  { apply for_elements_Return. exists vs. split; [reflexivity|].
    apply Forall2_fmap_l. eapply Forall2_impl; [exact Hvs|].
    intros x v (j & _ & _ & _ & Hr). exact Hr. }
  rewrite (air2vacESO_eq a Hnd Hwf Hdim). fold un. rewrite Hfor.
  eexists. eexists. split; [reflexivity|].
  unfold vac2airESO. cbn [arr_units].
  rewrite array_to_same_dims by (cbn [arr_units]; exact Hdim).
  cbn [mbind result_bind arr_data arr_units shape flat].
  split; [reflexivity|]. cbn [arr_data arr_units map_ndarray shape flat].
  split; [reflexivity|]. split; [reflexivity|].
  apply Forall2_fmap_r, Forall2_fmap_r, Forall2_fmap_r.
  apply (Forall2_with_Forall _ _ _ _ _ Hrange Hvs).
  intros x v [Hlo Hhi] (j & Hj & -> & Hc & _). cbv beta.
  set (air := to_angstrom un x) in *.
  assert (Er : from_angstrom un (iterate air j) * (base_value un / base_value u.angstrom)
               == iterate air j).
  { unfold from_angstrom. apply unit_ratio_inverse; [lra | discriminate]. }
  pose proof (vac2air_of_converged air Hlo Hhi j Hj Hc) as Hbound.
  set (r := from_angstrom un (iterate air j) * (base_value un / base_value u.angstrom)) in *.
  assert (E : r / air_indexEdlen53 r - air
              == iterate air j / air_indexEdlen53 (iterate air j) - air).
  { rewrite Er. reflexivity. }
  unfold compose. fold r. rewrite E. exact Hbound.
Qed.

(** X17.  [vac2airESO] after [air2vacESO], on air wavelengths between 3000
    and 7000 Angstroms given in any unit of length: the array that comes
    back carries the units of the input, but its numbers are the
    wavelengths in Angstroms, each to within 1e-9 Angstroms.  An input in
    Angstroms gets its own numbers back; an input in nanometers gets ten
    times its numbers, labelled as nanometers. *)
Theorem eso_roundtrip_returns_angstroms (a : unyt_array) :
  unit_dims (arr_units a) = u.length ->
  0 < base_value (arr_units a) ->
  (ndim (arr_data a) = 1 \/ ndim (arr_data a) = 2)%nat ->
  ndarray_wf (arr_data a) ->
  Forall (fun x => 3000 <= to_angstrom (arr_units a) x <= 7000) (flat (arr_data a)) ->
  exists vac back,
    air2vacESO a = Return vac /\
    vac2airESO (WUnytArray vac) = Return (WUnytArray back) /\
    shape (arr_data back) = shape (arr_data a) /\
    arr_units back = arr_units a /\
    Forall2 (fun x y => Qabs (y - to_angstrom (arr_units a) x) <= 0.000000001)
            (flat (arr_data a)) (flat (arr_data back)) /\
    (arr_units a = u.angstrom ->
     Forall2 (fun x y => Qabs (y - x) <= 0.000000001)
             (flat (arr_data a)) (flat (arr_data back))) /\
    (arr_units a = u.nm ->
     Forall2 (fun x y => Qabs (y - 10 * x) <= 0.000000001)
             (flat (arr_data a)) (flat (arr_data back))).
Proof.
  intros Hdim Hb Hnd Hwf Hrange.
  destruct (eso_roundtrip_exact a Hdim Hb Hnd Hwf Hrange)
    as (vac & back & Hv & Hback & Hsh & Hun & HF).
  assert (Htol : 0.000102 * tolerance <= 0.000000001).
  { rewrite tolerance_value. lra. }
  assert (HF' : Forall2 (fun x y => Qabs (y - to_angstrom (arr_units a) x) <= 0.000000001)
                        (flat (arr_data a)) (flat (arr_data back))).
  { eapply Forall2_impl; [exact HF|]. intros x y H. cbv beta in *. lra. }
  exists vac, back. split; [exact Hv|]. split; [exact Hback|].
  split; [exact Hsh|]. split; [exact Hun|]. split; [exact HF'|]. split.
  - intros Ea. eapply Forall2_impl; [exact HF'|]. intros x y H. cbv beta in *.
    rewrite Ea in H.
    assert (E : to_angstrom u.angstrom x == x).
    { unfold to_angstrom. rewrite angstrom_factor. ring. }
    rewrite E in H. exact H.
  - intros Ea. eapply Forall2_impl; [exact HF'|]. intros x y H. cbv beta in *.
    rewrite Ea in H.
    assert (E : to_angstrom u.nm x == 10 * x).
    { unfold to_angstrom.
      assert (Ef : base_value u.nm / base_value u.angstrom == 10) by reflexivity.
      rewrite Ef. ring. }
    rewrite E in H. exact H.
Qed.

Lemma eso_roundtrip_returns_angstroms_witness :
  exists vac back,
    air2vacESO (mk_array (mk_ndarray [1%nat] [500]) u.nm) = Return vac /\
    vac2airESO (WUnytArray vac) = Return (WUnytArray back) /\
    arr_units back = u.nm /\
    Forall2 (fun x y => Qabs (y - 10 * x) <= 0.000000001) [500] (flat (arr_data back)).
Proof.
  destruct (eso_roundtrip_returns_angstroms (mk_array (mk_ndarray [1%nat] [500]) u.nm))
    as (vac & back & Hv & Hb & _ & Hu & _ & _ & Hnm).
  - reflexivity.
  - reflexivity.
  - left. reflexivity.
  - reflexivity.
  - repeat constructor; discriminate.
  - exists vac, back. split; [exact Hv|]. split; [exact Hb|]. split; [exact Hu|].
    apply Hnm. reflexivity.
Defined.

End Extra_conversions.

Section Extra_morton.
Import conversions.

Lemma morton_index_bounds (s2 : Q) :
  2.09 <= s2 -> s2 < 7 ->
  1.000275 < morton_index_vac s2 /\ morton_index_vac s2 < 1.000285 /\
  1.000275 < morton_index_air s2 /\ morton_index_air s2 < 1.000285.
Proof.
  intros Hlo Hhi. unfold morton_index_vac, morton_index_air.
  destruct (inv_pos_bounds (130 - s2) 123) as (A1 & A2 & A3); [lra | lra |].
  destruct (inv_pos_bounds 127.91 (130 - s2)) as (A4 & A5 & A6); [lra | lra |].
  destruct (inv_pos_bounds (38.9 - s2) 31.9) as (B1 & B2 & B3); [lra | lra |].
  destruct (inv_pos_bounds 36.81 (38.9 - s2)) as (B4 & B5 & B6); [lra | lra |].
  destruct (inv_pos_bounds (130.1065924522 - s2) 123.1) as (C1 & C2 & C3); [lra | lra |].
  destruct (inv_pos_bounds 128.02 (130.1065924522 - s2)) as (C4 & C5 & C6); [lra | lra |].
  destruct (inv_pos_bounds (38.92568793293 - s2) 31.92) as (D1 & D2 & D3); [lra | lra |].
  destruct (inv_pos_bounds 36.84 (38.92568793293 - s2)) as (D4 & D5 & D6); [lra | lra |].
  assert (E1 : / 123 <= 0.00813009) by (apply Qle_shift_inv_r; lra).
  assert (E2 : 0.0078179 <= / 127.91) by (apply Qle_shift_inv_l; lra).
  assert (E3 : / 31.9 <= 0.0313480) by (apply Qle_shift_inv_r; lra).
  assert (E4 : 0.027166 <= / 36.81) by (apply Qle_shift_inv_l; lra).
  assert (E5 : / 123.1 <= 0.00812348) by (apply Qle_shift_inv_r; lra).
  assert (E6 : 0.0078112 <= / 128.02) by (apply Qle_shift_inv_l; lra).
  assert (E7 : / 31.92 <= 0.0313284) by (apply Qle_shift_inv_r; lra).
  assert (E8 : 0.027144 <= / 36.84) by (apply Qle_shift_inv_l; lra).
  unfold Qdiv. repeat split; lra.
Qed.

(** X18.  For wavelengths of the HARPS optical range, 3780 to 6910
    Angstroms, the two Morton formulas have an index between 1.000275 and
    1.000285: [vac2airMorton00] shortens the wavelength and
    [air2vacMortonIAU] lengthens it, each by about 0.028 per cent. *)
Theorem morton_conversions_direction (x : Q) :
  harps_min <= x -> x <= harps_max ->
  x * 0.999715 < vac2airMorton00 x /\ vac2airMorton00 x < x * 0.999726 /\
  x * 1.000275 < air2vacMortonIAU x /\ air2vacMortonIAU x < x * 1.000285.
Proof.
  intros Hlo Hhi.
  destruct (morton_u_range x Hlo Hhi) as [Hu1 Hu2].
  destruct (morton_index_bounds ((1e4 / x) ^ 2) Hu1 Hu2) as (V1 & V2 & A1 & A2).
  unfold harps_min in Hlo.
  rewrite vac2airMorton00_index, air2vacMortonIAU_index.
  set (nv := morton_index_vac ((1e4 / x) ^ 2)) in *.
  set (na := morton_index_air ((1e4 / x) ^ 2)) in *.
  destruct (inv_pos_bounds nv 1.000275) as (R1 & R2 & R3); [lra | lra |].
  destruct (inv_pos_bounds 1.000285 nv) as (R4 & R5 & R6); [lra | lra |].
  assert (E1 : / 1.000275 < 0.999726) by (apply Qlt_shift_inv_r; lra).
  assert (E2 : 0.999715 < / 1.000285) by (apply Qlt_shift_inv_l; lra).
  unfold Qdiv. repeat split; nra.
Qed.

Lemma morton_conversions_direction_witness :
  vac2airMorton00 5000 < 5000 * 0.999726 /\ 5000 * 1.000275 < air2vacMortonIAU 5000.
Proof.
  destruct (morton_conversions_direction 5000) as (_ & H1 & H2 & _).
  - discriminate.
  - discriminate.
  - split; [exact H1 | exact H2].
Defined.

End Extra_morton.

(** ** [getWavelengthArray]: a missing card, a small array *)
Section Extra_getWavelengthArray.
Import obs2d.

Lemma for_range_app {S : Type} (body : nat -> S -> result S) (n1 n2 start : nat) (s : S) :
  for_range start (n1 + n2) body s
  = (s' ← for_range start n1 body s; for_range (start + n1) n2 body s').
Proof.
  revert start s. induction n1 as [|n1 IH]; intros start s.
  - cbn [Nat.add for_range mbind result_bind]. rewrite Nat.add_0_r. reflexivity.
  - cbn [Nat.add for_range]. destruct (body start s) as [s1|e]; [|reflexivity].
    cbn [mbind result_bind]. rewrite IH.
    replace (Datatypes.S start + n1)%nat with (start + Datatypes.S n1)%nat by lia.
    reflexivity.
Qed.

Lemma for_range_raise {S : Type} (body : nat -> S -> result S) (n start : nat) (s : S)
    (e : exn) :
  body start s = Raise e -> for_range start (Datatypes.S n) body s = Raise e.
Proof. intros H. cbn [for_range]. rewrite H. reflexivity. Qed.

Lemma add_at_out_of_bounds (a : ndarray) (r c i j : nat) (x : Q) :
  shape a = [r; c] -> ~ ((i < r)%nat /\ (j < c)%nat) ->
  add_at a i j x = raise IndexError "index is out of bounds".
Proof.
  intros Hs Hout. unfold add_at. rewrite Hs.
  replace ((i <? r)%nat && (j <? c)%nat) with false; [reflexivity|].
  symmetry. apply andb_false_iff.
  destruct (Nat.ltb_spec i r); [|left; reflexivity].
  destruct (Nat.ltb_spec j c); [|right; reflexivity]. exfalso. apply Hout. split; assumption.
Qed.

Variable self : HARPSFile2DScience.
Variables r c : nat.
Hypothesis raw_shape : shape (_rawFluxArray self) = [r; c].

Let coeff (k : nat) : Q := default 0 (_header self !! coeff_key k).

(** The loop over the orders, up to order [o]. *)
Lemma orders_before (o : nat) :
  (o <= r)%nat -> (4096 <= c)%nat ->
  (forall k, (k < 4 * o)%nat -> is_Some (_header self !! coeff_key k)) ->
  exists a,
    for_range 0 o
      (fun order wavelength_array =>
         for_range 0 4 (fun i wavelength_array =>
           let coeff_key_i := coeff_key (4 * order + i) in
           coeff_val ← dict_get (_header self) coeff_key_i;
           for_range 0 4096 (fun pixel wavelength_array =>
             add_at wavelength_array order pixel
               (coeff_val * inject_Z (Z.of_nat pixel ^ Z.of_nat i)))
             wavelength_array) wavelength_array)
      (zeros [r; c]) = Return a /\
    has_entries a r c (entries_at coeff 4096 o 0 0).
Proof.
  intros Ho Hc Hheader.
  assert (Hcoeff : forall k, (k < 4 * o)%nat -> _header self !! coeff_key k = Some (coeff k)).
  { intros k Hk. destruct (Hheader k Hk) as [x Hx]. unfold coeff. rewrite Hx. reflexivity. }
  destruct (for_range_invariant
              (fun od a => has_entries a r c (entries_at coeff 4096 od 0 0))
              (fun order wavelength_array =>
                 for_range 0 4 (fun i wavelength_array =>
                   let coeff_key_i := coeff_key (4 * order + i) in
                   coeff_val ← dict_get (_header self) coeff_key_i;
                   for_range 0 4096 (fun pixel wavelength_array =>
                     add_at wavelength_array order pixel
                       (coeff_val * inject_Z (Z.of_nat pixel ^ Z.of_nat i)))
                     wavelength_array) wavelength_array)
              o 0 (zeros [r; c])) as (a' & Hr & Ha').
  - eapply has_entries_ext; [|apply zeros_entries].
    intros o' p Ho' Hp. unfold entries_at.
    destruct (p <? 4096)%nat; [|reflexivity].
    destruct (o' =? 0)%nat; reflexivity.
  - intros od s Hod Hs.
    apply (coefficient_loop self coeff o 4096 r c Ho Hc Hcoeff od s); [lia | exact Hs].
  - exists a'. split; [exact Hr | exact Ha'].
Qed.

End Extra_getWavelengthArray.

Section Extra_getWavelengthArray_errors.
Import obs2d.

(** X19.  When a coefficient card is missing from the header,
    [getWavelengthArray] raises [KeyError]: for a raw array of at least 72
    by 4096, with the cards before card [k0] present and card [k0]
    missing. *)
Theorem getWavelengthArray_missing_card (self : HARPSFile2DScience) (r c k0 : nat) :
  shape (_rawFluxArray self) = [r; c] ->
  (72 <= r)%nat -> (4096 <= c)%nat -> (k0 < 288)%nat ->
  (forall k, (k < k0)%nat -> is_Some (_header self !! coeff_key k)) ->
  _header self !! coeff_key k0 = None ->
  getWavelengthArray self = raise KeyError "key not found".
Proof.
  intros raw_shape Hr Hc Hk0 Hbefore Hmissing.
  set (coeff := fun k : nat => default 0 (_header self !! coeff_key k)).
  assert (orders_before' : forall o, (o <= r)%nat -> (4096 <= c)%nat ->
            (forall k, (k < 4 * o)%nat -> is_Some (_header self !! coeff_key k)) ->
            exists a,
              for_range 0 o
                (fun order wavelength_array =>
                   for_range 0 4 (fun i wavelength_array =>
                     let coeff_key_i := coeff_key (4 * order + i) in
                     coeff_val ← dict_get (_header self) coeff_key_i;
                     for_range 0 4096 (fun pixel wavelength_array =>
                       add_at wavelength_array order pixel
                         (coeff_val * inject_Z (Z.of_nat pixel ^ Z.of_nat i)))
                       wavelength_array) wavelength_array)
                (zeros [r; c]) = Return a /\
              has_entries a r c (entries_at coeff 4096 o 0 0))
    by (apply (orders_before self r c)).
  set (o := (k0 / 4)%nat). set (i0 := (k0 mod 4)%nat).
  assert (Hk : k0 = (4 * o + i0)%nat) by (unfold o, i0; apply Nat.div_mod_eq).
  assert (Hi0 : (i0 < 4)%nat) by (unfold i0; apply Nat.mod_upper_bound; lia).
  assert (Ho : (o < 72)%nat) by lia.
  assert (Hcoeff : forall k, (k < k0)%nat -> _header self !! coeff_key k = Some (coeff k)).
  { intros k Hlt. destruct (Hbefore k Hlt) as [x Hx]. unfold coeff. rewrite Hx. reflexivity. }
  unfold getWavelengthArray, getWavelengthArray_dims. cbv zeta. rewrite raw_shape.
  replace 72%nat with (o + Datatypes.S (71 - o))%nat at 1 by lia.
  rewrite for_range_app.
  destruct (orders_before' o) as (a & Ha & Hent); [lia | exact Hc | |].
  { intros k Hlt. apply Hbefore. lia. }
  cbv zeta in Ha. rewrite Ha. cbn [mbind result_bind Nat.add].
  rewrite (for_range_raise _ _ _ _ (mk_exn KeyError "key not found")); [reflexivity|].
  replace 4%nat with (i0 + Datatypes.S (3 - i0))%nat at 1 by lia.
  rewrite for_range_app.
  destruct (for_range_invariant
              (fun id a => has_entries a r c (entries_at coeff 4096 o id 0))
              (fun i wavelength_array =>
                 coeff_val ← dict_get (_header self) (coeff_key (4 * o + i));
                 for_range 0 4096 (fun pixel wavelength_array =>
                   add_at wavelength_array o pixel
                     (coeff_val * inject_Z (Z.of_nat pixel ^ Z.of_nat i)))
                   wavelength_array)
              i0 0 a Hent) as (a' & Hr' & _).
  { intros i s Hi Hs. unfold dict_get. rewrite (Hcoeff (4 * o + i)%nat) by lia.
    cbn [mbind result_bind].
    destruct (pixel_loop coeff 72 4096 r c Hr Hc o i s Ho Hs) as (s' & Hl & Hs').
    exists s'. split; [exact Hl | exact Hs']. }
  rewrite Hr'. cbn [mbind result_bind Nat.add].
  apply for_range_raise. unfold dict_get. rewrite <- Hk, Hmissing. reflexivity.
Qed.

Lemma getWavelengthArray_missing_card_witness :
  getWavelengthArray
    (mk_obs (list_to_map (map (fun k => (coeff_key k, inject_Z (Z.of_nat k))) (seq 0 5)))
       (zeros [72; 4096]%nat) None None None (mk_quantity 0 u.km_per_s))
  = raise KeyError "key not found".
Proof.
  apply (getWavelengthArray_missing_card _ 72 4096 5).
  - reflexivity.
  - lia.
  - lia.
  - lia.
  - intros k Hk. cbn [_header].
    rewrite (header_of_coefficients (fun k : nat => inject_Z (Z.of_nat k)) 5 k Hk). eauto.
  - cbn [_header]. apply not_elem_of_list_to_map. rewrite <- list_fmap_compose.
    intros Hin. apply list_elem_of_fmap in Hin as (k & Hk & Hin).
    apply (inj coeff_key) in Hk. subst k. apply elem_of_seq in Hin. lia.
Defined.

(** X20.  A raw array of fewer than 72 rows or fewer than 4096 columns
    makes [getWavelengthArray] raise [IndexError], with all 288 cards in
    the header. *)
Theorem getWavelengthArray_small_array (self : HARPSFile2DScience) (r c : nat) :
  shape (_rawFluxArray self) = [r; c] ->
  (r < 72)%nat \/ (c < 4096)%nat ->
  (forall k, (k < 288)%nat -> is_Some (_header self !! coeff_key k)) ->
  getWavelengthArray self = raise IndexError "index is out of bounds".
Proof.
  intros raw_shape Hsmall Hheader.
  set (coeff := fun k : nat => default 0 (_header self !! coeff_key k)).
  assert (orders_before' : forall o, (o <= r)%nat -> (4096 <= c)%nat ->
            (forall k, (k < 4 * o)%nat -> is_Some (_header self !! coeff_key k)) ->
            exists a,
              for_range 0 o
                (fun order wavelength_array =>
                   for_range 0 4 (fun i wavelength_array =>
                     let coeff_key_i := coeff_key (4 * order + i) in
                     coeff_val ← dict_get (_header self) coeff_key_i;
                     for_range 0 4096 (fun pixel wavelength_array =>
                       add_at wavelength_array order pixel
                         (coeff_val * inject_Z (Z.of_nat pixel ^ Z.of_nat i)))
                       wavelength_array) wavelength_array)
                (zeros [r; c]) = Return a /\
              has_entries a r c (entries_at coeff 4096 o 0 0))
    by (apply (orders_before self r c)).
  assert (Hcoeff : forall k, (k < 288)%nat -> _header self !! coeff_key k = Some (coeff k)).
  { intros k Hlt. destruct (Hheader k Hlt) as [x Hx]. unfold coeff. rewrite Hx. reflexivity. }
  unfold getWavelengthArray, getWavelengthArray_dims. cbv zeta. rewrite raw_shape.
  destruct (le_lt_dec 4096 c) as [Hc|Hc].
  - (* enough columns, too few rows: order [r] fails at its first pixel *)
    assert (Hr : (r < 72)%nat) by lia.
    replace 72%nat with (r + Datatypes.S (71 - r))%nat at 1 by lia.
    rewrite for_range_app.
    destruct (orders_before' r) as (a & Ha & Hent); [lia | exact Hc | |].
    { intros k Hlt. apply Hheader. lia. }
    cbv zeta in Ha. rewrite Ha. cbn [mbind result_bind Nat.add].
    rewrite (for_range_raise _ _ _ _ (mk_exn IndexError "index is out of bounds"));
      [reflexivity|].
    apply for_range_raise. unfold dict_get. rewrite (Hcoeff (4 * r + 0)%nat) by lia.
    cbn [mbind result_bind]. apply for_range_raise.
    apply (add_at_out_of_bounds a r c); [apply Hent | lia].
  - (* too few columns: order 0 fails at pixel [c], or at pixel 0 without rows *)
    rewrite (for_range_raise _ _ _ _ (mk_exn IndexError "index is out of bounds"));
      [reflexivity|].
    apply for_range_raise. unfold dict_get. rewrite (Hcoeff (4 * 0 + 0)%nat) by lia.
    cbn [mbind result_bind].
    set (p := if (0 <? r)%nat then c else 0%nat).
    assert (Hp : (p <= c)%nat) by (unfold p; destruct (0 <? r)%nat; lia).
    replace 4096%nat with (p + Datatypes.S (4095 - p))%nat at 1 by lia.
    rewrite for_range_app.
    destruct (for_range_invariant
                (fun (_ : nat) a => exists f, has_entries a r c f)
                (fun pixel wavelength_array =>
                   add_at wavelength_array 0 pixel
                     (coeff (4 * 0 + 0)%nat * inject_Z (Z.of_nat pixel ^ Z.of_nat 0)))
                p 0 (zeros [r; c])) as (a' & Hr' & f & Hf).
    { eexists. apply zeros_entries. }
    { intros i s Hi [f Hf].
      assert (Hr0 : (0 < r)%nat).
      { unfold p in Hi. destruct (0 <? r)%nat eqn:E; [apply Nat.ltb_lt; exact E | lia]. }
      destruct (add_at_entries s r c f 0 i
                  (coeff (4 * 0 + 0)%nat * inject_Z (Z.of_nat i ^ Z.of_nat 0)) Hf Hr0)
        as (s' & Hs' & Hent'); [lia|].
      exists s'. split; [exact Hs' | eexists; exact Hent']. }
    rewrite Hr'. cbn [mbind result_bind Nat.add]. apply for_range_raise.
    apply (add_at_out_of_bounds a' r c); [apply Hf|].
    unfold p. destruct (0 <? r)%nat eqn:E; [lia|]. apply Nat.ltb_ge in E. lia.
Qed.

Lemma getWavelengthArray_small_array_witness :
  getWavelengthArray
    (mk_obs (list_to_map (map (fun k => (coeff_key k, inject_Z (Z.of_nat k))) (seq 0 288)))
       (zeros [72; 4095]%nat) None None None (mk_quantity 0 u.km_per_s))
  = raise IndexError "index is out of bounds".
Proof.
  apply (getWavelengthArray_small_array _ 72 4095).
  - reflexivity.
  - right. lia.
  - intros k Hk. cbn [_header].
    rewrite (header_of_coefficients (fun k : nat => inject_Z (Z.of_nat k)) 288 k Hk). eauto.
Defined.

End Extra_getWavelengthArray_errors.

(** ** [findWavelength]: no order, all orders *)
Section Extra_findWavelength.
Import obs2d.

(** The loop over the orders collects them in increasing order. *)
Lemma find_orders_increasing (wl : unyt_array) (w : unyt_quantity) (orders : list nat) :
  find_orders (Some wl) w = Return orders ->
  forall i j a b, (i < j)%nat -> orders !! i = Some a -> orders !! j = Some b -> (a < b)%nat.
Proof.
  unfold find_orders. intros H.
  refine (proj2 (for_range_Return
            (fun n orders =>
               (forall o, o ∈ orders -> (o < n)%nat) /\
               forall i j a b, (i < j)%nat -> orders !! i = Some a -> orders !! j = Some b ->
                               (a < b)%nat)
            _ 72 0 [] orders _ _ H)).
  - split; [intros o Hin; inversion Hin|]. intros i j a b _ Hi. discriminate Hi.
  - intros n s s1 Hn [Hlt Hsorted] Hb.
    apply bind_Return in Hb as (order_min & _ & Hb).
    apply bind_Return in Hb as (order_max & _ & Hb).
    apply bind_Return in Hb as (found & _ & Hb).
    destruct found; injection Hb as <-.
    + split.
      * intros o Hin. apply elem_of_app in Hin as [Hin|Hin].
        -- specialize (Hlt o Hin). lia.
        -- apply list_elem_of_singleton in Hin. lia.
      * intros i j a b Hij Hi Hj.
        assert (Hjlen : (j < length (s ++ [n]))%nat) by (apply lookup_lt_Some in Hj; exact Hj).
        rewrite length_app in Hjlen. cbn [length] in Hjlen.
        rewrite lookup_app_l in Hi by lia.
        destruct (decide (j < length s)%nat) as [Hjs|Hjs].
        -- rewrite lookup_app_l in Hj by exact Hjs. apply (Hsorted i j a b Hij Hi Hj).
        -- rewrite lookup_app_r in Hj by lia.
           replace (j - length s)%nat with 0%nat in Hj by lia. injection Hj as <-.
           apply Hlt. apply list_elem_of_lookup. eauto.
    + split; [|exact Hsorted]. intros o Hin. specialize (Hlt o Hin). lia.
Qed.

(** X21.  With [closest_only=False], for a wavelength within the limits of
    the barycentric array, [findWavelength] returns the tuple of the orders
    of the wavelength array that contain the wavelength, in increasing
    order, when there are at most two, the empty tuple included, and fails
    the assertion when there are more; outside the limits it fails the
    first assertion. *)
Theorem findWavelength_all_orders (self self' : HARPSFile2DScience)
    (q wq lo hi : unyt_quantity) (bary wl : unyt_array) :
  quantity_to q u.angstrom = Return wq ->
  cached_barycentricArray self = (self', Return bary) ->
  array_item2 bary 0 0 = Return lo ->
  array_item2 bary 71 (-1) = Return hi ->
  _wavelengthArray self' = Some wl ->
  (between lo wq hi = Return false ->
   findWavelength (PQuantity q) false self
     = (self', raise AssertionError "Given wavelength not found within array limits!")) /\
  (forall orders,
     between lo wq hi = Return true ->
     find_orders (Some wl) wq = Return orders ->
     findWavelength (PQuantity q) false self
       = (self', if (length orders <? 3)%nat then Return (FTuple orders)
                 else raise AssertionError "Wavelength found in more than two orders!") /\
     (forall o, o ∈ orders <-> (o < 72)%nat /\ order_contains wl wq o) /\
     (forall i j a b, (i < j)%nat -> orders !! i = Some a -> orders !! j = Some b ->
                      (a < b)%nat)).
Proof.
  intros Hq Hb Hlo Hhi Hwl. split.
  - intros Hout. unfold findWavelength, m_bind, m_lift. rewrite Hq, Hb.
    f_equal. unfold findWavelength_search.
    rewrite Hlo, Hhi. cbn [mbind result_bind]. rewrite Hout. reflexivity.
  - intros orders Hin Ho. split; [|split].
    + unfold findWavelength, m_bind, m_lift. rewrite Hq, Hb.
      f_equal. unfold findWavelength_search.
      rewrite Hlo, Hhi. cbn [mbind result_bind]. rewrite Hin. cbn [mbind result_bind negb].
      rewrite Hwl, Ho. cbn [mbind result_bind].
      destruct (length orders <? 3)%nat; reflexivity.
    + apply (find_orders_spec wl wq orders Ho).
    + apply (find_orders_increasing wl wq orders Ho).
Qed.

Lemma findWavelength_all_orders_witness :
  findWavelength (PQuantity (mk_quantity 405 u.nm)) false example_observation
    = (example_observation, Return (FTuple [0; 1]%nat)).
Proof.
  destruct (findWavelength_all_orders example_observation example_observation
              (mk_quantity 405 u.nm)
              (mk_quantity (405 * (base_value u.nm / base_value u.angstrom)) u.angstrom)
              (mk_quantity 4000 u.angstrom)
              (mk_quantity (4000 + 40 * inject_Z 71 + 60) u.angstrom)
              example_wavelengths example_wavelengths)
    as [_ H].
  - reflexivity.
  - reflexivity.
  - vm_compute. reflexivity.
  - vm_compute. reflexivity.
  - reflexivity.
  - destruct (H [0; 1]%nat) as (Hr & _).
    + vm_compute. reflexivity.
    + vm_compute. reflexivity.
    + exact Hr.
Defined.

(** X22.  With [closest_only=True], a wavelength within the limits of the
    barycentric array that no order of the wavelength array contains (the
    orders may leave gaps, and the limits are those of another array) makes
    [findWavelength] raise [TypeError], from [len] of a bool: neither an
    order nor [None] is returned. *)
Theorem findWavelength_no_order_raises (self self' : HARPSFile2DScience)
    (q wq lo hi : unyt_quantity) (bary wl : unyt_array) :
  quantity_to q u.angstrom = Return wq ->
  cached_barycentricArray self = (self', Return bary) ->
  array_item2 bary 0 0 = Return lo ->
  array_item2 bary 71 (-1) = Return hi ->
  between lo wq hi = Return true ->
  _wavelengthArray self' = Some wl ->
  find_orders (Some wl) wq = Return [] ->
  findWavelength (PQuantity q) true self
    = (self', raise TypeError "object of type 'bool' has no len()") /\
  forall o, (o < 72)%nat -> ~ order_contains wl wq o.
Proof.
  intros Hq Hb Hlo Hhi Hin Hwl Ho. split.
  - rewrite <- Hwl in Ho.
    apply (findWavelength_closest_only self self' q wq lo hi bary []); assumption.
  - intros o Hlt Hc.
    assert (Hmem : o ∈ ([] : list nat)).
    { apply (find_orders_spec wl wq [] Ho o). split; assumption. }
    inversion Hmem.
Qed.

Lemma findWavelength_no_order_raises_witness :
  let gaps :=
    mk_array
      (mk_ndarray [72; 4]%nat
         (flat_map (fun o => let start := 4000 + 100 * inject_Z (Z.of_nat o) in
                             [start; start + 20; start + 40; start + 60])
                   (seq 0 72)))
      u.angstrom in
  let observation :=
    mk_obs ∅ (zeros [72; 4]%nat) (Some gaps) None (Some gaps) (mk_quantity 0 u.km_per_s) in
  findWavelength (PQuantity (mk_quantity 4080 u.angstrom)) true observation
    = (observation, raise TypeError "object of type 'bool' has no len()").
Proof.
  cbv zeta.
  refine (proj1 (findWavelength_no_order_raises _ _
                   (mk_quantity 4080 u.angstrom)
                   (mk_quantity (4080 * (base_value u.angstrom / base_value u.angstrom))
                      u.angstrom)
                   (mk_quantity 4000 u.angstrom)
                   (mk_quantity (4000 + 100 * inject_Z 71 + 60) u.angstrom)
                   _ _ _ _ _ _ _ _ _)).
  - reflexivity.
  - reflexivity.
  - vm_compute. reflexivity.
  - vm_compute. reflexivity.
  - vm_compute. reflexivity.
  - reflexivity.
  - vm_compute. reflexivity.
Defined.

End Extra_findWavelength.

(** ** [findWavelength] a second time, and the conversions in place *)
(** Converting to the unit a quantity has already changes nothing, when
    the factor of the unit is 1. *)
Lemma Qmult_unit_ratio (x : Q) : x * (1 / 1) = x.
Proof.
  destruct x as [n d]. unfold Qdiv, Qmult, Qinv. cbn [Qnum Qden].
  rewrite Z.mul_1_r, Pos.mul_1_r. reflexivity.
Qed.

Lemma array_to_metres_again (a : unyt_array) :
  arr_units a = u.m -> array_to a u.m = Return a.
Proof.
  destruct a as [[sh fl] un]. cbn [arr_units]. intros ->.
  rewrite array_to_same_dims by reflexivity.
  cbn [arr_data arr_units shape flat]. do 3 f_equal.
  change (base_value u.m) with 1.
  rewrite (map_ext _ id); [apply map_id|]. intros x. apply Qmult_unit_ratio.
Qed.

Lemma quantity_to_mps_again (q : unyt_quantity) :
  units q = u.m_per_s -> quantity_to q u.m_per_s = Return q.
Proof.
  destruct q as [x un]. cbn [units]. intros ->.
  rewrite quantity_to_same_dims by reflexivity. cbn [value units].
  change (base_value u.m_per_s) with 1. rewrite Qmult_unit_ratio. reflexivity.
Qed.

Lemma array_to_units (a b : unyt_array) (un : Unit) :
  array_to a un = Return b -> arr_units b = un.
Proof.
  unfold array_to. intros H. apply bind_Return in H as (f & _ & H).
  injection H as <-. reflexivity.
Qed.

Section Extra_inplace.
Import miscellaneous.

(** What [shift_wavelength] leaves of its arguments: after a call that
    got as far as the assertion, the array is in metres and the velocity
    in m/s; and a call that raised raises again, changing nothing more. *)
Lemma shift_wavelength_inplace_units (v v' : unyt_array) (b b' : unyt_quantity)
    (r : unyt_array) :
  shift_wavelength_inplace v b = (v', b', Return r) ->
  arr_units v' = u.m /\ units b' = u.m_per_s.
Proof.
  unfold shift_wavelength_inplace.
  destruct (array_to v u.m) as [v1|e] eqn:Ev; [|intros H; discriminate H].
  destruct (quantity_to b u.m_per_s) as [b1|e] eqn:Eb; [|intros H; discriminate H].
  intros H. injection H as <- <- _. split.
  - apply (array_to_units _ _ _ Ev).
  - apply (quantity_to_units _ _ _ Eb).
Qed.

Lemma shift_wavelength_inplace_again (v v' : unyt_array) (b b' : unyt_quantity)
    (e : exn) :
  shift_wavelength_inplace v b = (v', b', Raise e) ->
  shift_wavelength_inplace v' b' = (v', b', Raise e).
Proof.
  unfold shift_wavelength_inplace.
  destruct (array_to v u.m) as [v1|e1] eqn:Ev.
  2:{ intros H. injection H as <- <- <-. rewrite Ev. reflexivity. }
  pose proof (array_to_units _ _ _ Ev) as Hv1.
  destruct (quantity_to b u.m_per_s) as [b1|e1] eqn:Eb.
  2:{ intros H. injection H as <- <- <-.
      rewrite (array_to_metres_again v1 Hv1), Eb. reflexivity. }
  pose proof (quantity_to_units _ _ _ Eb) as Hb1.
  assert (Hd : unit_dims (arr_units v) = unit_dims u.m).
  { destruct (decide (unit_dims (arr_units v) = unit_dims u.m)) as [Hd|Hd]; [exact Hd|].
    pose proof (array_to_other_dims v u.m Hd) as Hr. rewrite Ev in Hr. contradiction. }
  intros H. injection H as <- <- H.
  rewrite (array_to_metres_again v1 Hv1), (quantity_to_mps_again b1 Hb1).
  revert H. destruct (negb (Qltb (Qabs (value b1)) u.c_value)); intros H.
  - rewrite <- H. reflexivity.
  - exfalso. rewrite array_to_same_dims in H by (symmetry; exact Hd). discriminate H.
Qed.

End Extra_inplace.

Section Extra_second_call.
Import obs2d.

(** The wavelength array has the shape of the raw flux array. *)
Lemma getWavelengthArray_shape (self : HARPSFile2DScience) (w : unyt_array) :
  getWavelengthArray self = Return w ->
  shape (arr_data w) = shape (_rawFluxArray self).
Proof.
  unfold getWavelengthArray, getWavelengthArray_dims. intros H.
  apply bind_Return in H as (a & Ha & H). injection H as <-. cbn [arr_data].
  set (Inv := fun (_ : nat) (x : ndarray) => shape x = shape (_rawFluxArray self)).
  assert (Hend : Inv (0 + 72)%nat a); [|exact Hend].
  refine (for_range_Return Inv _ 72 0 _ a _ _ Ha); [reflexivity|].
  intros order s s1 _ Hs Hb.
  assert (Hend : Inv (0 + 4)%nat s1); [|exact Hend].
  refine (for_range_Return Inv _ 4 0 s s1 Hs _ Hb).
  intros i t t1 _ Ht Hb'.
  apply bind_Return in Hb' as (c & _ & Hb').
  assert (Hend : Inv (0 + 4096)%nat t1); [|exact Hend].
  refine (for_range_Return Inv _ 4096 0 t t1 Ht _ Hb').
  intros pixel x x1 _ Hx Hadd. unfold Inv in *.
  unfold add_at in Hadd.
  destruct (shape x) as [|r [|c' rest]] eqn:Esh; try discriminate Hadd.
  destruct ((order <? r)%nat && (pixel <? c')%nat); [|discriminate Hadd].
  injection Hadd as <-. cbn [shape]. exact Hx.
Qed.

Lemma air2vacESO_inplace_2d (w : unyt_array) :
  ndim (arr_data w) = 2%nat ->
  conversions.air2vacESO_inplace w = (w, conversions.air2vacESO w).
Proof. intros H. unfold conversions.air2vacESO_inplace. rewrite H. reflexivity. Qed.

Section Observation.
Variable self : HARPSFile2DScience.
Hypothesis raw_2d : ndim (_rawFluxArray self) = 2%nat.
Hypothesis wavelengths_2d :
  forall w, _wavelengthArray self = Some w -> ndim (arr_data w) = 2%nat.

(** [getVacuumArray] touches the wavelength array only, and a call that
    raised raises again. *)
Lemma getVacuumArray_again (s1 : HARPSFile2DScience) (r : result unyt_array) :
  getVacuumArray self = (s1, r) ->
  _vacuumArray s1 = _vacuumArray self /\
  _barycentricArray s1 = _barycentricArray self /\
  _BERV s1 = _BERV self /\
  forall e, r = Raise e -> getVacuumArray s1 = (s1, Raise e).
Proof.
  unfold getVacuumArray, m_bind.
  destruct (_wavelengthArray self) as [w|] eqn:Ew.
  - rewrite (air2vacESO_inplace_2d w (wavelengths_2d w eq_refl)).
    intros H. injection H as <- <-.
    cbn [set_wavelengthArray _vacuumArray _barycentricArray _BERV _wavelengthArray].
    repeat (split; [reflexivity|]).
    intros e He. rewrite (air2vacESO_inplace_2d w (wavelengths_2d w eq_refl)).
    rewrite He. reflexivity.
  - destruct (getWavelengthArray self) as [w|e0] eqn:Eg.
    + assert (Hw : ndim (arr_data w) = 2%nat).
      { unfold ndim. rewrite (getWavelengthArray_shape self w Eg). exact raw_2d. }
      rewrite (air2vacESO_inplace_2d w Hw).
      intros H. injection H as <- <-.
      cbn [set_wavelengthArray _vacuumArray _barycentricArray _BERV _wavelengthArray].
      repeat (split; [reflexivity|]).
      intros e He. rewrite (air2vacESO_inplace_2d w Hw). rewrite He. reflexivity.
    + intros H. injection H as <- <-. repeat (split; [reflexivity|]).
      intros e He. injection He as <-. rewrite Ew, Eg. reflexivity.
Qed.

(** The second half of [getBarycentricArray], on any object. *)
Lemma shift_stored_again (s : HARPSFile2DScience) (v v' : unyt_array)
    (b' : unyt_quantity) (r : result unyt_array) :
  miscellaneous.shift_wavelength_inplace v (_BERV s) = (v', b', r) ->
  let s1 := set_BERV (set_vacuumArray s v') b' in
  match r with
  | Return b =>
      exists v0, _vacuumArray s1 = Some v0 /\ arr_units v0 = u.m /\
                 units (_BERV s1) = u.m_per_s
  | Raise e => getBarycentricArray s1 = (s1, Raise e)
  end.
Proof.
  intros Es. cbv zeta. destruct r as [b|e].
  - destruct (shift_wavelength_inplace_units _ _ _ _ _ Es) as [Hv Hb].
    exists v'. split; [reflexivity|]. split; [exact Hv | exact Hb].
  - unfold getBarycentricArray, m_bind.
    cbn [set_BERV set_vacuumArray _vacuumArray _BERV _header _rawFluxArray
         _wavelengthArray _barycentricArray].
    rewrite (shift_wavelength_inplace_again _ _ _ _ _ Es). reflexivity.
Qed.

(** [getBarycentricArray] leaves the vacuum array in metres and the BERV
    in m/s when it returns; a call that raised raises again, changing
    nothing more. *)
Lemma getBarycentricArray_again (s1 : HARPSFile2DScience) (r : result unyt_array) :
  getBarycentricArray self = (s1, r) ->
  _barycentricArray s1 = _barycentricArray self /\
  match r with
  | Return b =>
      exists v, _vacuumArray s1 = Some v /\ arr_units v = u.m /\
                units (_BERV s1) = u.m_per_s
  | Raise e => getBarycentricArray s1 = (s1, Raise e)
  end.
Proof.
  unfold getBarycentricArray at 1. unfold m_bind.
  destruct (_vacuumArray self) as [v|] eqn:Ev.
  - destruct (miscellaneous.shift_wavelength_inplace v (_BERV self)) as [[v' b'] r0] eqn:Es.
    intros H. injection H as <- <-. split; [reflexivity|].
    apply (shift_stored_again self v v' b' r0 Es).
  - destruct (getVacuumArray self) as [sV [v|e]] eqn:EV.
    + destruct (getVacuumArray_again sV _ EV) as (Hv & Hbar & Hberv & _).
      cbn [set_vacuumArray _BERV].
      destruct (miscellaneous.shift_wavelength_inplace v (_BERV sV)) as [[v' b'] r0] eqn:Es.
      intros H. injection H as <- <-. split; [exact Hbar|].
      apply (shift_stored_again (set_vacuumArray sV v) v v' b' r0). exact Es.
    + destruct (getVacuumArray_again sV _ EV) as (Hv & Hbar & Hberv & Hagain).
      intros H. injection H as <- <-. split; [exact Hbar|].
      unfold getBarycentricArray, m_bind. rewrite Hv, Ev.
      rewrite (Hagain e eq_refl). reflexivity.
Qed.

Lemma cached_barycentricArray_again (s1 : HARPSFile2DScience) (r : result unyt_array) :
  cached_barycentricArray self = (s1, r) ->
  cached_barycentricArray s1 = (s1, r) /\
  forall b, _barycentricArray self = None -> _barycentricArray s1 = Some b ->
            exists v, _vacuumArray s1 = Some v /\ arr_units v = u.m /\
                      units (_BERV s1) = u.m_per_s.
Proof.
  unfold cached_barycentricArray at 1.
  destruct (_barycentricArray self) as [b0|] eqn:Eb.
  { intros H. injection H as <- <-. split; [|intros b H; discriminate H].
    unfold cached_barycentricArray. rewrite Eb. reflexivity. }
  destruct (getBarycentricArray self) as [s2 [b|e]] eqn:Eg.
  - destruct (getBarycentricArray_again s2 _ Eg) as [Hbar (v & Hv & Hu & Hberv)].
    intros H. injection H as <- <-. split.
    + unfold cached_barycentricArray. cbn [set_barycentricArray _barycentricArray].
      reflexivity.
    + intros b1 _ _. exists v. cbn [set_barycentricArray _vacuumArray _BERV].
      split; [exact Hv|]. split; [exact Hu | exact Hberv].
  - destruct (getBarycentricArray_again s2 _ Eg) as [Hbar Hres].
    intros H. injection H as <- <-. split.
    + unfold cached_barycentricArray. rewrite Hbar, Eb, Hres. reflexivity.
    + intros b1 _ H. rewrite Hbar, Eb in H. discriminate H.
Qed.

End Observation.

(** X23.  For an observation whose raw flux array and wavelength array, if
    it has one, are 2-D: calling [findWavelength] again on the object the
    first call left, with the same arguments, returns the same result or
    raises the same exception, and leaves the object as it is.  The first
    call changes more than the attribute it fills: when it computes and
    stores the barycentric array, the vacuum array of the object is left
    in metres and its BERV in m/s, by the conversions in place of
    [shift_wavelength]. *)
Theorem findWavelength_second_call (self : HARPSFile2DScience) (wavelength : py_obj)
    (closest_only : bool) :
  ndim (_rawFluxArray self) = 2%nat ->
  (forall w, _wavelengthArray self = Some w -> ndim (arr_data w) = 2%nat) ->
  let first := findWavelength wavelength closest_only self in
  findWavelength wavelength closest_only (fst first) = first /\
  (forall b, _barycentricArray self = None ->
             _barycentricArray (fst first) = Some b ->
             exists v, _vacuumArray (fst first) = Some v /\
                       arr_units v = u.m /\
                       units (_BERV (fst first)) = u.m_per_s).
Proof.
  intros Hraw Hwl. cbv zeta.
  unfold findWavelength, m_bind, m_lift.
  destruct (match wavelength with
            | PQuantity q => quantity_to q u.angstrom
            | _ => raise AttributeError "object has no attribute 'to'"
            end) as [wq|e].
  2:{ cbn [fst]. split; [reflexivity|]. intros b Hn Hs. rewrite Hn in Hs. discriminate Hs. }
  destruct (cached_barycentricArray self) as [s1 r] eqn:E1.
  destruct (cached_barycentricArray_again self Hraw Hwl s1 r E1) as [Hc Hstate].
  destruct r as [b|e]; cbn [fst].
  - split; [rewrite Hc; reflexivity | exact Hstate].
  - split; [rewrite Hc; reflexivity | exact Hstate].
Qed.

Lemma findWavelength_second_call_witness :
  let observation :=
    mk_obs ∅ (zeros [72; 4]%nat) (Some example_wavelengths) None None
           (mk_quantity 10 u.km_per_s) in
  let first := findWavelength (PQuantity (mk_quantity 405 u.nm)) false observation in
  findWavelength (PQuantity (mk_quantity 405 u.nm)) false (fst first) = first.
Proof.
  cbv zeta.
  apply (findWavelength_second_call
           (mk_obs ∅ (zeros [72; 4]%nat) (Some example_wavelengths) None None
                   (mk_quantity 10 u.km_per_s))
           (PQuantity (mk_quantity 405 u.nm)) false).
  - reflexivity.
  - intros w Hw. injection Hw as <-. reflexivity.
Defined.

End Extra_second_call.

(** ** The errors of [Transition.__init__] *)
Section Extra_init_errors.
Import transition_line.

(** X24.  What [__init__] raises for an element or an ionization state it
    cannot read, the wavelength being a length: a string of one or two
    characters that is neither a number nor a symbol of the table raises
    [KeyError]; so does a number in such a string that the table does not
    have, which no assertion checks; a longer string that is not a number
    raises [TypeError]; and a string that is neither a number nor a Roman
    numeral up to X, as ionization state, raises [ValueError]. *)
Theorem Transition_init_unreadable (self_id : nat) (q : unyt_quantity)
    (str : string) (other : py_obj) :
  unit_dims (units q) = u.length ->
  ((String.length str < 3)%nat -> int_of_string str = None ->
   elements_inv !! capitalize str = None ->
   Transition_init self_id (PQuantity q) (PStr str) other = raise KeyError "key not found") /\
  (forall z, (String.length str < 3)%nat -> int_of_string str = Some z ->
   ~ (1 <= z <= 92)%Z ->
   Transition_init self_id (PQuantity q) (PStr str) other = raise KeyError "key not found") /\
  ((3 <= String.length str)%nat -> int_of_string str = None ->
   Transition_init self_id (PQuantity q) (PStr str) other
     = raise TypeError
         "'element' parameter must be a valid integer atomic number or atomic symbol (e.g., 'Fe').") /\
  (forall z, (1 <= z <= 92)%Z -> int_of_string str = None ->
   roman_numerals_inv !! str = None ->
   Transition_init self_id (PQuantity q) (PInt z) (PStr str)
     = raise ValueError "Ionization state invalid!").
Proof.
  intros Hd. unfold Transition_init. cbn [wavelength_to_nm].
  rewrite quantity_to_same_dims by exact Hd. rewrite try_except_Return.
  cbn [mbind result_bind]. split; [|split; [|split]].
  - intros Hlen Hint Hsym. unfold init_element.
    replace (String.length str <? 3)%nat with true by (symmetry; apply Nat.ltb_lt; exact Hlen).
    cbn [py_int]. rewrite Hint, bind_raise, try_except_caught.
    unfold dict_get. rewrite Hsym. reflexivity.
  - intros z Hlen Hint Hz. unfold init_element.
    replace (String.length str <? 3)%nat with true by (symmetry; apply Nat.ltb_lt; exact Hlen).
    cbn [py_int]. rewrite Hint. cbn [mbind result_bind]. unfold dict_get.
    destruct (elements !! z) as [sym|] eqn:E; [|reflexivity].
    exfalso. apply Hz. apply elements_defined. eauto.
  - intros Hlen Hint. unfold init_element.
    replace (String.length str <? 3)%nat with false by (symmetry; apply Nat.ltb_ge; exact Hlen).
    cbn [py_int]. rewrite Hint, try_except_caught. reflexivity.
  - intros z Hz Hint Hrom. apply elements_defined in Hz as [sym Hs].
    rewrite (init_element_number z sym Hs). cbn [mbind result_bind].
    unfold init_ionizationState. cbn [py_int]. rewrite Hint, try_except_caught.
    unfold dict_get. rewrite Hrom, try_except_caught. reflexivity.
Qed.

Lemma Transition_init_unreadable_witness :
  Transition_init 1 (PQuantity (mk_quantity 500 u.nm)) (PStr "Xx") (PInt 1)
    = raise KeyError "key not found" /\
  Transition_init 1 (PQuantity (mk_quantity 500 u.nm)) (PStr "99") (PInt 1)
    = raise KeyError "key not found" /\
  Transition_init 1 (PQuantity (mk_quantity 500 u.nm)) (PInt 26) (PStr "ii")
    = raise ValueError "Ionization state invalid!".
Proof.
  split; [|split].
  - apply (Transition_init_unreadable 1 (mk_quantity 500 u.nm) "Xx" (PInt 1) eq_refl).
    + cbn. lia.
    + reflexivity.
    + vm_compute. reflexivity.
  - apply (proj1 (proj2 (Transition_init_unreadable 1 (mk_quantity 500 u.nm) "99" (PInt 1)
                           eq_refl)) 99%Z).
    + cbn. lia.
    + reflexivity.
    + lia.
  - apply (proj2 (proj2 (proj2 (Transition_init_unreadable 1 (mk_quantity 500 u.nm) "ii"
                                  (PInt 1) eq_refl))) 26%Z).
    + lia.
    + reflexivity.
    + vm_compute. reflexivity.
Defined.

End Extra_init_errors.

(** ** The earlier [air2vacESO] of [utils/air_vac_conversions.py] *)
Section Extra_earlier_conversions.
Import conversions.

Lemma earlier_index_eq (l : Q) :
  air_vac_conversions.air_indexEdlen53 l = air_indexEdlen53 l.
Proof. reflexivity. Qed.















End Extra_earlier_conversions.
